(** * Upload and chat orchestration of the knowledge-base client

    A shallow embedding of [src/App.tsx] (the handlers [onFileUpload],
    [handleSendMessage], [handleConfigSave] and the two extractors), of the
    Supabase and Gemini service classes and of the shared types.

    - JavaScript strings are sequences of UTF-16 code units.
    - An [async] function is a finite tree of effects: state updates of the
      component, reads of the live state, and calls that leave the program
      (clock, random source, file reading, PDF and Word libraries, the
      language model, the hosted store).  [run] interprets such a tree
      against an environment that answers every call, and records every
      call and every state update in a trace, in the order they happen.
    - [console.error], [e.preventDefault()], [localStorage] and the reset of
      the file input's value touch nothing the handlers read back; they are
      left out. *)

From Stdlib Require Import List ZArith NArith Lia Bool Ascii String.
From Stdlib Require Import DecimalString DecimalPos DecimalZ.
From Stdlib Require QArith_base.
Import ListNotations.

Set Implicit Arguments.
Local Open Scope list_scope.

(* ===================================================================== *)
(** ** JavaScript strings *)
(* ===================================================================== *)

Module Js.

(** A string is its list of UTF-16 code units. *)
Definition jsstring := list N.

(** An ASCII literal of the source. *)
Definition lit (s : string) : jsstring :=
  map N_of_ascii (list_ascii_of_string s).

Definition quote : jsstring := [34%N].   (* the double-quote character *)
Definition nl : jsstring := [10%N].      (* \n *)

(** WhiteSpace and LineTerminator code points of ECMAScript, the set
    [String.prototype.trim] strips. *)
Definition is_white_space (c : N) : bool :=
  ((9 <=? c) && (c <=? 13) || (c =? 32) || (c =? 160) || (c =? 5760)
   || (8192 <=? c) && (c <=? 8202) || (c =? 8232) || (c =? 8233)
   || (c =? 8239) || (c =? 8287) || (c =? 12288) || (c =? 65279))%N.

Fixpoint trimStart (s : jsstring) : jsstring :=
  match s with
  | [] => []
  | c :: r => if is_white_space c then trimStart r else s
  end.

Definition trimEnd (s : jsstring) : jsstring := rev (trimStart (rev s)).

Definition trim (s : jsstring) : jsstring := trimEnd (trimStart s).

(** Truthiness of a string: only the empty string is falsy. *)
Definition truthy (s : jsstring) : bool :=
  match s with [] => false | _ :: _ => true end.

Fixpoint eqb (a b : jsstring) : bool :=
  match a, b with
  | [], [] => true
  | x :: a', y :: b' => (x =? y)%N && eqb a' b'
  | _, _ => false
  end.

Fixpoint startsWith (s p : jsstring) : bool :=
  match p, s with
  | [], _ => true
  | _ :: _, [] => false
  | y :: p', x :: s' => (x =? y)%N && startsWith s' p'
  end.

Fixpoint includes (s p : jsstring) : bool :=
  startsWith s p
  || match s with
     | [] => false
     | _ :: s' => includes s' p
     end.

Definition endsWith (s p : jsstring) : bool :=
  startsWith (rev s) (rev p).

(** [Array.prototype.join] on an array of strings. *)
Fixpoint join (sep : jsstring) (xs : list jsstring) : jsstring :=
  match xs with
  | [] => []
  | [x] => x
  | x :: rest => x ++ sep ++ join sep rest
  end.

(** [s.substr(start, length)] for non-negative arguments. *)
Definition substr (start len : nat) (s : jsstring) : jsstring :=
  firstn len (skipn start s).

(** [n.toString()] for an integral number. *)
Definition toString (n : Z) : jsstring :=
  lit (NilZero.string_of_int (Z.to_int n)).

(** [x || d] where [x] is a string or [undefined]. *)
Definition or_else (x : option jsstring) (d : jsstring) : jsstring :=
  match x with
  | Some s => if truthy s then s else d
  | None => d
  end.

(** What a [throw] carries, as far as the handlers look at it: the
    [message] property, and the [code] of a store error. *)
Record Error : Type := mkError {
  message : option jsstring;
  code : option jsstring
}.

(** [new Error(msg)] *)
Definition new_Error (msg : jsstring) : Error :=
  {| message := Some msg; code := None |}.

End Js.

Import Js.

(* ===================================================================== *)
(** ** Shared types (types.ts) *)
(* ===================================================================== *)

Inductive DocStatus : Type := processing | ready | error.

Record Document : Type := mkDocument {
  doc_id : jsstring;
  doc_name : jsstring;
  doc_content : jsstring;
  doc_status : DocStatus;
  doc_timestamp : Z
}.

Inductive Role : Type := user | assistant.

Record ChatMessage : Type := mkChatMessage {
  msg_id : jsstring;
  msg_role : Role;
  msg_content : jsstring;
  msg_sources : option (list jsstring)
}.

(* ===================================================================== *)
(** ** Values exchanged with the outside *)
(* ===================================================================== *)

Definition ArrayBuffer := list Byte.byte.

Record File : Type := mkFile {
  file_name : jsstring;
  file_type : jsstring;
  file_handle : N
}.

(** The change event of the file input: [e.target.files]. *)
Record ChangeEvent : Type := mkChangeEvent {
  target_files : option (list File)
}.

(** [e.target.files?.[0]] *)
Definition first_file (e : ChangeEvent) : option File :=
  match target_files e with
  | Some (f :: _) => Some f
  | _ => None
  end.

Record PdfDocument : Type := mkPdf { pdf_handle : N; numPages : nat }.
Record PdfPage : Type := mkPage { page_handle : N; pageNumber : nat }.
Record TextItem : Type := mkItem { str : jsstring }.
Record TextContent : Type := mkTextContent { items : list TextItem }.

Record SupabaseClient : Type := mkClient {
  client_url : jsstring;
  client_key : jsstring
}.

Record PostgrestError : Type := mkPgError {
  pg_message : jsstring;
  pg_code : jsstring
}.

(** Throwing a store error throws the error object itself. *)
Definition thrown (e : PostgrestError) : Error :=
  {| message := Some (pg_message e); code := Some (pg_code e) |}.

Record DocumentRow : Type := mkRow {
  row_id : jsstring;
  row_name : jsstring;
  row_content : jsstring;
  row_uploaded_at : jsstring;
  row_embedding : list Z
}.

Record InsertResult : Type := mkInsertResult {
  insert_error : option PostgrestError
}.

Record ContentRow : Type := mkContentRow { content : jsstring }.

Record SelectResult : Type := mkSelectResult {
  select_data : option (list ContentRow);
  select_error : option PostgrestError
}.

Record GenerateContentConfig : Type := mkGenConfig {
  temperature : QArith_base.Q;
  thinkingBudget : option Z
}.

Record GenerateContentResponse : Type := mkGenResponse {
  response_text : option jsstring
}.

(** How an awaited promise settles. *)
Inductive Settled (A : Type) : Type :=
| Fulfilled (a : A)
| Rejected (e : Error).
Arguments Rejected {A} e.

(* ===================================================================== *)
(** ** Component state *)
(* ===================================================================== *)

(** The [useState] cells the handlers read or write. *)
Record AppState : Type := mkAppState {
  documents : list Document;
  chatMessages : list ChatMessage;
  isUploading : bool;
  inputMessage : jsstring;
  isAnswering : bool;
  supabaseConfig : jsstring * jsstring;
  isConfigured : bool;
  errorStatus : option jsstring
}.

(** The component state together with the module-level singleton
    [supabase], whose only field is its [client]. *)
Record World : Type := mkWorld {
  app : AppState;
  supabase_client : option SupabaseClient
}.

Definition on_app (f : AppState -> AppState) (w : World) : World :=
  {| app := f (app w); supabase_client := supabase_client w |}.

Definition setDocuments (f : list Document -> list Document) : World -> World :=
  on_app (fun s =>
    mkAppState (f (documents s)) (chatMessages s) (isUploading s)
      (inputMessage s) (isAnswering s) (supabaseConfig s) (isConfigured s)
      (errorStatus s)).

Definition setChatMessages (f : list ChatMessage -> list ChatMessage)
  : World -> World :=
  on_app (fun s =>
    mkAppState (documents s) (f (chatMessages s)) (isUploading s)
      (inputMessage s) (isAnswering s) (supabaseConfig s) (isConfigured s)
      (errorStatus s)).

Definition setIsUploading (b : bool) : World -> World :=
  on_app (fun s =>
    mkAppState (documents s) (chatMessages s) b (inputMessage s)
      (isAnswering s) (supabaseConfig s) (isConfigured s) (errorStatus s)).

Definition setInputMessage (v : jsstring) : World -> World :=
  on_app (fun s =>
    mkAppState (documents s) (chatMessages s) (isUploading s) v
      (isAnswering s) (supabaseConfig s) (isConfigured s) (errorStatus s)).

Definition setIsAnswering (b : bool) : World -> World :=
  on_app (fun s =>
    mkAppState (documents s) (chatMessages s) (isUploading s)
      (inputMessage s) b (supabaseConfig s) (isConfigured s) (errorStatus s)).

Definition setIsConfigured (b : bool) : World -> World :=
  on_app (fun s =>
    mkAppState (documents s) (chatMessages s) (isUploading s)
      (inputMessage s) (isAnswering s) (supabaseConfig s) b (errorStatus s)).

Definition setErrorStatus (v : option jsstring) : World -> World :=
  on_app (fun s =>
    mkAppState (documents s) (chatMessages s) (isUploading s)
      (inputMessage s) (isAnswering s) (supabaseConfig s) (isConfigured s) v).

Definition setClient (c : option SupabaseClient) (w : World) : World :=
  {| app := app w; supabase_client := c |}.

(** The state of a freshly mounted component with nothing in
    [localStorage]. *)
Definition initial_world : World :=
  {| app := mkAppState [] [] false [] false ([], []) false None;
     supabase_client := None |}.

(* ===================================================================== *)
(** ** Effects *)
(* ===================================================================== *)

(** Every way a handler reaches outside the component.  The index is the
    type of the answer.  Calls that return a promise answer with a
    [Settled] value. *)
Inductive Call : Type -> Type :=
| DateNow : Call Z                                   (* Date.now() *)
| MathRandomToString36 : Call jsstring               (* Math.random().toString(36) *)
| NewDateToISOString : Call jsstring                 (* new Date().toISOString() *)
| TextDecoderDecode (data : ArrayBuffer) : Call jsstring
| CreateClient (url key : jsstring) : Call (Settled SupabaseClient)   (* may throw *)
| FileArrayBuffer (f : File) : Call (Settled ArrayBuffer)
| PdfGetDocument (data : ArrayBuffer) : Call (Settled PdfDocument)
| PdfGetPage (pdf : PdfDocument) (i : nat) : Call (Settled PdfPage)
| PageGetTextContent (p : PdfPage) : Call (Settled TextContent)
| MammothExtractRawText (data : ArrayBuffer) : Call (Settled jsstring)
| GenerateContent (model contents : jsstring) (config : GenerateContentConfig)
    : Call (Settled GenerateContentResponse)
| SupabaseInsert (c : SupabaseClient) (table : jsstring) (rows : list DocumentRow)
    : Call (Settled InsertResult)
| SupabaseSelect (c : SupabaseClient) (table columns : jsstring) (limit : nat)
    : Call (Settled SelectResult).

(** The calls behind which the program is suspended ([await]). *)
Definition is_awaited {R} (c : Call R) : bool :=
  match c with
  | DateNow | MathRandomToString36 | NewDateToISOString
  | TextDecoderDecode _ | CreateClient _ _ => false
  | _ => true
  end.

(** The calls that reach a collaborator: the store, the normalizer and
    the generator (the last two are both [GenerateContent]). *)
Definition is_collaborator {R} (c : Call R) : bool :=
  match c with
  | GenerateContent _ _ _ | SupabaseInsert _ _ _ | SupabaseSelect _ _ _ _ => true
  | _ => false
  end.

(** A handler: a finite tree of effects. *)
Inductive Async (A : Type) : Type :=
| Ret (a : A)
| Throw (e : Error)
| Get (k : World -> Async A)
| Modify (f : World -> World) (k : Async A)
| Vis (R : Type) (c : Call R) (k : R -> Async A).
Arguments Throw {A} e.
Arguments Vis {A R} c k.

Fixpoint bind {A B} (p : Async A) (f : A -> Async B) : Async B :=
  match p with
  | Ret a => f a
  | Throw e => Throw e
  | Get k => Get (fun w => bind (k w) f)
  | Modify g k => Modify g (bind k f)
  | Vis c k => Vis c (fun r => bind (k r) f)
  end.

(** [try { body } catch (error) { handler error }] *)
Fixpoint try_catch {A} (body : Async A) (handler : Error -> Async A) : Async A :=
  match body with
  | Ret a => Ret a
  | Throw e => handler e
  | Get k => Get (fun w => try_catch (k w) handler)
  | Modify g k => Modify g (try_catch k handler)
  | Vis c k => Vis c (fun r => try_catch (k r) handler)
  end.

(** [try { body } finally { fin }] *)
Fixpoint finally {A} (body : Async A) (fin : Async unit) : Async A :=
  match body with
  | Ret a => bind fin (fun _ => Ret a)
  | Throw e => bind fin (fun _ => Throw e)
  | Get k => Get (fun w => finally (k w) fin)
  | Modify g k => Modify g (finally k fin)
  | Vis c k => Vis c (fun r => finally (k r) fin)
  end.

(** A call whose answer is used as it is. *)
Definition call {R} (c : Call R) : Async R := Vis c (fun r => Ret r).

(** [await c]: a rejected promise throws at the [await]. *)
Definition await {R} (c : Call (Settled R)) : Async R :=
  Vis c (fun r => match r with
                  | Fulfilled a => Ret a
                  | Rejected e => Throw e
                  end).

(** A synchronous call that may throw; its answer says which. *)
Definition call_throwing {R} (c : Call (Settled R)) : Async R :=
  Vis c (fun r => match r with
                  | Fulfilled a => Ret a
                  | Rejected e => Throw e
                  end).

(** A [setX(...)] of the component. *)
Definition update (f : World -> World) : Async unit := Modify f (Ret tt).

Declare Scope async_scope.
Delimit Scope async_scope with async.
Notation "x <- p ;; q" := (bind p (fun x => q))
  (at level 61, p at next level, right associativity) : async_scope.
Notation "p ;; q" := (bind p (fun _ => q))
  (at level 61, right associativity) : async_scope.
Local Open Scope async_scope.

(** *** Interpretation *)

Inductive Event : Type :=
| EvCall (R : Type) (c : Call R) (r : R)
| EvSet (w : World).
Arguments EvCall {R} c r.

Definition Trace := list Event.

(** The environment answers a call knowing everything that happened so
    far. *)
Definition Env := forall R : Type, Trace -> Call R -> R.

Inductive Outcome (A : Type) : Type :=
| Returned (a : A)
| Threw (e : Error).
Arguments Threw {A} e.

Fixpoint run {A} (env : Env) (p : Async A) (w : World) (tr : Trace)
  : Outcome A * World * Trace :=
  match p with
  | Ret a => (Returned a, w, tr)
  | Throw e => (Threw e, w, tr)
  | Get k => run env (k w) w tr
  | Modify f k => run env k (f w) (tr ++ [EvSet (f w)])
  | Vis c k => run env (k (env _ tr c)) w (tr ++ [EvCall c (env _ tr c)])
  end.

(** The synchronous part of a run: the program is run up to its first
    awaited call, where control goes back to the event loop.  The result
    is the state and the trace at that point and what is left to run. *)
Fixpoint until_await {A} (env : Env) (p : Async A) (w : World) (tr : Trace)
  : World * Trace * Async A :=
  match p with
  | Ret a => (w, tr, Ret a)
  | Throw e => (w, tr, Throw e)
  | Get k => until_await env (k w) w tr
  | Modify f k => until_await env k (f w) (tr ++ [EvSet (f w)])
  | Vis c k =>
      if is_awaited c then (w, tr, Vis c k)
      else until_await env (k (env _ tr c)) w (tr ++ [EvCall c (env _ tr c)])
  end.

(** The successive states of the component recorded in a trace. *)
Fixpoint snapshots (tr : Trace) : list World :=
  match tr with
  | [] => []
  | EvSet w :: rest => w :: snapshots rest
  | EvCall _ _ :: rest => snapshots rest
  end.

Definition awaited_event (ev : Event) : bool :=
  match ev with
  | EvCall c _ => is_awaited c
  | EvSet _ => false
  end.

Definition collaborator_event (ev : Event) : bool :=
  match ev with
  | EvCall c _ => is_collaborator c
  | EvSet _ => false
  end.

(** The page numbers asked of the PDF library, in the order asked. *)
Fixpoint page_visits (tr : Trace) : list nat :=
  match tr with
  | [] => []
  | EvCall c _ :: rest =>
      match c with
      | PdfGetPage _ i => i :: page_visits rest
      | _ => page_visits rest
      end
  | EvSet _ :: rest => page_visits rest
  end.

(* ===================================================================== *)
(** ** services/geminiService.ts *)
(* ===================================================================== *)

Module GeminiService.

Definition processFileContent (name content : jsstring) : Async jsstring :=
  response <- await (GenerateContent
    (lit "gemini-3-flash-preview")
    (lit "Extract all meaningful text and key information from this document named "
       ++ quote ++ name ++ quote
       ++ lit ". Keep it clean and concise for a vector knowledge base:"
       ++ nl ++ nl ++ content)
    {| temperature := QArith_base.Qmake 1 10; thinkingBudget := None |}) ;;
  Ret (or_else (response_text response) []).

Record Answer : Type := mkAnswer { text : jsstring; sources : list jsstring }.

Definition generateAnswer (question context : jsstring) : Async Answer :=
  response <- await (GenerateContent
    (lit "gemini-3-pro-preview")
    (lit "You are a helpful AI assistant. Use the following pieces of retrieved context to answer the user's question. If you don't know the answer based on the context, say that you don't know. "
       ++ nl ++ nl ++ lit "Context:" ++ nl ++ context
       ++ nl ++ nl ++ lit "Question: " ++ question)
    {| temperature := QArith_base.Qmake 2 10; thinkingBudget := Some 1000%Z |}) ;;
  Ret {| text := or_else (response_text response)
                   (lit "I'm sorry, I couldn't generate an answer.");
         sources := [] |}.

End GeminiService.

(* ===================================================================== *)
(** ** services/supabaseService.ts *)
(* ===================================================================== *)

Module SupabaseService.

Definition init (url key : jsstring) : Async unit :=
  c <- call_throwing (CreateClient url key) ;;
  update (setClient (Some c)).

Definition storeDocument (id name content : jsstring) : Async unit :=
  Get (fun w =>
    match supabase_client w with
    | None => Throw (new_Error (lit "Supabase not initialized"))
    | Some client =>
        uploaded_at <- call NewDateToISOString ;;
        res <- await (SupabaseInsert client (lit "documents")
                 [ {| row_id := id; row_name := name; row_content := content;
                      row_uploaded_at := uploaded_at;
                      row_embedding := repeat 0%Z 1536 |} ]) ;;
        match insert_error res with
        | Some err => Throw (thrown err)
        | None => Ret tt
        end
    end).

Definition searchKnowledgeBase (query : jsstring) : Async jsstring :=
  Get (fun w =>
    match supabase_client w with
    | None => Throw (new_Error (lit "Supabase not initialized"))
    | Some client =>
        res <- await (SupabaseSelect client (lit "documents") (lit "content") 10) ;;
        match select_error res with
        | Some err => Throw (thrown err)
        | None =>
            Ret (or_else
                   (option_map (fun data => join (nl ++ nl) (map content data))
                               (select_data res))
                   [])
        end
    end).

End SupabaseService.

(* ===================================================================== *)
(** ** App.tsx *)
(* ===================================================================== *)

Module App.

Import GeminiService SupabaseService.

(** An event handler is a closure of one render: it sees the state cells
    as they were at that render.  [fire] invokes the handler of the
    current render. *)
Definition fire {E} (handler : AppState -> E -> Async unit) (e : E) : Async unit :=
  Get (fun w => handler (app w) e).

Definition handleConfigSave (s : AppState) (_ : unit) : Async unit :=
  init (fst (supabaseConfig s)) (snd (supabaseConfig s)) ;;
  update (setIsConfigured true) ;;
  update (setErrorStatus None).

(** The Reset button: [onClick={() => setIsConfigured(false)}]. *)
Definition onReset (s : AppState) (_ : unit) : Async unit :=
  update (setIsConfigured false).

(** The banner's dismiss button: [onClick={() => setErrorStatus(null)}]. *)
Definition onDismissError (s : AppState) (_ : unit) : Async unit :=
  update (setErrorStatus None).

(** [textContent.items.map(item => item.str).join(' ')] *)
Definition pageText (tc : TextContent) : jsstring :=
  join (lit " ") (map str (items tc)).

(** The body of [for (let i = 1; i <= pdf.numPages; i++)], with
    [remaining = pdf.numPages + 1 - i] iterations still to run. *)
Fixpoint pagesLoop (pdf : PdfDocument) (remaining i : nat) (fullText : jsstring)
  : Async jsstring :=
  match remaining with
  | O => Ret fullText
  | S remaining' =>
      page <- await (PdfGetPage pdf i) ;;
      textContent <- await (PageGetTextContent page) ;;
      pagesLoop pdf remaining' (S i) (fullText ++ pageText textContent ++ nl)
  end.

Definition extractTextFromPdf (arrayBuffer : ArrayBuffer) : Async jsstring :=
  pdf <- await (PdfGetDocument arrayBuffer) ;;
  pagesLoop pdf (numPages pdf) 1 [].

Definition extractTextFromDocx (arrayBuffer : ArrayBuffer) : Async jsstring :=
  await (MammothExtractRawText arrayBuffer).

(** The three-way dispatch inside [onFileUpload]. *)
Definition is_pdf (file : File) : bool :=
  Js.eqb (file_type file) (lit "application/pdf")
  || endsWith (file_name file) (lit ".pdf").

Definition is_docx (file : File) : bool :=
  Js.eqb (file_type file)
    (lit "application/vnd.openxmlformats-officedocument.wordprocessingml.document")
  || endsWith (file_name file) (lit ".docx").

Definition extractText (file : File) (arrayBuffer : ArrayBuffer) : Async jsstring :=
  if is_pdf file then extractTextFromPdf arrayBuffer
  else if is_docx file then extractTextFromDocx arrayBuffer
  else call (TextDecoderDecode arrayBuffer).

(** The two registry patches, keyed by id. *)
Definition markReady (id processedContent : jsstring) (d : Document) : Document :=
  if Js.eqb (doc_id d) id
  then {| doc_id := doc_id d; doc_name := doc_name d;
          doc_content := processedContent; doc_status := ready;
          doc_timestamp := doc_timestamp d |}
  else d.

Definition markError (id : jsstring) (d : Document) : Document :=
  if Js.eqb (doc_id d) id
  then {| doc_id := doc_id d; doc_name := doc_name d;
          doc_content := doc_content d; doc_status := error;
          doc_timestamp := doc_timestamp d |}
  else d.

Definition emptyFile : Error := new_Error (lit "File is empty.").

Definition tableMissing : jsstring :=
  lit "Table 'documents' missing in Supabase. Check Setup SQL.".

(** The [try] block of [onFileUpload]. *)
Definition uploadTry (file : File) (newDoc : Document) : Async unit :=
  arrayBuffer <- await (FileArrayBuffer file) ;;
  extractedText <- extractText file arrayBuffer ;;
  if negb (truthy (trim extractedText)) then Throw emptyFile
  else
    processedContent <- processFileContent (file_name file) extractedText ;;
    storeDocument (doc_id newDoc) (file_name file) processedContent ;;
    update (setDocuments (map (markReady (doc_id newDoc) processedContent))).

(** The [catch] block of [onFileUpload]. *)
Definition uploadCatch (newDoc : Document) (error : Error) : Async unit :=
  let msg := or_else (message error) (lit "Failed to upload.") in
  (if includes msg (lit "PGRST205") || includes msg (lit "documents")
   then update (setErrorStatus (Some tableMissing))
   else update (setErrorStatus (Some msg))) ;;
  update (setDocuments (map (markError (doc_id newDoc)))).

Definition onFileUpload (s : AppState) (e : ChangeEvent) : Async unit :=
  match first_file e with
  | None => Ret tt
  | Some file =>
      if negb (isConfigured s) then Ret tt
      else
        update (setIsUploading true) ;;
        update (setErrorStatus None) ;;
        r <- call MathRandomToString36 ;;
        now <- call DateNow ;;
        let newDoc := {| doc_id := substr 2 9 r;
                         doc_name := file_name file;
                         doc_content := [];
                         doc_status := processing;
                         doc_timestamp := now |} in
        update (setDocuments (fun prev => newDoc :: prev)) ;;
        finally (try_catch (uploadTry file newDoc) (uploadCatch newDoc))
                (update (setIsUploading false))
  end.

Definition noKnowledge : jsstring :=
  lit "Could not retrieve knowledge. Ensure your Supabase table 'documents' is created.".

(** The [try] block of [handleSendMessage].  The assistant message is
    built inside the state updater, so the clock is read when the update
    runs. *)
Definition chatTry (inputMessage : jsstring) : Async unit :=
  context <- searchKnowledgeBase inputMessage ;;
  answer <- generateAnswer inputMessage context ;;
  now <- call DateNow ;;
  update (setChatMessages (fun prev => prev ++
    [ {| msg_id := toString (now + 1); msg_role := assistant;
         msg_content := text answer;
         msg_sources := Some (sources answer) |} ])).

(** The [catch] block of [handleSendMessage]. *)
Definition chatCatch (error : Error) : Async unit :=
  now <- call DateNow ;;
  update (setChatMessages (fun prev => prev ++
    [ {| msg_id := toString now; msg_role := assistant;
         msg_content := lit "Error: " ++ or_else (message error) noKnowledge;
         msg_sources := None |} ])).

Definition handleSendMessage (s : AppState) (_ : unit) : Async unit :=
  if negb (truthy (trim (inputMessage s))) || isAnswering s then Ret tt
  else
    now <- call DateNow ;;
    let userMsg := {| msg_id := toString now; msg_role := user;
                      msg_content := inputMessage s; msg_sources := None |} in
    update (setChatMessages (fun prev => prev ++ [userMsg])) ;;
    update (setInputMessage []) ;;
    update (setIsAnswering true) ;;
    finally (try_catch (chatTry (inputMessage s)) chatCatch)
            (update (setIsAnswering false)).

End App.

Import GeminiService SupabaseService App.

(* ===================================================================== *)
(** ** Observations on a run *)
(* ===================================================================== *)

Section Observations.

Variable env : Env.

(** A string that is all white space (the empty string included). *)
Definition blank (s : jsstring) : Prop :=
  forall c, In c s -> is_white_space c = true.

(** Programs that never update the state: they only read it, call out,
    return or throw. *)
Inductive ReadOnly {A} : Async A -> Prop :=
| RO_Ret a : ReadOnly (Ret a)
| RO_Throw e : ReadOnly (Throw e)
| RO_Get k : (forall w, ReadOnly (k w)) -> ReadOnly (Get k)
| RO_Vis R (c : Call R) k : (forall r, ReadOnly (k r)) -> ReadOnly (Vis c k).

(** The environment serves [data] as the PDF [pdf] whose pages, first to
    last, have the text contents [pages]. *)
Definition serves (data : ArrayBuffer) (pdf : PdfDocument)
           (pages : list TextContent) : Prop :=
  numPages pdf = List.length pages /\
  (forall tr, env tr (PdfGetDocument data) = Fulfilled pdf) /\
  (forall i, 1 <= i <= numPages pdf ->
     exists page,
       (forall tr, env tr (PdfGetPage pdf i) = Fulfilled page) /\
       (forall tr, env tr (PageGetTextContent page)
                   = Fulfilled (nth (i - 1) pages (mkTextContent [])))).

(** The state after [setIsUploading(true); setErrorStatus(null)]. *)
Definition cleared (w : World) : World :=
  setErrorStatus None (setIsUploading true w).

(** The history at that point, then the id drawn and the time read for
    the new document, each with the history it was asked under. *)
Definition clearedTrace (w : World) (tr : Trace) : Trace :=
  (tr ++ [EvSet (setIsUploading true w)]) ++ [EvSet (cleared w)].

Definition drawn (w : World) (tr : Trace) : jsstring :=
  env (clearedTrace w tr) MathRandomToString36.

Definition drawnTrace (w : World) (tr : Trace) : Trace :=
  clearedTrace w tr ++ [EvCall MathRandomToString36 (drawn w tr)].

Definition stamped (w : World) (tr : Trace) : Z :=
  env (drawnTrace w tr) DateNow.

(** The document the handler builds for this upload. *)
Definition newDocOf (w : World) (tr : Trace) (file : File) : Document :=
  {| doc_id := substr 2 9 (drawn w tr);
     doc_name := file_name file;
     doc_content := [];
     doc_status := processing;
     doc_timestamp := stamped w tr |}.

(** The state and the trace right after
    [setDocuments(prev => [newDoc, ...prev])]. *)
Definition inserted (w : World) (tr : Trace) (file : File) : World :=
  setDocuments (fun prev => newDocOf w tr file :: prev) (cleared w).

Definition insertedTrace (w : World) (tr : Trace) (file : File) : Trace :=
  (drawnTrace w tr ++ [EvCall DateNow (stamped w tr)])
    ++ [EvSet (inserted w tr file)].

(** Everything the handler does before the registry insert. *)
Definition beforeInsert (w : World) (tr : Trace) : Trace :=
  [ EvSet (setIsUploading true w); EvSet (cleared w);
    EvCall MathRandomToString36 (drawn w tr); EvCall DateNow (stamped w tr) ].

(** What the [try] block of this upload does. *)
Definition tried (w : World) (tr : Trace) (file : File)
  : Outcome unit * World * Trace :=
  run env (uploadTry file (newDocOf w tr file))
      (inserted w tr file) (insertedTrace w tr file).

(** The banner text the [catch] block chooses. *)
Definition banner (error : Error) : jsstring :=
  let msg := or_else (message error) (lit "Failed to upload.") in
  if includes msg (lit "PGRST205") || includes msg (lit "documents")
  then tableMissing else msg.

(** The condition of the [catch] block: the message mentions the
    backend's error code or the table's name. *)
Definition missingTableSignal (msg : jsstring) : bool :=
  includes msg (lit "PGRST205") || includes msg (lit "documents").

(** Reading and extracting, the part of the [try] block before the
    emptiness check. *)
Definition readAndExtract (file : File) : Async jsstring :=
  arrayBuffer <- await (FileArrayBuffer file) ;;
  extractText file arrayBuffer.

(** The part after it. *)
Definition normalizeAndStore (file : File) (newDoc : Document)
           (extractedText : jsstring) : Async unit :=
  processedContent <- processFileContent (file_name file) extractedText ;;
  storeDocument (doc_id newDoc) (file_name file) processedContent ;;
  update (setDocuments (map (markReady (doc_id newDoc) processedContent))).

(** The registry states an upload can end in. *)
Definition settledReady (w : World) (id processedContent : jsstring) : World :=
  setDocuments (map (markReady id processedContent)) w.

Definition bannered (w : World) (err : Error) : World :=
  setErrorStatus (Some (banner err)) w.

Definition settledError (w : World) (id : jsstring) (err : Error) : World :=
  setDocuments (map (markError id)) (bannered w err).

(** The status of the first registry entry with the given id. *)
Definition statusOf (id : jsstring) (w : World) : option DocStatus :=
  option_map doc_status
    (find (fun d => Js.eqb (doc_id d) id) (documents (app w))).

Definition status_eqb (a b : option DocStatus) : bool :=
  match a, b with
  | None, None => true
  | Some processing, Some processing
  | Some ready, Some ready
  | Some error, Some error => true
  | _, _ => false
  end.

(** A sequence of observations with consecutive repetitions dropped:
    what is left are the values the status went through. *)
Fixpoint transitions (l : list (option DocStatus)) : list (option DocStatus) :=
  match l with
  | [] => []
  | a :: rest =>
      match rest with
      | [] => [a]
      | b :: _ => if status_eqb a b then transitions rest else a :: transitions rest
      end
  end.

(** The time read when the question is submitted. *)
Definition asked (w : World) (tr : Trace) : Z := env tr DateNow.

(** The message the handler builds for the question. *)
Definition userMsgOf (w : World) (tr : Trace) : ChatMessage :=
  {| msg_id := toString (asked w tr); msg_role := user;
     msg_content := inputMessage (app w); msg_sources := None |}.

(** The state and the trace when the [try] block is entered. *)
Definition submitted (w : World) (tr : Trace) : World :=
  setIsAnswering true
    (setInputMessage []
       (setChatMessages (fun prev => prev ++ [userMsgOf w tr]) w)).

Definition submittedEvents (w : World) (tr : Trace) : Trace :=
  [ EvCall DateNow (asked w tr);
    EvSet (setChatMessages (fun prev => prev ++ [userMsgOf w tr]) w);
    EvSet (setInputMessage []
             (setChatMessages (fun prev => prev ++ [userMsgOf w tr]) w));
    EvSet (submitted w tr) ].

(** What the [try] block of this exchange does. *)
Definition chatTried (w : World) (tr : Trace) : Outcome unit * World * Trace :=
  run env (chatTry (inputMessage (app w))) (submitted w tr)
      (tr ++ submittedEvents w tr).

(** The state after [setChatMessages(prev => [...prev, a])]. *)
Definition answered (w : World) (a : ChatMessage) : World :=
  setChatMessages (fun prev => prev ++ [a]) w.

End Observations.

(* ===================================================================== *)
(** ** Scripted environments *)
(* ===================================================================== *)

(** An environment given by one answer per kind of call.  The clock may
    look at the history; the other answers depend on the request only. *)
Record Script : Type := mkScript {
  clock : Trace -> Z;
  random36 : jsstring;
  isoDate : jsstring;
  decode : ArrayBuffer -> jsstring;
  createClient : jsstring -> jsstring -> Settled SupabaseClient;
  readFile : File -> Settled ArrayBuffer;
  openPdf : ArrayBuffer -> Settled PdfDocument;
  getPage : PdfDocument -> nat -> Settled PdfPage;
  getTextContent : PdfPage -> Settled TextContent;
  rawText : ArrayBuffer -> Settled jsstring;
  generate : jsstring -> jsstring -> Settled GenerateContentResponse;
  insertRows : list DocumentRow -> Settled InsertResult;
  selectRows : nat -> Settled SelectResult
}.

Definition scripted (s : Script) : Env :=
  fun R tr c =>
    match c in Call R return R with
    | DateNow => clock s tr
    | MathRandomToString36 => random36 s
    | NewDateToISOString => isoDate s
    | TextDecoderDecode data => decode s data
    | CreateClient url key => createClient s url key
    | FileArrayBuffer f => readFile s f
    | PdfGetDocument data => openPdf s data
    | PdfGetPage pdf i => getPage s pdf i
    | PageGetTextContent p => getTextContent s p
    | MammothExtractRawText data => rawText s data
    | GenerateContent m contents _ => generate s m contents
    | SupabaseInsert _ _ rows => insertRows s rows
    | SupabaseSelect _ _ _ limit => selectRows s limit
    end.

Module Fixtures.

(** A PDF library serving the given pages, each a list of fragments. *)
Definition pagesOf (pages : list (list jsstring)) (p : PdfPage) : Settled TextContent :=
  Fulfilled {| items := map mkItem (nth (pageNumber p - 1) pages []) |}.

(** Everything succeeds; the clock stands at 1000. *)
Definition happy (pages : list (list jsstring)) : Script :=
  {| clock := fun _ => 1000%Z;
     random36 := lit "0.k3j9x2m4pq7";
     isoDate := lit "2024-01-01T00:00:00.000Z";
     decode := map (fun b => N_of_ascii (ascii_of_byte b));
     createClient := fun url key => Fulfilled (mkClient url key);
     readFile := fun _ => Fulfilled [];
     openPdf := fun _ => Fulfilled {| pdf_handle := 0; numPages := List.length pages |};
     getPage := fun _ i => Fulfilled {| page_handle := 0; pageNumber := i |};
     getTextContent := pagesOf pages;
     rawText := fun _ => Fulfilled (lit "word text");
     generate := fun _ _ => Fulfilled {| response_text := Some (lit "clean") |};
     insertRows := fun _ => Fulfilled {| insert_error := None |};
     selectRows := fun _ =>
       Fulfilled {| select_data := Some [mkContentRow (lit "alpha");
                                         mkContentRow (lit "beta")];
                    select_error := None |} |}.

(** As [happy], but the store write reports the given error. *)
Definition failingStore (err : PostgrestError) : Script :=
  let s := happy [[lit "A"]] in
  mkScript (clock s) (random36 s) (isoDate s) (decode s) (createClient s)
    (readFile s) (openPdf s) (getPage s) (getTextContent s) (rawText s)
    (generate s) (fun _ => Fulfilled {| insert_error := Some err |})
    (selectRows s).

(** As [happy], but the normalizer rejects with the given error. *)
Definition failingNormalizer (e : Error) : Script :=
  let s := happy [[lit "A"]] in
  mkScript (clock s) (random36 s) (isoDate s) (decode s) (createClient s)
    (readFile s) (openPdf s) (getPage s) (getTextContent s) (rawText s)
    (fun _ _ => Rejected e) (insertRows s) (selectRows s).

(** As [happy], but every file holds the given bytes. *)
Definition holding (bytes : ArrayBuffer) : Script :=
  let s := happy [[lit "A"]] in
  mkScript (clock s) (random36 s) (isoDate s) (decode s) (createClient s)
    (fun _ => Fulfilled bytes) (openPdf s) (getPage s) (getTextContent s)
    (rawText s) (generate s) (insertRows s) (selectRows s).

(** As [happy], but the store read is rejected, as when the network is
    down. *)
Definition offline : Script :=
  let s := happy [[lit "A"]] in
  mkScript (clock s) (random36 s) (isoDate s) (decode s) (createClient s)
    (readFile s) (openPdf s) (getPage s) (getTextContent s) (rawText s)
    (generate s) (insertRows s)
    (fun _ => Rejected (new_Error (lit "Failed to fetch"))).

Definition abc : list (list jsstring) := [[lit "A"]; [lit "B"]; [lit "C"]].

Definition pdfFile : File :=
  {| file_name := lit "notes.pdf"; file_type := lit "application/pdf";
     file_handle := 1 |}.

Definition txtFile : File :=
  {| file_name := lit "notes.txt"; file_type := lit "text/plain";
     file_handle := 2 |}.

Definition pick (f : File) : ChangeEvent := {| target_files := Some [f] |}.

(** A freshly mounted component with the two credentials typed in. *)
Definition typed : World :=
  {| app := mkAppState [] [] false [] false (lit "https://x.supabase.co", lit "k")
              false None;
     supabase_client := None |}.

(** A configured component: credentials saved, client created. *)
Definition configured : World :=
  {| app := mkAppState [] [] false [] false (lit "https://x.supabase.co", lit "k")
              true None;
     supabase_client := Some (mkClient (lit "https://x.supabase.co") (lit "k")) |}.

Definition asking (q : jsstring) (w : World) : World := setInputMessage q w.

(** The state after saving the configuration and pressing Reset: the
    flag is off, the client is still there. *)
Definition afterReset : World :=
  snd (fst (run (scripted (happy abc)) (fire onReset tt)
                (asking (lit "hi") configured) [])).

End Fixtures.

(* ===================================================================== *)
(** ** The rest of the component *)
(* ===================================================================== *)

Definition setSupabaseConfig (f : jsstring * jsstring -> jsstring * jsstring)
  : World -> World :=
  on_app (fun s =>
    mkAppState (documents s) (chatMessages s) (isUploading s)
      (inputMessage s) (isAnswering s) (f (supabaseConfig s)) (isConfigured s)
      (errorStatus s)).

(** The effect on [supabaseConfig]: it runs after the first render and
    after every render in which the configuration object is a new one. *)
Definition configEffect (s : AppState) (_ : unit) : Async unit :=
  if truthy (fst (supabaseConfig s)) && truthy (snd (supabaseConfig s))
  then try_catch (init (fst (supabaseConfig s)) (snd (supabaseConfig s)) ;;
                  update (setIsConfigured true))
                 (fun e => Ret tt)
  else Ret tt.

(** The two fields of the configuration form.  Each [onChange] stores a
    new configuration object, so the effect runs on the render that
    follows. *)
Definition onUrlChange (s : AppState) (value : jsstring) : Async unit :=
  update (setSupabaseConfig (fun prev => (value, snd prev))) ;;
  fire configEffect tt.

Definition onKeyChange (s : AppState) (value : jsstring) : Async unit :=
  update (setSupabaseConfig (fun prev => (fst prev, value))) ;;
  fire configEffect tt.

(** The question field: [onChange={(e) => setInputMessage(e.target.value)}]. *)
Definition onInputChange (s : AppState) (value : jsstring) : Async unit :=
  update (setInputMessage value).

(** The [disabled] attributes and the banner's condition. *)
Definition fileInputDisabled (s : AppState) : bool :=
  negb (isConfigured s) || isUploading s.

Definition chatInputDisabled (s : AppState) : bool :=
  negb (isConfigured s) || isAnswering s.

Definition sendDisabled (s : AppState) : bool :=
  negb (truthy (trim (inputMessage s))) || negb (isConfigured s) || isAnswering s.

(** [{errorStatus && (...)}] *)
Definition bannerShown (s : AppState) : bool :=
  match errorStatus s with
  | Some msg => truthy msg
  | None => false
  end.

(** Everything a user can do to the component, and the mount. *)
Inductive Action : Type :=
| Mount
| TypeUrl (value : jsstring)
| TypeKey (value : jsstring)
| SaveConfig
| Reset
| DismissError
| TypeQuestion (value : jsstring)
| SendMessage
| PickFile (e : ChangeEvent).

Definition perform (a : Action) : Async unit :=
  match a with
  | Mount => fire configEffect tt
  | TypeUrl value => fire onUrlChange value
  | TypeKey value => fire onKeyChange value
  | SaveConfig => fire handleConfigSave tt
  | Reset => fire onReset tt
  | DismissError => fire onDismissError tt
  | TypeQuestion value => fire onInputChange value
  | SendMessage => fire handleSendMessage tt
  | PickFile e => fire onFileUpload e
  end.

(** A session: the actions one after the other.  An action that throws
    (only saving the configuration can) does not stop the session. *)
Fixpoint session (env : Env) (actions : list Action) (w : World) (tr : Trace)
  : World * Trace :=
  match actions with
  | [] => (w, tr)
  | a :: rest =>
      session env rest (snd (fst (run env (perform a) w tr)))
              (snd (run env (perform a) w tr))
  end.

(* ===================================================================== *)
(** ** More observations on a run *)
(* ===================================================================== *)

(** What a run adds to the trace. *)
Fixpoint emitted {A} (env : Env) (p : Async A) (w : World) (tr : Trace) : Trace :=
  match p with
  | Ret _ => []
  | Throw _ => []
  | Get k => emitted env (k w) w tr
  | Modify f k => EvSet (f w) :: emitted env k (f w) (tr ++ [EvSet (f w)])
  | Vis c k =>
      EvCall c (env _ tr c)
        :: emitted env (k (env _ tr c)) w (tr ++ [EvCall c (env _ tr c)])
  end.

(** The state a run ends in, and how it ends. *)
Definition final {A} (env : Env) (p : Async A) (w : World) (tr : Trace) : World :=
  snd (fst (run env p w tr)).

Definition outcome {A} (env : Env) (p : Async A) (w : World) (tr : Trace)
  : Outcome A :=
  fst (fst (run env p w tr)).

(** Every call recorded in [evs], a continuation of the history [hist],
    was answered by the environment from the history before it. *)
Fixpoint answered_by (env : Env) (hist evs : Trace) : Prop :=
  match evs with
  | [] => True
  | EvCall c r :: rest =>
      r = env _ hist c /\ answered_by env (hist ++ [EvCall c r]) rest
  | EvSet w :: rest => answered_by env (hist ++ [EvSet w]) rest
  end.

(** Programs that never update the state and make only calls that pass
    the test [ok]. *)
Inductive OnlyCalls (ok : forall R, Call R -> bool) {A} : Async A -> Prop :=
| OC_Ret a : OnlyCalls ok (Ret a)
| OC_Throw e : OnlyCalls ok (Throw e)
| OC_Get k : (forall w, OnlyCalls ok (k w)) -> OnlyCalls ok (Get k)
| OC_Vis R (c : Call R) k :
    ok R c = true -> (forall r, OnlyCalls ok (k r)) -> OnlyCalls ok (Vis c k).

Definition call_event (ok : forall R, Call R -> bool) (ev : Event) : bool :=
  match ev with
  | EvCall c _ => ok _ c
  | EvSet _ => false
  end.

(** The calls of each extraction strategy, and of reading the file. *)
Definition pdf_call {R} (c : Call R) : bool :=
  match c with
  | PdfGetDocument _ | PdfGetPage _ _ | PageGetTextContent _ => true
  | _ => false
  end.

Definition local_call {R} (c : Call R) : bool := negb (is_collaborator c).

(** The rows of the store writes recorded in a trace, and the requests
    made to the model. *)
Fixpoint inserted_rows (tr : Trace) : list (list DocumentRow) :=
  match tr with
  | [] => []
  | EvCall c _ :: rest =>
      match c with
      | SupabaseInsert _ _ rows => rows :: inserted_rows rest
      | _ => inserted_rows rest
      end
  | EvSet _ :: rest => inserted_rows rest
  end.

(** The answers to the requests made to the model that a trace records,
    in order. *)
Fixpoint model_answers (tr : Trace) : list (Settled GenerateContentResponse) :=
  match tr with
  | [] => []
  | EvCall c r :: rest =>
      match c in Call R return R -> list (Settled GenerateContentResponse) with
      | GenerateContent _ _ _ => fun r => r :: model_answers rest
      | _ => fun _ => model_answers rest
      end r
  | EvSet _ :: rest => model_answers rest
  end.

(** The error both store operations throw without a client. *)
Definition notInitialized : Error := new_Error (lit "Supabase not initialized").

(** The row [storeDocument] writes. *)
Definition storedRow (id name content uploaded_at : jsstring) : DocumentRow :=
  {| row_id := id; row_name := name; row_content := content;
     row_uploaded_at := uploaded_at; row_embedding := repeat 0%Z 1536 |}.

(** The two prompts, as the template literals build them. *)
Definition normalizerPrompt (name content : jsstring) : jsstring :=
  lit "Extract all meaningful text and key information from this document named "
    ++ quote ++ name ++ quote
    ++ lit ". Keep it clean and concise for a vector knowledge base:"
    ++ nl ++ nl ++ content.

Definition answerPrompt (question context : jsstring) : jsstring :=
  lit "You are a helpful AI assistant. Use the following pieces of retrieved context to answer the user's question. If you don't know the answer based on the context, say that you don't know. "
    ++ nl ++ nl ++ lit "Context:" ++ nl ++ context
    ++ nl ++ nl ++ lit "Question: " ++ question.

Definition flashConfig : GenerateContentConfig :=
  {| temperature := QArith_base.Qmake 1 10; thinkingBudget := None |}.

Definition proConfig : GenerateContentConfig :=
  {| temperature := QArith_base.Qmake 2 10; thinkingBudget := Some 1000%Z |}.

(** The flag is only on when the store client exists. *)
Definition linked (w : World) : Prop :=
  isConfigured (app w) = true -> supabase_client w <> None.

(** The cells the upload never writes, and the cells the chat never
    writes. *)
Definition same_outside_upload (w w' : World) : Prop :=
  chatMessages (app w') = chatMessages (app w) /\
  inputMessage (app w') = inputMessage (app w) /\
  isAnswering (app w') = isAnswering (app w) /\
  supabaseConfig (app w') = supabaseConfig (app w) /\
  isConfigured (app w') = isConfigured (app w) /\
  supabase_client w' = supabase_client w.

Definition same_outside_chat (w w' : World) : Prop :=
  documents (app w') = documents (app w) /\
  isUploading (app w') = isUploading (app w) /\
  errorStatus (app w') = errorStatus (app w) /\
  supabaseConfig (app w') = supabaseConfig (app w) /\
  isConfigured (app w') = isConfigured (app w) /\
  supabase_client w' = supabase_client w.

(** The state after the store client was created and the flag set. *)
Definition connected (c : SupabaseClient) (w : World) : World :=
  setIsConfigured true (setClient (Some c) w).

(** What one action can do to the flag and the client: leave both, turn
    the flag off, or install a client. *)
Definition keeps_link (w w' : World) : Prop :=
  (isConfigured (app w') = isConfigured (app w) /\
   supabase_client w' = supabase_client w) \/
  (isConfigured (app w') = false /\ supabase_client w' = supabase_client w) \/
  (exists c, supabase_client w' = Some c).

(** Question and answer pairs, laid out as the log holds them. *)
Definition exchanges (pairs : list (ChatMessage * ChatMessage)) : list ChatMessage :=
  flat_map (fun p => [fst p; snd p]) pairs.

Definition well_paired (p : ChatMessage * ChatMessage) : Prop :=
  msg_role (fst p) = user /\ msg_role (snd p) = assistant.

(** The number of times Send is pressed in a list of actions. *)
Definition is_send (a : Action) : bool :=
  match a with SendMessage => true | _ => false end.

Definition sends (actions : list Action) : nat :=
  List.length (filter is_send actions).

(** Picking a file, counted like [sends]. *)
Definition is_pick (a : Action) : bool :=
  match a with PickFile _ => true | _ => false end.

Definition picks (actions : list Action) : nat :=
  List.length (filter is_pick actions).

(** What identifies a registry entry, as opposed to its content and
    status, which an upload fills in later. *)
Definition entry (d : Document) : jsstring * jsstring * Z :=
  (doc_id d, doc_name d, doc_timestamp d).

(** No longer shown with the spinner. *)
Definition settled (d : Document) : Prop := doc_status d <> processing.

Module Scenarios.

Import Fixtures.

(** As [happy], but the model answers without any text. *)
Definition silentModel : Script :=
  let s := happy [[lit "A"]] in
  mkScript (clock s) (random36 s) (isoDate s) (decode s) (createClient s)
    (readFile s) (openPdf s) (getPage s) (getTextContent s) (rawText s)
    (fun _ _ => Fulfilled {| response_text := None |}) (insertRows s)
    (selectRows s).

(** As [happy], but creating the client throws. *)
Definition badUrl : Script :=
  let s := happy [[lit "A"]] in
  mkScript (clock s) (random36 s) (isoDate s) (decode s)
    (fun _ _ => Rejected (new_Error (lit "Invalid URL")))
    (readFile s) (openPdf s) (getPage s) (getTextContent s) (rawText s)
    (generate s) (insertRows s) (selectRows s).

(** A component in which an earlier upload left a banner. *)
Definition withBanner : World := setErrorStatus (Some (lit "File is empty.")) configured.

End Scenarios.

(* ===================================================================== *)
(** ** Facts about strings *)
(* ===================================================================== *)

Section StringFacts.

Lemma trimStart_nil_iff s : trimStart s = [] <-> blank s.
Proof.
  unfold blank. induction s as [|c s IH]; simpl.
  - split; [intros _ c [] | reflexivity].
  - destruct (is_white_space c) eqn:Hc.
    + rewrite IH. split.
      * intros H x [<-|Hx]; auto.
      * intros H x Hx. apply H. now right.
    + split; [discriminate|].
      intros H. specialize (H c (or_introl eq_refl)). congruence.
Qed.

Lemma trimStart_blank s : blank s -> trimStart s = [].
Proof. apply trimStart_nil_iff. Qed.

Lemma rev_nil_iff (A : Type) (l : list A) : rev l = [] <-> l = [].
Proof.
  split; intros H; [|now subst].
  rewrite <- (rev_involutive l), H. reflexivity.
Qed.

(** [s.trim()] is the empty string exactly when [s] is all white space. *)
Lemma trim_nil_iff s : trim s = [] <-> blank s.
Proof.
  unfold trim, trimEnd.
  rewrite (rev_nil_iff (trimStart (rev (trimStart s)))). split.
  - intros H. apply trimStart_nil_iff.
    destruct (trimStart s) as [|c r] eqn:E; [reflexivity|].
    exfalso.
    assert (Hc : is_white_space c = false).
    { clear H. induction s as [|x s IH]; simpl in E; [discriminate|].
      destruct (is_white_space x) eqn:Hx; [auto|]. injection E as -> _. exact Hx. }
    apply trimStart_nil_iff in H.
    specialize (H c). rewrite H in Hc; [discriminate|].
    apply in_rev. rewrite rev_involutive. now left.
  - intros H. rewrite (trimStart_blank H). reflexivity.
Qed.

Lemma truthy_trim_false_iff s : truthy (trim s) = false <-> blank s.
Proof.
  rewrite <- trim_nil_iff. destruct (trim s); simpl; split; congruence.
Qed.

Lemma eqb_eq a b : Js.eqb a b = true <-> a = b.
Proof.
  revert b. induction a as [|x a IH]; intros [|y b]; simpl;
    try (split; congruence).
  rewrite andb_true_iff, N.eqb_eq, IH. split.
  - intros [-> ->]. reflexivity.
  - intros H. injection H as -> ->. auto.
Qed.

Lemma eqb_refl a : Js.eqb a a = true.
Proof. now apply eqb_eq. Qed.

Lemma eqb_neq a b : Js.eqb a b = false <-> a <> b.
Proof.
  rewrite <- eqb_eq. destruct (Js.eqb a b); split; congruence.
Qed.

Lemma lit_inj s t : lit s = lit t -> s = t.
Proof.
  unfold lit. intros H.
  rewrite <- (string_of_list_ascii_of_string s), <- (string_of_list_ascii_of_string t).
  f_equal. revert H. generalize (list_ascii_of_string s) (list_ascii_of_string t).
  intros l. induction l as [|a l IH]; intros [|b m]; simpl; try congruence.
  intros H. injection H as Hab Hlm.
  f_equal; [|auto].
  rewrite <- (ascii_N_embedding a), <- (ascii_N_embedding b). now f_equal.
Qed.

Lemma to_int_nonnil z :
  Z.to_int z <> Decimal.Pos Decimal.Nil /\ Z.to_int z <> Decimal.Neg Decimal.Nil.
Proof.
  destruct z; simpl; split; try discriminate; intros [= H];
    exact (DecimalPos.Unsigned.to_uint_nonnil _ H).
Qed.

(** Distinct integers print differently. *)
Lemma toString_inj m n : toString m = toString n -> m = n.
Proof.
  unfold toString. intros H. apply lit_inj in H.
  apply DecimalZ.to_int_inj.
  assert (Hs : NilZero.int_of_string (NilZero.string_of_int (Z.to_int m))
               = NilZero.int_of_string (NilZero.string_of_int (Z.to_int n)))
    by now rewrite H.
  rewrite !NilZero.isi in Hs by apply to_int_nonnil.
  congruence.
Qed.

End StringFacts.

(* ===================================================================== *)
(** ** Facts about the interpretation *)
(* ===================================================================== *)

Section RunFacts.

Variable env : Env.

(** Sequencing, [try]/[catch] and [try]/[finally], run. *)
Lemma run_bind A B (p : Async A) (f : A -> Async B) w tr :
  run env (bind p f) w tr =
  match run env p w tr with
  | (Returned a, w', tr') => run env (f a) w' tr'
  | (Threw e, w', tr') => (Threw e, w', tr')
  end.
Proof.
  revert w tr.
  induction p as [a|e|k IH|g k IH|R c k IH]; intros w tr; simpl; auto.
Qed.

Lemma run_try_catch A (p : Async A) (h : Error -> Async A) w tr :
  run env (try_catch p h) w tr =
  match run env p w tr with
  | (Returned a, w', tr') => (Returned a, w', tr')
  | (Threw e, w', tr') => run env (h e) w' tr'
  end.
Proof.
  revert w tr.
  induction p as [a|e|k IH|g k IH|R c k IH]; intros w tr; simpl; auto.
Qed.

Lemma run_finally A (p : Async A) (fin : Async unit) w tr :
  run env (finally p fin) w tr =
  match run env p w tr with
  | (o, w', tr') =>
      match run env fin w' tr' with
      | (Returned _, w'', tr'') => (o, w'', tr'')
      | (Threw e, w'', tr'') => (Threw e, w'', tr'')
      end
  end.
Proof.
  revert w tr.
  induction p as [a|e|k IH|g k IH|R c k IH]; intros w tr; simpl; auto.
  - rewrite run_bind. destruct (run env fin w tr) as [[[u|e] w'] tr']; reflexivity.
  - rewrite run_bind. destruct (run env fin w tr) as [[[u|e'] w'] tr']; reflexivity.
Qed.

Lemma run_update (f : World -> World) w tr :
  run env (update f) w tr = (Returned tt, f w, tr ++ [EvSet (f w)]).
Proof. reflexivity. Qed.

(** The trace only grows. *)
Lemma run_extends A (p : Async A) w tr :
  exists evs, snd (run env p w tr) = tr ++ evs.
Proof.
  revert w tr.
  induction p as [a|e|k IH|g k IH|R c k IH]; intros w tr; simpl.
  - exists []. now rewrite app_nil_r.
  - exists []. now rewrite app_nil_r.
  - apply IH.
  - destruct (IH (g w) (tr ++ [EvSet (g w)])) as [evs ->].
    eexists. now rewrite <- app_assoc.
  - destruct (IH (env tr c) w (tr ++ [EvCall c (env tr c)])) as [evs ->].
    eexists. now rewrite <- app_assoc.
Qed.

(** A run is its synchronous part followed by the run of what is left. *)
Lemma run_until_await A (p : Async A) w tr :
  run env p w tr =
  run env (snd (until_await env p w tr))
      (fst (fst (until_await env p w tr))) (snd (fst (until_await env p w tr))).
Proof.
  revert w tr.
  induction p as [a|e|k IH|g k IH|R c k IH]; intros w tr; simpl; auto.
  destruct (is_awaited c); simpl; auto.
Qed.

(** *** Programs that leave the state alone *)

Lemma ReadOnly_bind A B (p : Async A) (f : A -> Async B) :
  ReadOnly p -> (forall a, ReadOnly (f a)) -> ReadOnly (bind p f).
Proof.
  intros Hp Hf. induction Hp; simpl; try constructor; auto.
Qed.

Lemma ReadOnly_call R (c : Call R) : ReadOnly (call c).
Proof. repeat constructor. Qed.

Lemma ReadOnly_await R (c : Call (Settled R)) : ReadOnly (await c).
Proof. constructor. intros [a|e]; constructor. Qed.

Lemma snapshots_app tr1 tr2 :
  snapshots (tr1 ++ tr2) = snapshots tr1 ++ snapshots tr2.
Proof.
  induction tr1 as [|[R c r|w] tr1 IH]; simpl; auto. now rewrite IH.
Qed.

Lemma page_visits_app tr1 tr2 :
  page_visits (tr1 ++ tr2) = page_visits tr1 ++ page_visits tr2.
Proof.
  induction tr1 as [|[R c r|w] tr1 IH]; simpl; auto.
  destruct c; simpl; auto. now rewrite IH.
Qed.

Lemma run_ReadOnly A (p : Async A) :
  ReadOnly p ->
  forall w tr, exists o calls,
    run env p w tr = (o, w, tr ++ calls) /\ snapshots calls = [].
Proof.
  induction 1 as [a|e|k Hk IH|R c k Hk IH]; intros w tr; simpl.
  - exists (Returned a), []. now rewrite app_nil_r.
  - exists (Threw e), []. now rewrite app_nil_r.
  - apply IH.
  - destruct (IH (env tr c) w (tr ++ [EvCall c (env tr c)]))
      as (o & calls & -> & Hs).
    exists o, (EvCall c (env tr c) :: calls).
    now rewrite <- app_assoc.
Qed.

End RunFacts.

Create HintDb readonly.
#[export] Hint Resolve ReadOnly_bind ReadOnly_call ReadOnly_await : readonly.
#[export] Hint Constructors ReadOnly : readonly.

Section ServiceFacts.

Lemma ReadOnly_processFileContent name c : ReadOnly (processFileContent name c).
Proof. unfold processFileContent. auto with readonly. Qed.

Lemma ReadOnly_generateAnswer q c : ReadOnly (generateAnswer q c).
Proof. unfold generateAnswer. auto with readonly. Qed.

Lemma ReadOnly_storeDocument id name c : ReadOnly (storeDocument id name c).
Proof.
  unfold storeDocument. constructor. intros w.
  destruct (supabase_client w); [|constructor].
  apply ReadOnly_bind; [apply ReadOnly_call|intros u].
  apply ReadOnly_bind; [apply ReadOnly_await|intros res].
  destruct (insert_error res); constructor.
Qed.

Lemma ReadOnly_searchKnowledgeBase q : ReadOnly (searchKnowledgeBase q).
Proof.
  unfold searchKnowledgeBase. constructor. intros w.
  destruct (supabase_client w); [|constructor].
  apply ReadOnly_bind; [apply ReadOnly_await|intros res].
  destruct (select_error res); constructor.
Qed.

Lemma ReadOnly_pagesLoop pdf n : forall i acc, ReadOnly (pagesLoop pdf n i acc).
Proof.
  induction n as [|n IH]; intros i acc; cbn [pagesLoop]; [constructor|].
  apply ReadOnly_bind; [apply ReadOnly_await|intros page].
  apply ReadOnly_bind; [apply ReadOnly_await|intros tc]. apply IH.
Qed.

Lemma ReadOnly_extractText file ab : ReadOnly (extractText file ab).
Proof.
  unfold extractText, extractTextFromPdf, extractTextFromDocx.
  destruct (is_pdf file); [|destruct (is_docx file)];
    auto using ReadOnly_pagesLoop with readonly.
Qed.

End ServiceFacts.

#[export] Hint Resolve ReadOnly_processFileContent ReadOnly_generateAnswer
  ReadOnly_storeDocument ReadOnly_searchKnowledgeBase ReadOnly_extractText
  ReadOnly_pagesLoop : readonly.

(* ===================================================================== *)
(** ** PDF extraction *)
(* ===================================================================== *)

Section PdfExtraction.

Variable env : Env.

(** The loop over served pages: all of them, in order. *)
Lemma pagesLoop_serves pdf (f : nat -> TextContent) w :
  forall n i acc tr,
    (forall j, i <= j < i + n ->
       exists page,
         (forall tr, env tr (PdfGetPage pdf j) = Fulfilled page) /\
         (forall tr, env tr (PageGetTextContent page) = Fulfilled (f j))) ->
    exists calls,
      run env (pagesLoop pdf n i acc) w tr =
        (Returned (acc ++ flat_map (fun j => pageText (f j) ++ nl) (seq i n)),
         w, tr ++ calls)
      /\ page_visits calls = seq i n.
Proof.
  induction n as [|n IH]; intros i acc tr Hserve.
  - exists []. simpl. now rewrite !app_nil_r.
  - destruct (Hserve i ltac:(lia)) as (page & Hpage & Htc).
    simpl. rewrite Hpage. simpl. rewrite Htc. simpl.
    destruct (IH (S i) (acc ++ pageText (f i) ++ nl)
                ((tr ++ [EvCall (PdfGetPage pdf i) (Fulfilled page)])
                   ++ [EvCall (PageGetTextContent page) (Fulfilled (f i))]))
      as (calls & Hrun & Hvisits).
    { intros j Hj. apply Hserve. lia. }
    rewrite Hrun.
    exists (EvCall (PdfGetPage pdf i) (Fulfilled page)
              :: EvCall (PageGetTextContent page) (Fulfilled (f i)) :: calls).
    split.
    + rewrite <- !app_assoc. reflexivity.
    + simpl. now rewrite Hvisits.
Qed.

(** The loop against any library: a run of consecutive page numbers. *)
Lemma pagesLoop_ascending pdf w :
  forall n i acc tr,
    exists calls k,
      k <= n /\
      snd (run env (pagesLoop pdf n i acc) w tr) = tr ++ calls /\
      page_visits calls = seq i k.
Proof.
  induction n as [|n IH]; intros i acc tr.
  - exists [], 0. simpl. now rewrite app_nil_r.
  - simpl. destruct (env tr (PdfGetPage pdf i)) as [page|e] eqn:Hpage; simpl.
    + set (tr1 := tr ++ [EvCall (PdfGetPage pdf i) (Fulfilled page)]).
      destruct (env tr1 (PageGetTextContent page)) as [tc|e] eqn:Htc; simpl.
      * destruct (IH (S i) (acc ++ pageText tc ++ nl)
                    (tr1 ++ [EvCall (PageGetTextContent page) (Fulfilled tc)]))
          as (calls & k & Hk & Hrun & Hvisits).
        rewrite Hrun.
        exists (EvCall (PdfGetPage pdf i) (Fulfilled page)
                  :: EvCall (PageGetTextContent page) (Fulfilled tc) :: calls), (S k).
        repeat split; [lia| |simpl; now rewrite Hvisits].
        unfold tr1. rewrite <- !app_assoc. reflexivity.
      * exists [EvCall (PdfGetPage pdf i) (Fulfilled page);
                EvCall (PageGetTextContent page) (Rejected e)], 1.
        repeat split; [lia|].
        unfold tr1. rewrite <- !app_assoc. reflexivity.
    + exists [EvCall (PdfGetPage pdf i) (Rejected e)], 1.
      repeat split. lia.
Qed.

Lemma map_nth_seq_from A (d : A) (l : list A) :
  forall s, map (fun j => nth (j - s) l d) (seq s (List.length l)) = l.
Proof.
  induction l as [|a l IH]; intros s; simpl; [reflexivity|].
  rewrite Nat.sub_diag. f_equal.
  rewrite <- (IH (S s)) at 2.
  apply map_ext_in. intros j Hj. apply in_seq in Hj.
  replace (j - s) with (S (j - S s)) by lia. reflexivity.
Qed.

Lemma flat_map_map A B C (f : A -> B) (g : B -> list C) (l : list A) :
  flat_map g (map f l) = flat_map (fun x => g (f x)) l.
Proof. induction l; simpl; congruence. Qed.

Lemma extractTextFromPdf_serves data pdf pages w tr :
  serves env data pdf pages ->
  exists calls,
    run env (extractTextFromPdf data) w tr =
      (Returned (flat_map (fun tc => join (lit " ") (map str (items tc)) ++ nl) pages),
       w, tr ++ calls)
    /\ page_visits calls = seq 1 (List.length pages).
Proof.
  intros (Hn & Hdoc & Hpages).
  unfold extractTextFromPdf. simpl. rewrite Hdoc. simpl.
  destruct (@pagesLoop_serves pdf (fun j => nth (j - 1) pages (mkTextContent [])) w
              (numPages pdf) 1 []
              (tr ++ [EvCall (PdfGetDocument data) (Fulfilled pdf)]))
    as (calls & Hrun & Hvisits).
  { intros j Hj. apply Hpages. lia. }
  rewrite Hrun. exists (EvCall (PdfGetDocument data) (Fulfilled pdf) :: calls).
  split.
  - rewrite <- app_assoc. simpl. repeat f_equal.
    rewrite Hn.
    rewrite <- (flat_map_map (fun j => nth (j - 1) pages (mkTextContent []))
                             (fun tc => pageText tc ++ nl)).
    now rewrite map_nth_seq_from.
  - simpl. now rewrite Hvisits, Hn.
Qed.

Lemma extractTextFromPdf_ascending data w tr :
  exists calls k,
    snd (run env (extractTextFromPdf data) w tr) = tr ++ calls /\
    page_visits calls = seq 1 k.
Proof.
  unfold extractTextFromPdf. simpl.
  destruct (env tr (PdfGetDocument data)) as [pdf|e]; simpl.
  - destruct (@pagesLoop_ascending pdf w (numPages pdf) 1 []
                (tr ++ [EvCall (PdfGetDocument data) (Fulfilled pdf)]))
      as (calls & k & _ & Hrun & Hvisits).
    rewrite Hrun. exists (EvCall (PdfGetDocument data) (Fulfilled pdf) :: calls), k.
    split; [now rewrite <- app_assoc | exact Hvisits].
  - exists [EvCall (PdfGetDocument data) (Rejected e)], 0. split; reflexivity.
Qed.

End PdfExtraction.

(* ===================================================================== *)
(** ** The upload, step by step *)
(* ===================================================================== *)

Section Upload.

Variable env : Env.

(** The history when the [try] block is entered, flattened. *)
Lemma insertedTrace_eq w tr file :
  insertedTrace env w tr file
  = tr ++ beforeInsert env w tr ++ [EvSet (inserted env w tr file)].
Proof.
  unfold insertedTrace, drawnTrace, clearedTrace, beforeInsert.
  rewrite <- !app_assoc. reflexivity.
Qed.

(** Without a file, or unconfigured, the upload handler does nothing at
    all: no state update and no call. *)
Lemma onFileUpload_skip w tr e :
  first_file e = None \/ isConfigured (app w) = false ->
  run env (fire onFileUpload e) w tr = (Returned tt, w, tr).
Proof.
  intros [H|H]; unfold fire, onFileUpload; simpl; rewrite H; simpl; auto.
  destruct (first_file e); reflexivity.
Qed.

(** Otherwise it reaches its [try] statement in the state [inserted]. *)
Lemma onFileUpload_start w tr e file :
  first_file e = Some file ->
  isConfigured (app w) = true ->
  run env (fire onFileUpload e) w tr =
  run env (finally (try_catch (uploadTry file (newDocOf env w tr file))
                              (uploadCatch (newDocOf env w tr file)))
                   (update (setIsUploading false)))
      (inserted env w tr file) (insertedTrace env w tr file).
Proof.
  intros Hfile Hconf. unfold fire, onFileUpload. simpl.
  rewrite Hfile, Hconf. reflexivity.
Qed.

(** The [catch] block: the banner, then the registry patch. *)
Lemma uploadCatch_run newDoc err w tr :
  run env (uploadCatch newDoc err) w tr =
  (Returned tt,
   setDocuments (map (markError (doc_id newDoc))) (setErrorStatus (Some (banner err)) w),
   tr ++ [ EvSet (setErrorStatus (Some (banner err)) w);
           EvSet (setDocuments (map (markError (doc_id newDoc)))
                               (setErrorStatus (Some (banner err)) w)) ]).
Proof.
  unfold uploadCatch, banner. cbv zeta.
  destruct (includes _ (lit "PGRST205") || includes _ (lit "documents"));
    simpl; rewrite <- app_assoc; reflexivity.
Qed.

(** The [try] block around its emptiness check. *)
Lemma uploadTry_split file newDoc w tr :
  run env (uploadTry file newDoc) w tr =
  match run env (readAndExtract file) w tr with
  | (Returned extractedText, w', tr') =>
      if negb (truthy (trim extractedText)) then (Threw emptyFile, w', tr')
      else run env (normalizeAndStore file newDoc extractedText) w' tr'
  | (Threw e, w', tr') => (Threw e, w', tr')
  end.
Proof.
  unfold uploadTry, readAndExtract. rewrite !run_bind.
  destruct (run env (await (FileArrayBuffer file)) w tr) as [[[ab|e] w1] tr1];
    [|reflexivity].
  rewrite run_bind.
  destruct (run env (extractText file ab) w1 tr1) as [[[text|e] w2] tr2];
    [|reflexivity].
  destruct (negb (truthy (trim text))); reflexivity.
Qed.

Lemma ReadOnly_readAndExtract file : ReadOnly (readAndExtract file).
Proof. unfold readAndExtract. auto with readonly. Qed.

(** The second half calls the normalizer first, whatever happens next. *)
Lemma normalizeAndStore_calls file newDoc text w tr :
  exists contents config r more,
    snd (run env (normalizeAndStore file newDoc text) w tr) =
    tr ++ EvCall (GenerateContent (lit "gemini-3-flash-preview") contents config) r
       :: more.
Proof.
  unfold normalizeAndStore, processFileContent. simpl.
  match goal with
  | |- context [run env ?p ?w0 (tr ++ [EvCall ?c ?r])] =>
      destruct (run_extends env p w0 (tr ++ [EvCall c r])) as [evs Hevs];
      match type of c with
      | Call _ => match c with
                  | GenerateContent _ ?contents ?config =>
                      exists contents, config, r, evs
                  end
      end
  end.
  rewrite Hevs, <- app_assoc. reflexivity.
Qed.

(** The second half either stores and patches the registry, or throws
    leaving the state as it was. *)
Lemma normalizeAndStore_run file newDoc text w tr :
  exists calls, snapshots calls = [] /\
    ((exists processedContent,
        run env (normalizeAndStore file newDoc text) w tr =
        (Returned tt,
         setDocuments (map (markReady (doc_id newDoc) processedContent)) w,
         tr ++ calls ++
            [EvSet (setDocuments (map (markReady (doc_id newDoc) processedContent)) w)]))
     \/ (exists err,
           run env (normalizeAndStore file newDoc text) w tr
           = (Threw err, w, tr ++ calls))).
Proof.
  unfold normalizeAndStore. rewrite run_bind.
  destruct (run_ReadOnly env (ReadOnly_processFileContent (file_name file) text) w tr)
    as (o1 & c1 & -> & Hs1).
  destruct o1 as [pc|err]; [|exists c1; split; [exact Hs1|right; eauto]].
  rewrite run_bind.
  destruct (run_ReadOnly env
              (ReadOnly_storeDocument (doc_id newDoc) (file_name file) pc)
              w (tr ++ c1))
    as (o2 & c2 & -> & Hs2).
  exists (c1 ++ c2). split; [now rewrite snapshots_app, Hs1, Hs2|].
  destruct o2 as [[]|err].
  - left. exists pc. rewrite run_update, <- !app_assoc. reflexivity.
  - right. exists err. now rewrite <- app_assoc.
Qed.

(** The [try] block as a whole. *)
Lemma uploadTry_run file newDoc w tr :
  exists calls, snapshots calls = [] /\
    ((exists processedContent,
        run env (uploadTry file newDoc) w tr =
        (Returned tt,
         setDocuments (map (markReady (doc_id newDoc) processedContent)) w,
         tr ++ calls ++
            [EvSet (setDocuments (map (markReady (doc_id newDoc) processedContent)) w)]))
     \/ (exists err,
           run env (uploadTry file newDoc) w tr = (Threw err, w, tr ++ calls))).
Proof.
  rewrite uploadTry_split.
  destruct (run_ReadOnly env (ReadOnly_readAndExtract file) w tr)
    as (o1 & c1 & -> & Hs1).
  destruct o1 as [text|err]; [|exists c1; split; [exact Hs1|right; eauto]].
  destruct (negb (truthy (trim text))).
  - exists c1. split; [exact Hs1|right; eauto].
  - destruct (normalizeAndStore_run file newDoc text w (tr ++ c1))
      as (c2 & Hs2 & [[pc Hrun]|[err Hrun]]); rewrite Hrun;
      exists (c1 ++ c2); (split; [now rewrite snapshots_app, Hs1, Hs2|]).
    + left. exists pc. now rewrite <- !app_assoc.
    + right. exists err. now rewrite <- app_assoc.
Qed.

End Upload.

Section UploadSettles.

Variable env : Env.

(** A started upload runs to the end of the handler along one of two
    paths. *)
Lemma onFileUpload_settles w tr e file :
  first_file e = Some file ->
  isConfigured (app w) = true ->
  let d := newDocOf env w tr file in
  let w3 := inserted env w tr file in
  let tr3 := insertedTrace env w tr file in
  exists calls, snapshots calls = [] /\
    ((exists pc,
        tried env w tr file =
          (Returned tt, settledReady w3 (doc_id d) pc,
           tr3 ++ calls ++ [EvSet (settledReady w3 (doc_id d) pc)]) /\
        run env (fire onFileUpload e) w tr =
          (Returned tt, setIsUploading false (settledReady w3 (doc_id d) pc),
           tr3 ++ calls ++
             [ EvSet (settledReady w3 (doc_id d) pc);
               EvSet (setIsUploading false (settledReady w3 (doc_id d) pc)) ]))
     \/
     (exists err,
        tried env w tr file = (Threw err, w3, tr3 ++ calls) /\
        run env (fire onFileUpload e) w tr =
          (Returned tt, setIsUploading false (settledError w3 (doc_id d) err),
           tr3 ++ calls ++
             [ EvSet (bannered w3 err);
               EvSet (settledError w3 (doc_id d) err);
               EvSet (setIsUploading false (settledError w3 (doc_id d) err)) ]))).
Proof.
  intros Hfile Hconf d w3 tr3.
  rewrite (onFileUpload_start env w tr e Hfile Hconf).
  fold d w3 tr3. unfold tried. fold d w3 tr3.
  rewrite run_finally, run_try_catch.
  destruct (uploadTry_run env file d w3 tr3)
    as (calls & Hs & [[pc Hrun]|[err Hrun]]); rewrite Hrun; exists calls;
    (split; [exact Hs|]).
  - left. exists pc. split; [reflexivity|].
    rewrite run_update. unfold settledReady. rewrite <- !app_assoc. reflexivity.
  - right. exists err. split; [reflexivity|].
    rewrite uploadCatch_run, run_update.
    unfold settledError, bannered. rewrite <- !app_assoc. reflexivity.
Qed.

(** *** Reading a document's status out of the registry *)

Lemma statusOf_inserted w tr file :
  statusOf (doc_id (newDocOf env w tr file)) (inserted env w tr file)
  = Some processing.
Proof. unfold statusOf. simpl. rewrite eqb_refl. reflexivity. Qed.

Lemma statusOf_settledReady w tr file pc :
  statusOf (doc_id (newDocOf env w tr file))
           (settledReady (inserted env w tr file) (doc_id (newDocOf env w tr file)) pc)
  = Some ready.
Proof.
  unfold statusOf. simpl. unfold markReady. simpl.
  rewrite eqb_refl. simpl. rewrite eqb_refl. reflexivity.
Qed.

Lemma statusOf_settledError w tr file err :
  statusOf (doc_id (newDocOf env w tr file))
           (settledError (inserted env w tr file) (doc_id (newDocOf env w tr file)) err)
  = Some error.
Proof.
  unfold statusOf. simpl. unfold markError. simpl.
  rewrite eqb_refl. simpl. rewrite eqb_refl. reflexivity.
Qed.

Lemma markReady_other id pc d : doc_id d <> id -> markReady id pc d = d.
Proof. intros H. unfold markReady. apply eqb_neq in H. now rewrite H. Qed.

Lemma markError_other id d : doc_id d <> id -> markError id d = d.
Proof. intros H. unfold markError. apply eqb_neq in H. now rewrite H. Qed.

Lemma markError_fields id d :
  doc_id (markError id d) = doc_id d /\
  doc_name (markError id d) = doc_name d /\
  doc_content (markError id d) = doc_content d /\
  doc_timestamp (markError id d) = doc_timestamp d /\
  (doc_id d = id -> doc_status (markError id d) = error).
Proof.
  unfold markError. destruct (Js.eqb (doc_id d) id) eqn:E; simpl;
    repeat split; auto.
  intros H. apply eqb_eq in H. congruence.
Qed.

(** Patches of two uploads with different ids do not disturb each
    other, in whichever order they land. *)
Lemma markReady_markError_commute id1 pc id2 d :
  id1 <> id2 ->
  markReady id1 pc (markError id2 d) = markError id2 (markReady id1 pc d).
Proof.
  intros Hne. unfold markReady, markError.
  destruct (Js.eqb (doc_id d) id1) eqn:E1, (Js.eqb (doc_id d) id2) eqn:E2;
    simpl; rewrite ?E1, ?E2; try reflexivity.
  apply eqb_eq in E1, E2. congruence.
Qed.

End UploadSettles.

(* ===================================================================== *)
(** ** Properties of the upload *)
(* ===================================================================== *)

Section UploadProperties.

Import Fixtures.

(** C4, as the code has it.  An accepted upload (a file is present and
    the component is
    configured) puts a new document at the head of the registry before
    any awaited call is made: everything that precedes the insert in the
    trace is synchronous and leaves the registry alone, and the insert is
    the last thing done when the handler first gives control back, at the
    file read.  The new document has status [processing], empty content,
    the file's name, and the id just drawn from the random source: the
    characters of its base-36 text from the third on, nine at most.  The
    id is not compared with the ids the registry holds. *)
Theorem upload_inserts_before_awaiting env w tr e file :
  first_file e = Some file ->
  isConfigured (app w) = true ->
  exists d pre w_ins rest r,
    snd (run env (fire onFileUpload e) w tr) = tr ++ pre ++ EvSet w_ins :: rest /\
    existsb awaited_event pre = false /\
    (forall w', In w' (snapshots pre) -> documents (app w') = documents (app w)) /\
    In (EvCall MathRandomToString36 r) pre /\
    doc_id d = substr 2 9 r /\
    doc_id d = firstn 9 (skipn 2 r) /\
    List.length (doc_id d) <= 9 /\
    (forall suffix, r = lit "0." ++ suffix -> doc_id d = firstn 9 suffix) /\
    doc_name d = file_name file /\
    doc_content d = [] /\
    doc_status d = processing /\
    documents (app w_ins) = d :: documents (app w) /\
    fst (until_await env (fire onFileUpload e) w tr) = (w_ins, tr ++ pre ++ [EvSet w_ins]) /\
    exists k, snd (until_await env (fire onFileUpload e) w tr)
              = Vis (FileArrayBuffer file) k.
Proof.
  intros Hfile Hconf.
  destruct (run_extends env
              (finally (try_catch (uploadTry file (newDocOf env w tr file))
                                  (uploadCatch (newDocOf env w tr file)))
                       (update (setIsUploading false)))
              (inserted env w tr file) (insertedTrace env w tr file))
    as [rest Hrest].
  exists (newDocOf env w tr file), (beforeInsert env w tr),
         (inserted env w tr file), rest, (drawn env w tr).
  rewrite (onFileUpload_start env w tr e Hfile Hconf), Hrest, insertedTrace_eq.
  repeat split.
  - rewrite <- !app_assoc. reflexivity.
  - simpl. intros w' [<-|[<-|[]]]; reflexivity.
  - simpl. auto.
  - cbn [doc_id newDocOf]. unfold substr. apply firstn_le_length.
  - intros suffix Hr. cbn [doc_id newDocOf]. rewrite Hr. reflexivity.
  - rewrite <- insertedTrace_eq.
    unfold fire, onFileUpload. simpl. rewrite Hfile, Hconf. reflexivity.
  - unfold fire, onFileUpload. simpl. rewrite Hfile, Hconf. simpl.
    eexists. reflexivity.
Qed.

Lemma upload_inserts_before_awaiting_witness :
  first_file (pick pdfFile) = Some pdfFile /\
  isConfigured (app configured) = true /\
  exists d pre w_ins rest r,
    snd (run (scripted (happy abc)) (fire onFileUpload (pick pdfFile)) configured [])
      = [] ++ pre ++ EvSet w_ins :: rest /\
    existsb awaited_event pre = false /\
    (forall w', In w' (snapshots pre) ->
                documents (app w') = documents (app configured)) /\
    In (EvCall MathRandomToString36 r) pre /\
    doc_id d = substr 2 9 r /\
    doc_id d = firstn 9 (skipn 2 r) /\
    List.length (doc_id d) <= 9 /\
    (forall suffix, r = lit "0." ++ suffix -> doc_id d = firstn 9 suffix) /\
    doc_name d = file_name pdfFile /\
    doc_content d = [] /\
    doc_status d = processing /\
    documents (app w_ins) = d :: documents (app configured) /\
    fst (until_await (scripted (happy abc)) (fire onFileUpload (pick pdfFile))
                     configured [])
      = (w_ins, [] ++ pre ++ [EvSet w_ins]) /\
    exists k, snd (until_await (scripted (happy abc))
                               (fire onFileUpload (pick pdfFile)) configured [])
              = Vis (FileArrayBuffer pdfFile) k.
Proof.
  split; [reflexivity|]. split; [reflexivity|].
  exact (@upload_inserts_before_awaiting (scripted (happy abc)) configured []
           (pick pdfFile) pdfFile eq_refl eq_refl).
Defined.

(** C4 fails where it says the id is fresh.  With a random source that
    gives the same number twice, the second upload puts at the head of
    the registry a document whose id the registry already holds: the
    handler draws the id and compares it with nothing.  The patch for
    the second upload then rewrites both entries, so the first, which
    had failed, ends [ready] with the second's content. *)
Theorem upload_id_not_fresh :
  map (fun d => (doc_id d, doc_name d, doc_status d))
      (documents (app (snd (fst
         (run (scripted (happy abc)) (fire onFileUpload (pick txtFile))
              configured [])))))
  = [ (lit "k3j9x2m4p", lit "notes.txt", error) ]
  /\
  map (fun d => (doc_id d, doc_name d, doc_status d))
      (documents (app (fst (fst
         (until_await (scripted (happy abc)) (fire onFileUpload (pick pdfFile))
            (snd (fst (run (scripted (happy abc)) (fire onFileUpload (pick txtFile))
                           configured [])))
            (snd (run (scripted (happy abc)) (fire onFileUpload (pick txtFile))
                      configured [])))))))
  = [ (lit "k3j9x2m4p", lit "notes.pdf", processing);
      (lit "k3j9x2m4p", lit "notes.txt", error) ]
  /\
  map (fun d => (doc_id d, doc_name d, doc_status d, doc_content d))
      (documents (app (snd (fst
         (run (scripted (happy abc)) (fire onFileUpload (pick pdfFile))
            (snd (fst (run (scripted (happy abc)) (fire onFileUpload (pick txtFile))
                           configured [])))
            (snd (run (scripted (happy abc)) (fire onFileUpload (pick txtFile))
                      configured [])))))))
  = [ (lit "k3j9x2m4p", lit "notes.pdf", ready, lit "clean");
      (lit "k3j9x2m4p", lit "notes.txt", ready, lit "clean") ].
Proof. repeat split; vm_compute; reflexivity. Qed.

(** C2.  A started upload runs to completion, and the document it
    inserted goes through exactly two statuses: [processing], from the
    insert on, and then one of [ready] (the [try] block returned) and
    [error] (it threw), which is the status it has when the handler is
    done. *)
Theorem upload_status_settles_once env w tr e file :
  first_file e = Some file ->
  isConfigured (app w) = true ->
  exists d pre w_ins rest w_end s,
    run env (fire onFileUpload e) w tr
      = (Returned tt, w_end, tr ++ pre ++ EvSet w_ins :: rest) /\
    documents (app w_ins) = d :: documents (app w) /\
    doc_status d = processing /\
    transitions (map (statusOf (doc_id d)) (w_ins :: snapshots rest))
      = [Some processing; Some s] /\
    statusOf (doc_id d) w_end = Some s /\
    match fst (fst (tried env w tr file)) with
    | Returned _ => s = ready
    | Threw _ => s = error
    end.
Proof.
  intros Hfile Hconf.
  destruct (onFileUpload_settles env w tr e Hfile Hconf)
    as (calls & Hs & [(pc & Htry & Hrun)|(err & Htry & Hrun)]);
    rewrite Hrun, Htry, insertedTrace_eq; cbn [fst].
  - exists (newDocOf env w tr file), (beforeInsert env w tr),
           (inserted env w tr file),
           (calls ++ [EvSet (settledReady (inserted env w tr file)
                               (doc_id (newDocOf env w tr file)) pc);
                      EvSet (setIsUploading false
                               (settledReady (inserted env w tr file)
                                  (doc_id (newDocOf env w tr file)) pc))]),
           (setIsUploading false
              (settledReady (inserted env w tr file)
                 (doc_id (newDocOf env w tr file)) pc)),
           ready.
    repeat split.
    + rewrite <- !app_assoc. reflexivity.
    + rewrite snapshots_app, Hs. cbn [snapshots Datatypes.app map].
      change (statusOf (doc_id (newDocOf env w tr file))
                (setIsUploading false
                   (settledReady (inserted env w tr file)
                      (doc_id (newDocOf env w tr file)) pc)))
        with (statusOf (doc_id (newDocOf env w tr file))
                (settledReady (inserted env w tr file)
                   (doc_id (newDocOf env w tr file)) pc)).
      rewrite statusOf_inserted, statusOf_settledReady. reflexivity.
    + change (statusOf (doc_id (newDocOf env w tr file))
                (setIsUploading false
                   (settledReady (inserted env w tr file)
                      (doc_id (newDocOf env w tr file)) pc)))
        with (statusOf (doc_id (newDocOf env w tr file))
                (settledReady (inserted env w tr file)
                   (doc_id (newDocOf env w tr file)) pc)).
      apply statusOf_settledReady.
  - exists (newDocOf env w tr file), (beforeInsert env w tr),
           (inserted env w tr file),
           (calls ++ [EvSet (bannered (inserted env w tr file) err);
                      EvSet (settledError (inserted env w tr file)
                               (doc_id (newDocOf env w tr file)) err);
                      EvSet (setIsUploading false
                               (settledError (inserted env w tr file)
                                  (doc_id (newDocOf env w tr file)) err))]),
           (setIsUploading false
              (settledError (inserted env w tr file)
                 (doc_id (newDocOf env w tr file)) err)),
           error.
    repeat split.
    + rewrite <- !app_assoc. reflexivity.
    + rewrite snapshots_app, Hs. cbn [snapshots Datatypes.app map].
      change (statusOf (doc_id (newDocOf env w tr file))
                (setIsUploading false
                   (settledError (inserted env w tr file)
                      (doc_id (newDocOf env w tr file)) err)))
        with (statusOf (doc_id (newDocOf env w tr file))
                (settledError (inserted env w tr file)
                   (doc_id (newDocOf env w tr file)) err)).
      change (statusOf (doc_id (newDocOf env w tr file))
                (bannered (inserted env w tr file) err))
        with (statusOf (doc_id (newDocOf env w tr file)) (inserted env w tr file)).
      rewrite statusOf_inserted, statusOf_settledError. reflexivity.
    + change (statusOf (doc_id (newDocOf env w tr file))
                (setIsUploading false
                   (settledError (inserted env w tr file)
                      (doc_id (newDocOf env w tr file)) err)))
        with (statusOf (doc_id (newDocOf env w tr file))
                (settledError (inserted env w tr file)
                   (doc_id (newDocOf env w tr file)) err)).
      apply statusOf_settledError.
Qed.

End UploadProperties.

Section UploadProperties2.

Import Fixtures.

Lemma upload_status_settles_once_witness :
  first_file (pick pdfFile) = Some pdfFile /\
  isConfigured (app configured) = true /\
  exists d pre w_ins rest w_end s,
    run (scripted (happy abc)) (fire onFileUpload (pick pdfFile)) configured []
      = (Returned tt, w_end, [] ++ pre ++ EvSet w_ins :: rest) /\
    documents (app w_ins) = d :: documents (app configured) /\
    doc_status d = processing /\
    transitions (map (statusOf (doc_id d)) (w_ins :: snapshots rest))
      = [Some processing; Some s] /\
    statusOf (doc_id d) w_end = Some s /\
    match fst (fst (tried (scripted (happy abc)) configured [] pdfFile)) with
    | Returned _ => s = ready
    | Threw _ => s = error
    end.
Proof.
  split; [reflexivity|]. split; [reflexivity|].
  exact (@upload_status_settles_once (scripted (happy abc)) configured []
           (pick pdfFile) pdfFile eq_refl eq_refl).
Defined.

(** C9.  When a started upload is done, the registry is the registry
    with the new document at its head, patched entry by entry: entries
    whose id differs from the upload's id are unchanged.  When the upload
    failed, the patch changes nothing but the status: id, name, content
    and timestamp of every entry stay, so the new document still has the
    empty content it was inserted with, and its status is [error]. *)
Theorem upload_patch_keyed_by_id env w tr e file :
  first_file e = Some file ->
  isConfigured (app w) = true ->
  exists d patch w_end,
    fst (run env (fire onFileUpload e) w tr) = (Returned tt, w_end) /\
    doc_name d = file_name file /\
    doc_content d = [] /\
    doc_status d = processing /\
    documents (app w_end) = map patch (d :: documents (app w)) /\
    (forall x, doc_id x <> doc_id d -> patch x = x) /\
    match fst (fst (tried env w tr file)) with
    | Returned _ =>
        exists processedContent, patch = markReady (doc_id d) processedContent
    | Threw _ =>
        patch = markError (doc_id d) /\
        (forall x, doc_id (patch x) = doc_id x /\
                   doc_name (patch x) = doc_name x /\
                   doc_content (patch x) = doc_content x /\
                   doc_timestamp (patch x) = doc_timestamp x) /\
        patch d = {| doc_id := doc_id d; doc_name := doc_name d;
                     doc_content := []; doc_status := error;
                     doc_timestamp := doc_timestamp d |}
    end.
Proof.
  intros Hfile Hconf.
  destruct (onFileUpload_settles env w tr e Hfile Hconf)
    as (calls & Hs & [(pc & Htry & Hrun)|(err & Htry & Hrun)]);
    rewrite Hrun, Htry; cbn [fst].
  - exists (newDocOf env w tr file),
           (markReady (doc_id (newDocOf env w tr file)) pc),
           (setIsUploading false
              (settledReady (inserted env w tr file)
                 (doc_id (newDocOf env w tr file)) pc)).
    repeat split; eauto using markReady_other.
  - exists (newDocOf env w tr file),
           (markError (doc_id (newDocOf env w tr file))),
           (setIsUploading false
              (settledError (inserted env w tr file)
                 (doc_id (newDocOf env w tr file)) err)).
    repeat split; eauto using markError_other; try apply markError_fields.
    unfold markError. rewrite eqb_refl. reflexivity.
Qed.

Lemma upload_patch_keyed_by_id_witness :
  first_file (pick txtFile) = Some txtFile /\
  isConfigured (app configured) = true /\
  exists d patch w_end,
    fst (run (scripted (happy abc)) (fire onFileUpload (pick txtFile)) configured [])
      = (Returned tt, w_end) /\
    doc_name d = file_name txtFile /\
    doc_content d = [] /\
    doc_status d = processing /\
    documents (app w_end) = map patch (d :: documents (app configured)) /\
    (forall x, doc_id x <> doc_id d -> patch x = x) /\
    match fst (fst (tried (scripted (happy abc)) configured [] txtFile)) with
    | Returned _ =>
        exists processedContent, patch = markReady (doc_id d) processedContent
    | Threw _ =>
        patch = markError (doc_id d) /\
        (forall x, doc_id (patch x) = doc_id x /\
                   doc_name (patch x) = doc_name x /\
                   doc_content (patch x) = doc_content x /\
                   doc_timestamp (patch x) = doc_timestamp x) /\
        patch d = {| doc_id := doc_id d; doc_name := doc_name d;
                     doc_content := []; doc_status := error;
                     doc_timestamp := doc_timestamp d |}
    end.
Proof.
  split; [reflexivity|]. split; [reflexivity|].
  exact (@upload_patch_keyed_by_id (scripted (happy abc)) configured []
           (pick txtFile) txtFile eq_refl eq_refl).
Defined.

(** C5, as the code has it.  When the [try] block of a started upload
    throws, the banner is chosen from the thrown error's message: the
    schema-setup text when a non-empty message carries the missing-table
    signal, the message itself when it is non-empty and does not, and
    the text "Failed to upload." when the error has no message or an
    empty one. *)
Theorem upload_failure_banner env w tr e file err :
  first_file e = Some file ->
  isConfigured (app w) = true ->
  fst (fst (tried env w tr file)) = Threw err ->
  (forall m, message err = Some m -> m <> [] -> missingTableSignal m = true ->
     errorStatus (app (snd (fst (run env (fire onFileUpload e) w tr))))
     = Some (lit "Table 'documents' missing in Supabase. Check Setup SQL.")) /\
  (forall m, message err = Some m -> m <> [] -> missingTableSignal m = false ->
     errorStatus (app (snd (fst (run env (fire onFileUpload e) w tr)))) = Some m) /\
  (message err = None \/ message err = Some [] ->
     errorStatus (app (snd (fst (run env (fire onFileUpload e) w tr))))
     = Some (lit "Failed to upload.")).
Proof.
  intros Hfile Hconf Hthrew.
  destruct (onFileUpload_settles env w tr e Hfile Hconf)
    as (calls & Hs & [(pc & Htry & Hrun)|(err' & Htry & Hrun)]);
    rewrite Htry in Hthrew; cbn [fst] in Hthrew; [discriminate|].
  injection Hthrew as ->. rewrite Hrun. cbn [fst snd].
  change (errorStatus (app (setIsUploading false
            (settledError (inserted env w tr file)
                          (doc_id (newDocOf env w tr file)) err))))
    with (Some (banner err)).
  unfold banner, missingTableSignal. cbv zeta.
  repeat split.
  - intros m -> Hm Hsig. destruct m; [congruence|]. cbn [or_else truthy].
    now rewrite Hsig.
  - intros m -> Hm Hsig. destruct m; [congruence|]. cbn [or_else truthy].
    now rewrite Hsig.
  - intros [->| ->]; reflexivity.
Qed.

Lemma upload_failure_banner_witness :
  first_file (pick pdfFile) = Some pdfFile /\
  isConfigured (app configured) = true /\
  fst (fst (tried (scripted (failingStore
                     (mkPgError (lit "relation public.documents does not exist")
                                (lit "42P01"))))
                  configured [] pdfFile))
  = Threw (thrown (mkPgError (lit "relation public.documents does not exist")
                             (lit "42P01"))) /\
  errorStatus (app (snd (fst (run
     (scripted (failingStore
                  (mkPgError (lit "relation public.documents does not exist")
                             (lit "42P01"))))
     (fire onFileUpload (pick pdfFile)) configured []))))
  = Some (lit "Table 'documents' missing in Supabase. Check Setup SQL.").
Proof.
  split; [reflexivity|]. split; [reflexivity|]. split; [reflexivity|].
  refine (proj1 (@upload_failure_banner
            (scripted (failingStore
               (mkPgError (lit "relation public.documents does not exist")
                          (lit "42P01"))))
            configured [] (pick pdfFile) pdfFile _ eq_refl eq_refl eq_refl)
          (lit "relation public.documents does not exist") eq_refl _ eq_refl).
  discriminate.
Defined.

(** C5 as stated fails: an error whose message is the empty string does
    not carry the missing-table signal, and the banner is not that
    message. *)
Lemma upload_banner_not_raw_message :
  fst (fst (tried (scripted (failingNormalizer (new_Error []))) configured [] pdfFile))
    = Threw (new_Error []) /\
  message (new_Error []) = Some [] /\
  missingTableSignal [] = false /\
  errorStatus (app (snd (fst (run (scripted (failingNormalizer (new_Error [])))
                                  (fire onFileUpload (pick pdfFile)) configured []))))
    = Some (lit "Failed to upload.") /\
  errorStatus (app (snd (fst (run (scripted (failingNormalizer (new_Error [])))
                                  (fire onFileUpload (pick pdfFile)) configured []))))
    <> Some [].
Proof.
  repeat split; try reflexivity. vm_compute. discriminate.
Qed.

End UploadProperties2.

(* ===================================================================== *)
(** ** The emptiness check *)
(* ===================================================================== *)

Section EmptyContent.

Import Fixtures.

Lemma blank_app a b : blank (a ++ b) <-> blank a /\ blank b.
Proof.
  unfold blank. split.
  - intros H. split; intros c Hc; apply H, in_or_app; auto.
  - intros [Ha Hb] c Hc. apply in_app_or in Hc as [Hc|Hc]; auto.
Qed.

Lemma blank_join sep xs x : In x xs -> blank (join sep xs) -> blank x.
Proof.
  induction xs as [|y [|z rest] IH]; [intros []| |].
  - intros [<-|[]]. auto.
  - intros Hin. change (join sep (y :: z :: rest)) with (y ++ sep ++ join sep (z :: rest)).
    rewrite !blank_app. intros (Hy & _ & Hrest).
    destruct Hin as [<-|Hin]; auto.
Qed.

Lemma blank_pages (pages : list TextContent) tc item :
  In tc pages -> In item (items tc) ->
  blank (flat_map (fun tc => join (lit " ") (map str (items tc)) ++ nl) pages) ->
  blank (str item).
Proof.
  induction pages as [|p pages IH]; [intros []|].
  intros Htc Hitem. cbn [flat_map]. rewrite !blank_app. intros [[Hp _] Hrest].
  destruct Htc as [->|Htc]; [|now apply IH].
  apply (blank_join (lit " ") (map str (items tc))); [|exact Hp].
  now apply in_map.
Qed.

Lemma app_cons_neq A (l m : list A) x : l ++ x :: m <> l.
Proof.
  intros H. apply (f_equal (@List.length A)) in H.
  rewrite length_app in H. simpl in H. lia.
Qed.

Lemma blank_nl : blank nl.
Proof. intros c [<-|[]]. reflexivity. Qed.

Lemma blank_space : blank (lit " ").
Proof. intros c [<-|[]]. reflexivity. Qed.

Lemma blank_join_all sep xs :
  blank sep -> (forall x, In x xs -> blank x) -> blank (join sep xs).
Proof.
  intros Hsep. induction xs as [|y [|z rest] IH]; intros Hall.
  - intros c [].
  - apply Hall. now left.
  - change (join sep (y :: z :: rest)) with (y ++ sep ++ join sep (z :: rest)).
    rewrite !blank_app. repeat split; auto.
    + apply Hall. now left.
    + apply IH. intros x Hx. apply Hall. now right.
Qed.

(** The text of a PDF is all white space exactly when every fragment of
    every page is. *)
Lemma blank_pages_iff (pages : list TextContent) :
  blank (flat_map (fun tc => join (lit " ") (map str (items tc)) ++ nl) pages)
  <-> (forall tc item, In tc pages -> In item (items tc) -> blank (str item)).
Proof.
  split.
  - intros Hb tc item Htc Hitem. exact (blank_pages pages tc item Htc Hitem Hb).
  - intros Hall. induction pages as [|p pages IH]; [intros c []|].
    cbn [flat_map]. rewrite !blank_app. repeat split.
    + apply blank_join_all; [apply blank_space|].
      intros x Hx. apply in_map_iff in Hx as (item & <- & Hitem).
      apply (Hall p item); [now left|exact Hitem].
    + apply blank_nl.
    + apply IH. intros tc item Htc. apply Hall. now right.
Qed.

(** What each strategy hands to the emptiness check. *)
Lemma readAndExtract_pdf (env : Env) file data pdf pages w tr :
  (forall tr, env _ tr (FileArrayBuffer file) = Fulfilled data) ->
  is_pdf file = true ->
  serves env data pdf pages ->
  exists tr',
    run env (readAndExtract file) w tr =
    (Returned (flat_map (fun tc => join (lit " ") (map str (items tc)) ++ nl) pages),
     w, tr').
Proof.
  intros Hread Hpdf Hserves. unfold readAndExtract. simpl. rewrite Hread. simpl.
  unfold extractText. rewrite Hpdf.
  destruct (extractTextFromPdf_serves w
              (tr ++ [EvCall (FileArrayBuffer file) (Fulfilled data)]) Hserves)
    as (calls & Hrun & _).
  rewrite Hrun. eexists. reflexivity.
Qed.

Lemma readAndExtract_docx (env : Env) file data value w tr :
  (forall tr, env _ tr (FileArrayBuffer file) = Fulfilled data) ->
  is_pdf file = false -> is_docx file = true ->
  (forall tr, env _ tr (MammothExtractRawText data) = Fulfilled value) ->
  exists tr', run env (readAndExtract file) w tr = (Returned value, w, tr').
Proof.
  intros Hread Hpdf Hdocx Hraw. unfold readAndExtract. simpl. rewrite Hread. simpl.
  unfold extractText. rewrite Hpdf, Hdocx. unfold extractTextFromDocx. simpl.
  rewrite Hraw. eexists. reflexivity.
Qed.

Lemma readAndExtract_plain (env : Env) file data decoded w tr :
  (forall tr, env _ tr (FileArrayBuffer file) = Fulfilled data) ->
  is_pdf file = false -> is_docx file = false ->
  (forall tr, env _ tr (TextDecoderDecode data) = decoded) ->
  exists tr', run env (readAndExtract file) w tr = (Returned decoded, w, tr').
Proof.
  intros Hread Hpdf Hdocx Hdec. unfold readAndExtract. simpl. rewrite Hread. simpl.
  unfold extractText. rewrite Hpdf, Hdocx. simpl. rewrite Hdec.
  eexists. reflexivity.
Qed.

(** C7, as the code has it.  Once the selected strategy has produced its text,
    the [try] block stops at the emptiness check, throwing "File is
    empty." before anything else is called, exactly when that text is
    all white space.  What that means for a file that was read depends
    on its kind.  A PDF stops there exactly when every fragment of every
    page is white space, so also when it has no page or no fragment at
    all; a Word document exactly when its raw text is white space; any
    other file exactly when its decoded text is.  A file with something
    in it but nothing to show stops there like an empty one. *)
Theorem empty_content_iff_blank (env : Env) file newDoc w tr :
  (forall text w' tr',
     run env (readAndExtract file) w tr = (Returned text, w', tr') ->
     (run env (uploadTry file newDoc) w tr = (Threw emptyFile, w', tr')
      <-> blank text)) /\
  (forall data,
     (forall tr, env _ tr (FileArrayBuffer file) = Fulfilled data) ->
     (forall pdf pages,
        is_pdf file = true ->
        serves env data pdf pages ->
        exists text tr',
          run env (readAndExtract file) w tr = (Returned text, w, tr') /\
          (trim text = [] <->
           forall tc item, In tc pages -> In item (items tc) -> blank (str item)) /\
          (run env (uploadTry file newDoc) w tr = (Threw emptyFile, w, tr') <->
           forall tc item, In tc pages -> In item (items tc) -> blank (str item)))
     /\
     (forall value,
        is_pdf file = false -> is_docx file = true ->
        (forall tr, env _ tr (MammothExtractRawText data) = Fulfilled value) ->
        exists tr',
          run env (readAndExtract file) w tr = (Returned value, w, tr') /\
          (run env (uploadTry file newDoc) w tr = (Threw emptyFile, w, tr') <->
           blank value))
     /\
     (forall decoded,
        is_pdf file = false -> is_docx file = false ->
        (forall tr, env _ tr (TextDecoderDecode data) = decoded) ->
        exists tr',
          run env (readAndExtract file) w tr = (Returned decoded, w, tr') /\
          (run env (uploadTry file newDoc) w tr = (Threw emptyFile, w, tr') <->
           blank decoded))).
Proof.
  assert (A : forall text w' tr',
             run env (readAndExtract file) w tr = (Returned text, w', tr') ->
             (run env (uploadTry file newDoc) w tr = (Threw emptyFile, w', tr')
              <-> blank text)).
  { intros text w' tr' Hext. rewrite uploadTry_split, Hext.
    rewrite <- truthy_trim_false_iff.
    destruct (truthy (trim text)); cbn [negb].
    - split; [|discriminate].
      intros Hrun. exfalso.
      destruct (normalizeAndStore_calls env file newDoc text w' tr')
        as (contents & config & r & more & Htrace).
      rewrite Hrun in Htrace. cbn [snd] in Htrace.
      symmetry in Htrace. exact (@app_cons_neq _ _ _ _ Htrace).
    - split; reflexivity. }
  split; [exact A|].
  intros data Hread. split; [|split].
  - intros pdf pages Hpdf Hserves.
    destruct (@readAndExtract_pdf env file data pdf pages w tr Hread Hpdf Hserves)
      as (tr' & Hext).
    do 2 eexists. split; [exact Hext|]. split.
    + rewrite trim_nil_iff. apply blank_pages_iff.
    + rewrite (A _ _ _ Hext). apply blank_pages_iff.
  - intros value Hpdf Hdocx Hraw.
    destruct (@readAndExtract_docx env file data value w tr Hread Hpdf Hdocx Hraw)
      as (tr' & Hext).
    exists tr'. split; [exact Hext|exact (A _ _ _ Hext)].
  - intros decoded Hpdf Hdocx Hdec.
    destruct (@readAndExtract_plain env file data decoded w tr Hread Hpdf Hdocx Hdec)
      as (tr' & Hext).
    exists tr'. split; [exact Hext|exact (A _ _ _ Hext)].
Qed.

Lemma empty_content_iff_blank_witness :
  (run (scripted (happy abc)) (readAndExtract txtFile) configured []
     = (Returned [], configured, [EvCall (FileArrayBuffer txtFile) (Fulfilled []);
                                  EvCall (TextDecoderDecode []) []])
   /\ blank []
   /\ run (scripted (happy abc))
          (uploadTry txtFile (newDocOf (scripted (happy abc)) configured [] txtFile))
          configured []
      = (Threw emptyFile, configured,
         [EvCall (FileArrayBuffer txtFile) (Fulfilled []);
          EvCall (TextDecoderDecode []) []]))
  /\
  ((forall tr, scripted (happy abc) tr (FileArrayBuffer pdfFile) = Fulfilled [])
   /\ is_pdf pdfFile = true
   /\ serves (scripted (happy abc)) [] {| pdf_handle := 0; numPages := 3 |}
              [ mkTextContent [mkItem (lit "A")]; mkTextContent [mkItem (lit "B")];
                mkTextContent [mkItem (lit "C")] ]
   /\ exists text tr',
        run (scripted (happy abc)) (readAndExtract pdfFile) configured []
          = (Returned text, configured, tr') /\
        (trim text = [] <->
         forall tc item,
           In tc [ mkTextContent [mkItem (lit "A")]; mkTextContent [mkItem (lit "B")];
                   mkTextContent [mkItem (lit "C")] ] ->
           In item (items tc) -> blank (str item)) /\
        (run (scripted (happy abc))
             (uploadTry pdfFile (newDocOf (scripted (happy abc)) configured [] pdfFile))
             configured []
           = (Threw emptyFile, configured, tr') <->
         forall tc item,
           In tc [ mkTextContent [mkItem (lit "A")]; mkTextContent [mkItem (lit "B")];
                   mkTextContent [mkItem (lit "C")] ] ->
           In item (items tc) -> blank (str item))).
Proof.
  split.
  - split; [reflexivity|]. split; [intros c []|].
    apply (proj1 (@empty_content_iff_blank (scripted (happy abc)) txtFile
                    (newDocOf (scripted (happy abc)) configured [] txtFile)
                    configured [])
                 [] configured _ eq_refl).
    intros c [].
  - assert (Hserves : serves (scripted (happy abc)) []
                        {| pdf_handle := 0; numPages := 3 |}
                        [ mkTextContent [mkItem (lit "A")];
                          mkTextContent [mkItem (lit "B")];
                          mkTextContent [mkItem (lit "C")] ]).
    { split; [reflexivity|]. split; [reflexivity|].
      intros i Hi. exists {| page_handle := 0; pageNumber := i |}.
      split; [reflexivity|]. intros tr0.
      destruct i as [|[|[|[|i]]]]; simpl in Hi; try lia; reflexivity. }
    split; [reflexivity|]. split; [reflexivity|]. split; [exact Hserves|].
    exact (proj1 (proj2 (@empty_content_iff_blank (scripted (happy abc)) pdfFile
                           (newDocOf (scripted (happy abc)) configured [] pdfFile)
                           configured [])
                        [] (fun _ => eq_refl))
                 _ _ eq_refl Hserves).
Defined.

(** C7 fails where it says that a well-formed file with something in it
    is never rejected as empty.  A text file that holds one space is read
    to the text " ", which is not the empty string, and its upload ends
    with the banner "File is empty." and its document in status [error],
    the model and the store never called.  So does a PDF whose only page
    has no text on it, a scan for one: it is read to a line break. *)
Theorem blank_file_rejected_as_empty :
  (scripted (holding [Byte.x20]) [] (FileArrayBuffer txtFile) = Fulfilled [Byte.x20]
   /\
   fst (fst (run (scripted (holding [Byte.x20])) (readAndExtract txtFile)
                 configured []))
     = Returned (lit " ")
   /\
   fst (fst (run (scripted (holding [Byte.x20]))
                 (uploadTry txtFile
                    (newDocOf (scripted (holding [Byte.x20])) configured [] txtFile))
                 configured []))
     = Threw emptyFile
   /\
   errorStatus (app (snd (fst
     (run (scripted (holding [Byte.x20])) (fire onFileUpload (pick txtFile))
          configured []))))
     = Some (lit "File is empty.")
   /\
   map doc_status (documents (app (snd (fst
     (run (scripted (holding [Byte.x20])) (fire onFileUpload (pick txtFile))
          configured [])))))
     = [error]
   /\
   filter collaborator_event
     (snd (run (scripted (holding [Byte.x20])) (fire onFileUpload (pick txtFile))
               configured []))
     = [])
  /\
  (fst (fst (run (scripted (happy [[]])) (readAndExtract pdfFile) configured []))
     = Returned nl
   /\
   errorStatus (app (snd (fst
     (run (scripted (happy [[]])) (fire onFileUpload (pick pdfFile))
          configured []))))
     = Some (lit "File is empty.")).
Proof. repeat split; vm_compute; reflexivity. Qed.

End EmptyContent.

(* ===================================================================== *)
(** ** The chat exchange, step by step *)
(* ===================================================================== *)

Section Chat.

Variable env : Env.

(** A blank question, or a question while an answer is in flight, is
    dropped: no state update and no call. *)
Lemma handleSendMessage_skip w tr :
  truthy (trim (inputMessage (app w))) = false \/ isAnswering (app w) = true ->
  run env (fire handleSendMessage tt) w tr = (Returned tt, w, tr).
Proof.
  intros H. unfold fire, handleSendMessage. simpl.
  destruct H as [-> | ->]; [reflexivity|].
  now rewrite orb_true_r.
Qed.

(** Otherwise the handler reaches its [try] statement in the state
    [submitted]. *)
Lemma handleSendMessage_start w tr :
  truthy (trim (inputMessage (app w))) = true ->
  isAnswering (app w) = false ->
  run env (fire handleSendMessage tt) w tr =
  run env (finally (try_catch (chatTry (inputMessage (app w))) chatCatch)
                   (update (setIsAnswering false)))
      (submitted env w tr) (tr ++ submittedEvents env w tr).
Proof.
  intros Hq Hfree. unfold fire, handleSendMessage. simpl.
  rewrite Hq, Hfree. simpl. unfold submittedEvents.
  rewrite <- !app_assoc. reflexivity.
Qed.

(** The generator makes one request and returns its text, or the stock
    apology when there is none. *)
Lemma generateAnswer_run question context w tr :
  exists contents config,
    run env (generateAnswer question context) w tr =
    match env tr (GenerateContent (lit "gemini-3-pro-preview") contents config) with
    | Fulfilled r =>
        (Returned {| text := or_else (response_text r)
                               (lit "I'm sorry, I couldn't generate an answer.");
                     sources := [] |},
         w,
         tr ++ [EvCall (GenerateContent (lit "gemini-3-pro-preview") contents config)
                       (Fulfilled r)])
    | Rejected e =>
        (Threw e, w,
         tr ++ [EvCall (GenerateContent (lit "gemini-3-pro-preview") contents config)
                       (Rejected e)])
    end.
Proof.
  unfold generateAnswer, await.
  match goal with |- context [GenerateContent _ ?c ?cfg] => exists c, cfg end.
  cbn [bind run].
  match goal with |- context [env tr ?c] => destruct (env tr c) end; reflexivity.
Qed.

(** The [catch] block: read the clock, append the error message. *)
Lemma chatCatch_run err w tr :
  run env (chatCatch err) w tr =
  (Returned tt,
   answered w {| msg_id := toString (env tr DateNow); msg_role := assistant;
                 msg_content := lit "Error: " ++ or_else (message err) noKnowledge;
                 msg_sources := None |},
   tr ++ [ EvCall DateNow (env tr DateNow);
           EvSet (answered w
                    {| msg_id := toString (env tr DateNow); msg_role := assistant;
                       msg_content := lit "Error: " ++ or_else (message err) noKnowledge;
                       msg_sources := None |}) ]).
Proof. unfold chatCatch. simpl. rewrite <- app_assoc. reflexivity. Qed.

(** The [try] block either appends the answer, or throws leaving the
    state as it was. *)
Lemma chatTry_run question w tr :
  exists calls, snapshots calls = [] /\
    ((exists contents config r now,
        In (EvCall (GenerateContent (lit "gemini-3-pro-preview") contents config)
                   (Fulfilled r)) calls /\
        In (EvCall DateNow now) calls /\
        let a := {| msg_id := toString (now + 1); msg_role := assistant;
                    msg_content := or_else (response_text r)
                                     (lit "I'm sorry, I couldn't generate an answer.");
                    msg_sources := Some [] |} in
        run env (chatTry question) w tr =
        (Returned tt, answered w a, tr ++ calls ++ [EvSet (answered w a)]))
     \/ (exists err, run env (chatTry question) w tr = (Threw err, w, tr ++ calls))).
Proof.
  unfold chatTry. rewrite run_bind.
  destruct (run_ReadOnly env (ReadOnly_searchKnowledgeBase question) w tr)
    as (o1 & c1 & -> & Hs1).
  destruct o1 as [context|err]; [|exists c1; split; [exact Hs1|right; eauto]].
  rewrite run_bind.
  destruct (generateAnswer_run question context w (tr ++ c1))
    as (contents & config & ->).
  destruct (env (tr ++ c1) (GenerateContent (lit "gemini-3-pro-preview") contents config))
    as [r|err] eqn:Hgen.
  - set (tr2 := (tr ++ c1) ++
                [EvCall (GenerateContent (lit "gemini-3-pro-preview") contents config)
                        (Fulfilled r)]).
    exists (c1 ++ [EvCall (GenerateContent (lit "gemini-3-pro-preview") contents config)
                          (Fulfilled r);
                   EvCall DateNow (env tr2 DateNow)]).
    split; [rewrite snapshots_app, Hs1; reflexivity|].
    left. exists contents, config, r, (env tr2 DateNow).
    split; [apply in_or_app; right; simpl; auto|].
    split; [apply in_or_app; right; simpl; auto|].
    simpl. unfold tr2, answered. rewrite <- !app_assoc. reflexivity.
  - exists (c1 ++ [EvCall (GenerateContent (lit "gemini-3-pro-preview") contents config)
                          (Rejected err)]).
    split; [rewrite snapshots_app, Hs1; reflexivity|].
    right. exists err. rewrite <- app_assoc. reflexivity.
Qed.

(** A submitted question runs to the end of the handler along one of
    two paths. *)
Lemma handleSendMessage_settles w tr :
  truthy (trim (inputMessage (app w))) = true ->
  isAnswering (app w) = false ->
  exists calls a, snapshots calls = [] /\
    run env (fire handleSendMessage tt) w tr =
      (Returned tt, setIsAnswering false (answered (submitted env w tr) a),
       tr ++ submittedEvents env w tr ++ calls ++
         [ EvSet (answered (submitted env w tr) a);
           EvSet (setIsAnswering false (answered (submitted env w tr) a)) ]) /\
    msg_role a = assistant /\
    ((exists contents config r now,
        fst (fst (chatTried env w tr)) = Returned tt /\
        In (EvCall (GenerateContent (lit "gemini-3-pro-preview") contents config)
                   (Fulfilled r)) calls /\
        In (EvCall DateNow now) calls /\
        a = {| msg_id := toString (now + 1); msg_role := assistant;
               msg_content := or_else (response_text r)
                                (lit "I'm sorry, I couldn't generate an answer.");
               msg_sources := Some [] |})
     \/
     (exists err now,
        fst (fst (chatTried env w tr)) = Threw err /\
        In (EvCall DateNow now) calls /\
        a = {| msg_id := toString now; msg_role := assistant;
               msg_content := lit "Error: " ++ or_else (message err) noKnowledge;
               msg_sources := None |})).
Proof.
  intros Hq Hfree.
  rewrite (handleSendMessage_start w tr Hq Hfree).
  unfold chatTried.
  rewrite run_finally, run_try_catch.
  destruct (chatTry_run (inputMessage (app w)) (submitted env w tr)
              (tr ++ submittedEvents env w tr))
    as (calls & Hs & [(contents & config & r & now & Hgen & Hnow & Hrun)
                     |(err & Hrun)]).
  - cbv zeta in Hrun. rewrite Hrun, run_update.
    eexists calls, _. split; [exact Hs|]. split.
    + rewrite <- !app_assoc. reflexivity.
    + split; [reflexivity|]. left. exists contents, config, r, now. auto.
  - rewrite Hrun, chatCatch_run, run_update.
    eexists (calls ++ [EvCall DateNow _]), _.
    split; [rewrite snapshots_app, Hs; reflexivity|]. split.
    + rewrite <- !app_assoc. reflexivity.
    + split; [reflexivity|]. right. do 2 eexists.
      split; [reflexivity|]. split; [|reflexivity].
      apply in_or_app. right. simpl. auto.
Qed.

End Chat.

(* ===================================================================== *)
(** ** Properties of the chat exchange and of the context fetch *)
(* ===================================================================== *)

Section ChatProperties.

Import Fixtures.

(** Saving the typed credentials gives the configured component. *)
Lemma configured_by_saving :
  run (scripted (happy abc)) (fire handleConfigSave tt) typed []
  = (Returned tt, configured,
     [ EvCall (CreateClient (lit "https://x.supabase.co") (lit "k"))
              (Fulfilled (mkClient (lit "https://x.supabase.co") (lit "k")));
       EvSet (setClient (Some (mkClient (lit "https://x.supabase.co") (lit "k"))) typed);
       EvSet (setIsConfigured true
                (setClient (Some (mkClient (lit "https://x.supabase.co") (lit "k")))
                           typed));
       EvSet configured ]).
Proof. reflexivity. Qed.

Lemma truthy_iff s : truthy s = true <-> s <> [].
Proof. destruct s; simpl; split; congruence. Qed.

(** C1.  A question whose trimmed text is not empty, submitted while no
    answer is in flight, runs to completion and leaves the log two
    entries longer: the user's message with the question as typed, then
    one assistant message, which is the generated answer when the [try]
    block returned and the "Error: ..." text built from the thrown error
    when it did not.  Every state the component goes through from the
    submission on still has the earlier log followed by the user's
    message, and the [isAnswering] flag is false at the end. *)
Theorem chat_appends_user_then_assistant (env : Env) w tr :
  trim (inputMessage (app w)) <> [] ->
  isAnswering (app w) = false ->
  exists u a w_end evs,
    run env (fire handleSendMessage tt) w tr = (Returned tt, w_end, tr ++ evs) /\
    chatMessages (app w_end) = chatMessages (app w) ++ [u; a] /\
    msg_role u = user /\
    msg_content u = inputMessage (app w) /\
    msg_role a = assistant /\
    (forall w', In w' (snapshots evs) ->
       exists more, chatMessages (app w') = chatMessages (app w) ++ u :: more) /\
    isAnswering (app w_end) = false /\
    match fst (fst (chatTried env w tr)) with
    | Returned _ =>
        exists contents config r,
          In (EvCall (GenerateContent (lit "gemini-3-pro-preview") contents config)
                     (Fulfilled r)) evs /\
          msg_content a = or_else (response_text r)
                            (lit "I'm sorry, I couldn't generate an answer.")
    | Threw err =>
        msg_content a = lit "Error: " ++ or_else (message err) noKnowledge
    end.
Proof.
  intros Hq Hfree. apply truthy_iff in Hq.
  destruct (handleSendMessage_settles env w tr Hq Hfree)
    as (calls & a & Hs & Hrun & Hrole & Hpath).
  exists (userMsgOf env w tr), a,
         (setIsAnswering false (answered (submitted env w tr) a)),
         (submittedEvents env w tr ++ calls ++
            [ EvSet (answered (submitted env w tr) a);
              EvSet (setIsAnswering false (answered (submitted env w tr) a)) ]).
  split; [exact Hrun|].
  split; [simpl; now rewrite <- app_assoc|].
  do 3 (split; [reflexivity || exact Hrole|]).
  split.
  { rewrite !snapshots_app, Hs. simpl.
    intros w' [<-|[<-|[<-|[<-|[<-|[]]]]]]; simpl;
      try (exists []; reflexivity);
      exists [a]; now rewrite <- app_assoc. }
  split; [reflexivity|].
  destruct Hpath as [(contents & config & r & now & -> & Hgen & _ & ->)
                    |(err & now & -> & _ & ->)]; cbn [fst].
  - exists contents, config, r. split; [|reflexivity].
    apply in_or_app. right. apply in_or_app. now left.
  - reflexivity.
Qed.

Lemma chat_appends_user_then_assistant_witness :
  trim (inputMessage (app (asking (lit "hi") configured))) <> [] /\
  isAnswering (app (asking (lit "hi") configured)) = false /\
  exists u a w_end evs,
    run (scripted (happy abc)) (fire handleSendMessage tt)
        (asking (lit "hi") configured) []
      = (Returned tt, w_end, [] ++ evs) /\
    chatMessages (app w_end)
      = chatMessages (app (asking (lit "hi") configured)) ++ [u; a] /\
    msg_role u = user /\
    msg_content u = inputMessage (app (asking (lit "hi") configured)) /\
    msg_role a = assistant /\
    (forall w', In w' (snapshots evs) ->
       exists more, chatMessages (app w')
                    = chatMessages (app (asking (lit "hi") configured)) ++ u :: more) /\
    isAnswering (app w_end) = false /\
    match fst (fst (chatTried (scripted (happy abc))
                              (asking (lit "hi") configured) [])) with
    | Returned _ =>
        exists contents config r,
          In (EvCall (GenerateContent (lit "gemini-3-pro-preview") contents config)
                     (Fulfilled r)) evs /\
          msg_content a = or_else (response_text r)
                            (lit "I'm sorry, I couldn't generate an answer.")
    | Threw err =>
        msg_content a = lit "Error: " ++ or_else (message err) noKnowledge
    end.
Proof.
  split; [discriminate|]. split; [reflexivity|].
  refine (@chat_appends_user_then_assistant (scripted (happy abc))
            (asking (lit "hi") configured) [] _ eq_refl).
  discriminate.
Defined.

(** On the path where the answer arrives, the two ids of the exchange
    differ as long as the clock has not gone back in between: the
    assistant's id is one more than the later reading. *)
Lemma chat_success_ids_distinct (asked_at answered_at : Z) :
  (asked_at <= answered_at)%Z ->
  toString asked_at <> toString (answered_at + 1).
Proof. intros Hle H. apply toString_inj in H. lia. Qed.

(** C8 fails on the error path.  When the fetch fails within the
    millisecond of the submission (here the clock reads 1000 throughout),
    both messages of the exchange get the id 1000: with the store client
    never created, where the fetch throws at once, and with a client
    whose request is rejected.  With the same clock the path where the
    answer arrives gives the ids 1000 and 1001. *)
Theorem chat_error_ids_collide :
  map (fun m => (msg_role m, msg_id m))
      (chatMessages (app (snd (fst
         (run (scripted (happy abc)) (fire handleSendMessage tt)
              (asking (lit "hi") initial_world) [])))))
  = [ (user, lit "1000"); (assistant, lit "1000") ]
  /\
  map (fun m => (msg_role m, msg_id m))
      (chatMessages (app (snd (fst
         (run (scripted offline) (fire handleSendMessage tt)
              (asking (lit "hi") configured) [])))))
  = [ (user, lit "1000"); (assistant, lit "1000") ]
  /\
  map (fun m => (msg_role m, msg_id m))
      (chatMessages (app (snd (fst
         (run (scripted (happy abc)) (fire handleSendMessage tt)
              (asking (lit "hi") configured) [])))))
  = [ (user, lit "1000"); (assistant, lit "1001") ].
Proof. repeat split. Qed.

(** The chat handler never reads the configured flag: it is the same
    program whatever the flag says. *)
Lemma handleSendMessage_ignores_flag (s : AppState) (b : bool) :
  handleSendMessage
    (mkAppState (documents s) (chatMessages s) (isUploading s) (inputMessage s)
                (isAnswering s) (supabaseConfig s) b (errorStatus s)) tt
  = handleSendMessage s tt.
Proof. reflexivity. Qed.

(** C3 fails for the chat.  With the configured flag off, an upload is
    a no-op, but a question is processed like any other: after Reset the
    store and the generator are both called and two messages are
    appended; on a component that was never configured the fetch throws
    before any request, and the question and an error message are
    appended. *)
Theorem chat_runs_when_unconfigured :
  isConfigured (app afterReset) = false /\
  run (scripted (happy abc)) (fire onFileUpload (pick pdfFile)) afterReset []
    = (Returned tt, afterReset, []) /\
  map (fun m => (msg_role m, msg_content m))
      (chatMessages (app (snd (fst
         (run (scripted (happy abc)) (fire handleSendMessage tt) afterReset [])))))
    = [ (user, lit "hi"); (assistant, lit "clean") ] /\
  filter collaborator_event
         (snd (run (scripted (happy abc)) (fire handleSendMessage tt) afterReset []))
    = [ EvCall (SupabaseSelect (mkClient (lit "https://x.supabase.co") (lit "k"))
                               (lit "documents") (lit "content") 10)
               (selectRows (happy abc) 10);
        EvCall (GenerateContent (lit "gemini-3-pro-preview")
                  (lit "You are a helpful AI assistant. Use the following pieces of retrieved context to answer the user's question. If you don't know the answer based on the context, say that you don't know. "
                     ++ nl ++ nl ++ lit "Context:" ++ nl
                     ++ lit "alpha" ++ nl ++ nl ++ lit "beta"
                     ++ nl ++ nl ++ lit "Question: hi")
                  {| temperature := QArith_base.Qmake 2 10;
                     thinkingBudget := Some 1000%Z |})
               (Fulfilled {| response_text := Some (lit "clean") |}) ] /\
  isConfigured (app (asking (lit "hi") initial_world)) = false /\
  map (fun m => (msg_role m, msg_content m))
      (chatMessages (app (snd (fst
         (run (scripted (happy abc)) (fire handleSendMessage tt)
              (asking (lit "hi") initial_world) [])))))
    = [ (user, lit "hi"); (assistant, lit "Error: Supabase not initialized") ].
Proof. repeat split. Qed.

End ChatProperties.

Section ContextFetch.

Import Fixtures.

(** C10.  The context fetch does not look at the question.  For two
    questions the fetch is the same program, so against the same
    environment, state and history it makes the same calls and gives the
    same result.  With a client, its one request is for column [content]
    of table [documents], limit 10; when the request is answered with
    rows and no error, the context is the rows' contents joined by a
    blank line. *)
Theorem search_ignores_query (env : Env) q1 q2 w tr :
  searchKnowledgeBase q1 = searchKnowledgeBase q2 /\
  run env (searchKnowledgeBase q1) w tr = run env (searchKnowledgeBase q2) w tr /\
  (forall client rows,
     supabase_client w = Some client ->
     env _ tr (SupabaseSelect client (lit "documents") (lit "content") 10)
       = Fulfilled {| select_data := Some rows; select_error := None |} ->
     run env (searchKnowledgeBase q1) w tr =
     (Returned (join (nl ++ nl) (map content rows)), w,
      tr ++ [EvCall (SupabaseSelect client (lit "documents") (lit "content") 10)
                    (Fulfilled {| select_data := Some rows; select_error := None |})])).
Proof.
  split; [reflexivity|]. split; [reflexivity|].
  intros client rows Hclient Hsel.
  unfold searchKnowledgeBase. cbn [run]. rewrite Hclient.
  unfold await. cbn [bind run]. rewrite Hsel. cbn.
  repeat f_equal. unfold or_else.
  destruct (join _ _); reflexivity.
Qed.

Lemma search_ignores_query_witness :
  supabase_client configured
    = Some (mkClient (lit "https://x.supabase.co") (lit "k")) /\
  scripted (happy abc) []
    (SupabaseSelect (mkClient (lit "https://x.supabase.co") (lit "k"))
                    (lit "documents") (lit "content") 10)
    = Fulfilled {| select_data := Some [mkContentRow (lit "alpha");
                                        mkContentRow (lit "beta")];
                   select_error := None |} /\
  fst (fst (run (scripted (happy abc))
                (searchKnowledgeBase (lit "what is alpha?")) configured []))
    = Returned (lit "alpha" ++ nl ++ nl ++ lit "beta") /\
  run (scripted (happy abc)) (searchKnowledgeBase (lit "what is alpha?")) configured []
    = run (scripted (happy abc)) (searchKnowledgeBase (lit "something else")) configured [].
Proof.
  split; [reflexivity|]. split; [reflexivity|].
  pose proof (@search_ignores_query (scripted (happy abc))
                (lit "what is alpha?") (lit "something else") configured [])
    as (_ & Hsame & Hrows).
  split; [|exact Hsame].
  rewrite (Hrows _ _ eq_refl eq_refl). reflexivity.
Defined.

(** C6.  When the library serves a PDF, the extractor asks for the
    pages 1, 2, ..., [numPages] in that order and returns, for each page
    in turn, its fragments joined by one space followed by a newline.
    Whatever the library answers, the pages asked for are 1, 2, ..., k
    for some k.  Three pages holding A, B and C give "A\nB\nC\n". *)
Theorem pdf_pages_in_ascending_order (env : Env) data pdf pages w tr :
  serves env data pdf pages ->
  (exists calls,
     run env (extractTextFromPdf data) w tr =
       (Returned (flat_map (fun tc => join (lit " ") (map str (items tc)) ++ nl) pages),
        w, tr ++ calls)
     /\ page_visits calls = seq 1 (List.length pages))
  /\ (forall (env' : Env) data' w' tr',
        exists calls k,
          snd (run env' (extractTextFromPdf data') w' tr') = tr' ++ calls /\
          page_visits calls = seq 1 k)
  /\ fst (fst (run (scripted (happy [[lit "A"]; [lit "B"]; [lit "C"]]))
                   (extractTextFromPdf []) w []))
     = Returned (lit "A" ++ nl ++ lit "B" ++ nl ++ lit "C" ++ nl).
Proof.
  intros Hserves. split; [|split].
  - exact (extractTextFromPdf_serves w tr Hserves).
  - intros env' data' w' tr'. apply extractTextFromPdf_ascending.
  - reflexivity.
Qed.

Lemma pdf_pages_in_ascending_order_witness :
  serves (scripted (happy abc)) [] {| pdf_handle := 0; numPages := 3 |}
         [ mkTextContent [mkItem (lit "A")];
           mkTextContent [mkItem (lit "B")];
           mkTextContent [mkItem (lit "C")] ] /\
  exists calls,
    run (scripted (happy abc)) (extractTextFromPdf []) configured [] =
      (Returned (lit "A" ++ nl ++ lit "B" ++ nl ++ lit "C" ++ nl), configured,
       [] ++ calls)
    /\ page_visits calls = [1; 2; 3].
Proof.
  assert (Hserves : serves (scripted (happy abc)) []
                      {| pdf_handle := 0; numPages := 3 |}
                      [ mkTextContent [mkItem (lit "A")];
                        mkTextContent [mkItem (lit "B")];
                        mkTextContent [mkItem (lit "C")] ]).
  { split; [reflexivity|]. split; [reflexivity|].
    intros i Hi. exists {| page_handle := 0; pageNumber := i |}.
    split; [reflexivity|]. intros tr0.
    destruct i as [|[|[|[|i]]]]; simpl in Hi; try lia; reflexivity. }
  split; [exact Hserves|].
  exact (proj1 (@pdf_pages_in_ascending_order (scripted (happy abc)) []
                  {| pdf_handle := 0; numPages := 3 |} _ configured [] Hserves)).
Defined.

End ContextFetch.

(* ===================================================================== *)
(** ** More facts about the interpretation *)
(* ===================================================================== *)

Section EmittedFacts.

Variable env : Env.

(** The trace after a run is the history followed by what the run
    emitted. *)
Lemma run_emitted A (p : Async A) w tr :
  snd (run env p w tr) = tr ++ emitted env p w tr.
Proof.
  revert w tr.
  induction p as [a|e|k IH|g k IH|R c k IH]; intros w tr; simpl.
  - now rewrite app_nil_r.
  - now rewrite app_nil_r.
  - apply IH.
  - rewrite IH, <- app_assoc. reflexivity.
  - rewrite IH, <- app_assoc. reflexivity.
Qed.

Lemma run_eq_emitted A (p : Async A) w tr o w' tr' :
  run env p w tr = (o, w', tr') -> tr' = tr ++ emitted env p w tr.
Proof. intros H. rewrite <- run_emitted, H. reflexivity. Qed.

Lemma emitted_of_run A (p : Async A) w tr o w' evs :
  run env p w tr = (o, w', tr ++ evs) -> emitted env p w tr = evs.
Proof.
  intros H. apply run_eq_emitted in H. now apply app_inv_head in H.
Qed.

Lemma emitted_bind A B (p : Async A) (f : A -> Async B) w tr :
  emitted env (bind p f) w tr =
  emitted env p w tr ++
  match run env p w tr with
  | (Returned a, w', tr') => emitted env (f a) w' tr'
  | (Threw _, _, _) => []
  end.
Proof.
  revert w tr.
  induction p as [a|e|k IH|g k IH|R c k IH]; intros w tr; simpl; auto.
  - now rewrite IH.
  - now rewrite IH.
Qed.

Lemma answered_by_app hist a b :
  answered_by env hist (a ++ b) <->
  answered_by env hist a /\ answered_by env (hist ++ a) b.
Proof.
  revert hist. induction a as [|[R c r|w] a IH]; intros hist; simpl.
  - rewrite app_nil_r. tauto.
  - rewrite IH, <- app_assoc. simpl. tauto.
  - rewrite IH, <- app_assoc. simpl. tauto.
Qed.

(** Every answer in the emitted trace is the environment's. *)
Lemma emitted_answered A (p : Async A) w tr :
  answered_by env tr (emitted env p w tr).
Proof.
  revert w tr.
  induction p as [a|e|k IH|g k IH|R c k IH]; intros w tr; simpl; auto.
Qed.

Lemma OnlyCalls_bind (ok : forall R, Call R -> bool) A B (p : Async A)
      (f : A -> Async B) :
  OnlyCalls ok p -> (forall a, OnlyCalls ok (f a)) -> OnlyCalls ok (bind p f).
Proof.
  intros Hp Hf. induction Hp; simpl; try constructor; auto.
Qed.

Lemma OnlyCalls_call (ok : forall R, Call R -> bool) R (c : Call R) :
  ok R c = true -> OnlyCalls ok (call c).
Proof. intros H. constructor; [exact H|]. intros r. constructor. Qed.

Lemma OnlyCalls_await (ok : forall R, Call R -> bool) R (c : Call (Settled R)) :
  ok _ c = true -> OnlyCalls ok (await c).
Proof. intros H. constructor; [exact H|]. intros [a|e]; constructor. Qed.

Lemma OnlyCalls_weaken (ok ok' : forall R, Call R -> bool) A (p : Async A) :
  (forall R (c : Call R), ok R c = true -> ok' R c = true) ->
  OnlyCalls ok p -> OnlyCalls ok' p.
Proof. intros Hw Hp. induction Hp; constructor; auto. Qed.

(** Such a program leaves the state alone and emits only such calls. *)
Lemma run_OnlyCalls (ok : forall R, Call R -> bool) A (p : Async A) :
  OnlyCalls ok p ->
  forall w tr,
    final env p w tr = w /\
    forallb (call_event ok) (emitted env p w tr) = true.
Proof.
  unfold final.
  induction 1 as [a|e|k Hk IH|R c k Hc Hk IH]; intros w tr; simpl; auto.
  rewrite Hc. simpl. apply IH.
Qed.

Lemma forallb_call_event_snapshots (ok : forall R, Call R -> bool) evs :
  forallb (call_event ok) evs = true -> snapshots evs = [].
Proof.
  induction evs as [|[R c r|w] evs IH]; simpl; auto.
  - intros H. apply andb_true_iff in H as [_ H]. auto.
  - discriminate.
Qed.

Lemma forallb_local_no_collaborator evs :
  forallb (call_event (@local_call)) evs = true ->
  filter collaborator_event evs = [].
Proof.
  induction evs as [|[R c r|w] evs IH]; simpl; auto; [|discriminate].
  intros H. apply andb_true_iff in H as [Hc H].
  unfold local_call in Hc. apply negb_true_iff in Hc. rewrite Hc. auto.
Qed.

Lemma forallb_local_no_insert evs :
  forallb (call_event (@local_call)) evs = true -> inserted_rows evs = [].
Proof.
  induction evs as [|[R c r|w] evs IH]; simpl; auto; [|discriminate].
  intros H. apply andb_true_iff in H as [Hc H].
  destruct c; simpl in Hc; try discriminate; auto.
Qed.

Lemma inserted_rows_app a b :
  inserted_rows (a ++ b) = inserted_rows a ++ inserted_rows b.
Proof.
  induction a as [|[R c r|w] a IH]; simpl; auto.
  destruct c; simpl; auto. now rewrite IH.
Qed.

Lemma filter_collaborator_app a b :
  filter collaborator_event (a ++ b)
  = filter collaborator_event a ++ filter collaborator_event b.
Proof. apply filter_app. Qed.

End EmittedFacts.

Create HintDb onlycalls.
#[export] Hint Resolve OnlyCalls_bind OnlyCalls_call OnlyCalls_await : onlycalls.
#[export] Hint Constructors OnlyCalls : onlycalls.

(* ===================================================================== *)
(** ** The two services, case by case *)
(* ===================================================================== *)

Section ServiceCases.

Variable env : Env.

Lemma storeDocument_row id name content :
  storeDocument id name content =
  Get (fun w =>
    match supabase_client w with
    | None => Throw notInitialized
    | Some client =>
        uploaded_at <- call NewDateToISOString ;;
        res <- await (SupabaseInsert client (lit "documents")
                        [storedRow id name content uploaded_at]) ;;
        match insert_error res with
        | Some err => Throw (thrown err)
        | None => Ret tt
        end
    end).
Proof. reflexivity. Qed.

(** X1.  [storeDocument] never touches the component state.  Without a
    client it throws "Supabase not initialized" and calls nothing.  With
    one it reads the date and makes exactly one insert, of a single row
    with the given id, name and content and an embedding of 1536 zeros,
    into table [documents]; it returns only when that insert is answered
    without an error, and otherwise throws the store's own error or the
    rejection. *)
Theorem storeDocument_cases id name content w tr :
  final env (storeDocument id name content) w tr = w /\
  match supabase_client w with
  | None =>
      outcome env (storeDocument id name content) w tr = Threw notInitialized /\
      emitted env (storeDocument id name content) w tr = []
  | Some client =>
      exists uploaded_at r,
        emitted env (storeDocument id name content) w tr =
          [ EvCall NewDateToISOString uploaded_at;
            EvCall (SupabaseInsert client (lit "documents")
                      [storedRow id name content uploaded_at]) r ] /\
        List.length (row_embedding (storedRow id name content uploaded_at)) = 1536 /\
        Forall (fun x => x = 0%Z) (row_embedding (storedRow id name content uploaded_at)) /\
        outcome env (storeDocument id name content) w tr =
          match r with
          | Fulfilled res =>
              match insert_error res with
              | Some err => Threw (thrown err)
              | None => Returned tt
              end
          | Rejected e => Threw e
          end
  end.
Proof.
  assert (Hlen : forall u, List.length (row_embedding (storedRow id name content u)) = 1536)
    by (intros u; apply repeat_length).
  assert (Hzero : forall u, Forall (fun x => x = 0%Z)
                              (row_embedding (storedRow id name content u))).
  { intros u. apply Forall_forall. intros x Hx. exact (repeat_spec _ _ _ Hx). }
  rewrite storeDocument_row. unfold final, outcome, call, await.
  cbn [run emitted bind fst snd].
  destruct (supabase_client w) as [client|]; [|auto].
  cbn [run emitted bind fst snd].
  set (tr1 := tr ++ [EvCall NewDateToISOString (env tr NewDateToISOString)]).
  match goal with
  | |- context [env tr1 ?c] => destruct (env tr1 c) as [res|e] eqn:Hins
  end; cbn [run emitted bind fst snd].
  - destruct (insert_error res) as [err|] eqn:Herr; cbn [run emitted fst snd];
      (split; [reflexivity|]);
      eexists _, (Fulfilled res);
      (split; [reflexivity|]); (split; [apply Hlen|]); (split; [apply Hzero|]);
      now rewrite Herr.
  - split; [reflexivity|]. eexists _, (Rejected e).
    split; [reflexivity|]. split; [apply Hlen|]. split; [apply Hzero|].
    reflexivity.
Qed.

(** X2.  [searchKnowledgeBase] never touches the component state and
    makes at most one request.  Without a client it throws "Supabase not
    initialized" and calls nothing.  With one, a reported error is thrown
    whatever data came with it; with no error, missing data and an empty
    list of rows both give the empty string. *)
Theorem searchKnowledgeBase_cases query w tr :
  final env (searchKnowledgeBase query) w tr = w /\
  match supabase_client w with
  | None =>
      outcome env (searchKnowledgeBase query) w tr = Threw notInitialized /\
      emitted env (searchKnowledgeBase query) w tr = []
  | Some client =>
      emitted env (searchKnowledgeBase query) w tr =
        [ EvCall (SupabaseSelect client (lit "documents") (lit "content") 10)
                 (env tr (SupabaseSelect client (lit "documents") (lit "content") 10)) ] /\
      outcome env (searchKnowledgeBase query) w tr =
        match env tr (SupabaseSelect client (lit "documents") (lit "content") 10) with
        | Rejected e => Threw e
        | Fulfilled res =>
            match select_error res, select_data res with
            | Some err, _ => Threw (thrown err)
            | None, None => Returned []
            | None, Some [] => Returned []
            | None, Some rows => Returned (join (nl ++ nl) (map content rows))
            end
        end
  end.
Proof.
  unfold final, outcome, searchKnowledgeBase. simpl.
  destruct (supabase_client w) as [client|]; [|auto].
  simpl.
  destruct (env tr (SupabaseSelect client (lit "documents") (lit "content") 10))
    as [res|e]; simpl; auto.
  destruct (select_error res) as [err|]; simpl; auto.
  destruct (select_data res) as [[|row rows]|]; cbn [option_map or_else];
    auto.
  repeat split.
  match goal with |- context [truthy ?j] => destruct j end; reflexivity.
Qed.

End ServiceCases.

(* ===================================================================== *)
(** ** Extraction: which library is asked *)
(* ===================================================================== *)

Section ExtractionCalls.

Variable env : Env.

Lemma OnlyCalls_pagesLoop pdf n :
  forall i acc, OnlyCalls (@pdf_call) (pagesLoop pdf n i acc).
Proof.
  induction n as [|n IH]; intros i acc; cbn [pagesLoop]; [constructor|].
  apply OnlyCalls_bind; [now apply OnlyCalls_await|intros page].
  apply OnlyCalls_bind; [now apply OnlyCalls_await|intros tc]. apply IH.
Qed.

Lemma OnlyCalls_extractTextFromPdf data :
  OnlyCalls (@pdf_call) (extractTextFromPdf data).
Proof.
  unfold extractTextFromPdf.
  apply OnlyCalls_bind; [now apply OnlyCalls_await|intros pdf].
  apply OnlyCalls_pagesLoop.
Qed.

Lemma pdf_call_local R (c : Call R) : pdf_call c = true -> local_call c = true.
Proof. destruct c; simpl; auto. Qed.

Lemma OnlyCalls_readAndExtract file :
  OnlyCalls (@local_call) (readAndExtract file).
Proof.
  unfold readAndExtract.
  apply OnlyCalls_bind; [now apply OnlyCalls_await|intros data].
  unfold extractText, extractTextFromDocx.
  destruct (is_pdf file); [|destruct (is_docx file)].
  - exact (@OnlyCalls_weaken (@pdf_call) (@local_call) _ _ pdf_call_local
             (OnlyCalls_extractTextFromPdf data)).
  - now apply OnlyCalls_await.
  - now apply OnlyCalls_call.
Qed.

Lemma startsWith_iff s p : startsWith s p = true <-> exists rest, s = p ++ rest.
Proof.
  revert s. induction p as [|y p IH]; intros [|x s]; simpl.
  - split; [intros _; now exists []|reflexivity].
  - split; [intros _; now exists (x :: s)|reflexivity].
  - split; [discriminate|]. intros [rest H]. discriminate.
  - rewrite andb_true_iff, N.eqb_eq, IH. split.
    + intros [-> [rest ->]]. eauto.
    + intros [rest H]. injection H as -> ->. eauto.
Qed.

(** [s.endsWith(p)] holds exactly when [s] is something followed by [p]. *)
Lemma endsWith_iff s p : endsWith s p = true <-> exists stem, s = stem ++ p.
Proof.
  unfold endsWith. rewrite startsWith_iff. split.
  - intros [rest H]. exists (rev rest).
    rewrite <- (rev_involutive s), H, rev_app_distr, rev_involutive. reflexivity.
  - intros [stem ->]. exists (rev stem). apply rev_app_distr.
Qed.

(** X3.  How a file is routed.  It is treated as a PDF exactly when its
    type is [application/pdf] or its name is something followed by
    [.pdf], and as a Word document exactly when its type is the
    wordprocessingml type or its name is something followed by [.docx].
    The PDF test comes first: a file that passes both is read as a PDF.
    A PDF is read with calls to the PDF library only, a Word document
    with the single raw-text call, anything else with the single decoder
    call, whose answer is returned as it is.  No route touches the
    component state. *)
Theorem extraction_route file data w tr :
  (is_pdf file = true <->
     file_type file = lit "application/pdf" \/
     exists stem, file_name file = stem ++ lit ".pdf") /\
  (is_docx file = true <->
     file_type file
       = lit "application/vnd.openxmlformats-officedocument.wordprocessingml.document" \/
     exists stem, file_name file = stem ++ lit ".docx") /\
  final env (extractText file data) w tr = w /\
  (if is_pdf file
   then forallb (call_event (@pdf_call)) (emitted env (extractText file data) w tr) = true
   else if is_docx file
   then emitted env (extractText file data) w tr
        = [EvCall (MammothExtractRawText data) (env tr (MammothExtractRawText data))]
   else emitted env (extractText file data) w tr
        = [EvCall (TextDecoderDecode data) (env tr (TextDecoderDecode data))] /\
        outcome env (extractText file data) w tr
        = Returned (env tr (TextDecoderDecode data))).
Proof.
  split; [|split].
  - unfold is_pdf. rewrite orb_true_iff, eqb_eq, endsWith_iff. reflexivity.
  - unfold is_docx. rewrite orb_true_iff, eqb_eq, endsWith_iff. reflexivity.
  - unfold extractText, extractTextFromDocx, final, outcome.
    destruct (is_pdf file); [|destruct (is_docx file)].
    + apply (run_OnlyCalls env (OnlyCalls_extractTextFromPdf data)).
    + simpl. destruct (env tr (MammothExtractRawText data)); auto.
    + simpl. auto.
Qed.

(** X4.  Reading and extracting a file, whatever its kind and whatever
    the libraries answer, leaves the component state alone and reaches
    neither the model nor the store. *)
Theorem extraction_stays_local file w tr :
  final env (readAndExtract file) w tr = w /\
  snapshots (emitted env (readAndExtract file) w tr) = [] /\
  filter collaborator_event (emitted env (readAndExtract file) w tr) = [] /\
  inserted_rows (emitted env (readAndExtract file) w tr) = [].
Proof.
  destruct (run_OnlyCalls env (OnlyCalls_readAndExtract file) w tr) as [Hw Hev].
  split; [exact Hw|]. split; [|split].
  - eapply forallb_call_event_snapshots; eauto.
  - now apply forallb_local_no_collaborator.
  - now apply forallb_local_no_insert.
Qed.

End ExtractionCalls.

(* ===================================================================== *)
(** ** The upload from end to end *)
(* ===================================================================== *)

Section UploadRun.

Variable env : Env.

(** The handler's result, read off the result of its [try] block. *)
Lemma onFileUpload_by_tried w tr e file :
  first_file e = Some file ->
  isConfigured (app w) = true ->
  run env (fire onFileUpload e) w tr =
  match tried env w tr file with
  | (Returned _, wT, trT) =>
      (Returned tt, setIsUploading false wT,
       trT ++ [EvSet (setIsUploading false wT)])
  | (Threw err, wT, trT) =>
      (Returned tt,
       setIsUploading false (settledError wT (doc_id (newDocOf env w tr file)) err),
       trT ++ [ EvSet (bannered wT err);
                EvSet (settledError wT (doc_id (newDocOf env w tr file)) err);
                EvSet (setIsUploading false
                         (settledError wT (doc_id (newDocOf env w tr file)) err)) ])
  end.
Proof.
  intros Hfile Hconf.
  rewrite (onFileUpload_start env w tr e Hfile Hconf).
  rewrite run_finally, run_try_catch. unfold tried.
  destruct (run env (uploadTry file (newDocOf env w tr file))
              (inserted env w tr file) (insertedTrace env w tr file))
    as [[[[]|err] wT] trT].
  - rewrite run_update. reflexivity.
  - rewrite uploadCatch_run, run_update.
    unfold settledError, bannered. rewrite <- app_assoc. reflexivity.
Qed.

(** What a started upload emits, in terms of what its [try] block
    emits. *)
Lemma onFileUpload_emitted w tr e file :
  first_file e = Some file ->
  isConfigured (app w) = true ->
  emitted env (fire onFileUpload e) w tr =
  beforeInsert env w tr ++ EvSet (inserted env w tr file)
    :: emitted env (uploadTry file (newDocOf env w tr file))
               (inserted env w tr file) (insertedTrace env w tr file)
    ++ match tried env w tr file with
       | (Returned _, wT, _) => [EvSet (setIsUploading false wT)]
       | (Threw err, wT, _) =>
           [ EvSet (bannered wT err);
             EvSet (settledError wT (doc_id (newDocOf env w tr file)) err);
             EvSet (setIsUploading false
                      (settledError wT (doc_id (newDocOf env w tr file)) err)) ]
       end.
Proof.
  intros Hfile Hconf.
  pose proof (run_emitted env (fire onFileUpload e) w tr) as H.
  rewrite (onFileUpload_by_tried w tr e Hfile Hconf) in H.
  unfold tried in *.
  pose proof (run_emitted env (uploadTry file (newDocOf env w tr file))
                (inserted env w tr file) (insertedTrace env w tr file)) as Ht.
  remember (emitted env (uploadTry file (newDocOf env w tr file))
              (inserted env w tr file) (insertedTrace env w tr file)) as E.
  destruct (run env (uploadTry file (newDocOf env w tr file))
              (inserted env w tr file) (insertedTrace env w tr file))
    as [[[[]|err] wT] trT]; cbn [snd fst] in H, Ht; subst trT;
    rewrite insertedTrace_eq, <- !app_assoc in H;
    apply app_inv_head in H; symmetry; exact H.
Qed.

End UploadRun.

Section StoreStep.

Variable env : Env.

Local Arguments repeat : simpl never.

(** The second half of the [try] block, case by case: the model's
    answer, the client, the store's answer. *)
Lemma normalizeAndStore_cases file newDoc text w tr :
  let ask := GenerateContent (lit "gemini-3-flash-preview")
               (normalizerPrompt (file_name file) text) flashConfig in
  let p := normalizeAndStore file newDoc text in
  match env tr ask with
  | Rejected e =>
      outcome env p w tr = Threw e /\ final env p w tr = w /\
      emitted env p w tr = [EvCall ask (Rejected e)]
  | Fulfilled resp =>
      let pc := or_else (response_text resp) [] in
      match supabase_client w with
      | None =>
          outcome env p w tr = Threw notInitialized /\ final env p w tr = w /\
          emitted env p w tr = [EvCall ask (Fulfilled resp)]
      | Some client =>
          exists uploaded_at r,
            let write := SupabaseInsert client (lit "documents")
                           [storedRow (doc_id newDoc) (file_name file) pc uploaded_at] in
            match r with
            | Rejected e =>
                outcome env p w tr = Threw e /\ final env p w tr = w /\
                emitted env p w tr =
                  [ EvCall ask (Fulfilled resp);
                    EvCall NewDateToISOString uploaded_at; EvCall write r ]
            | Fulfilled res =>
                match insert_error res with
                | Some err =>
                    outcome env p w tr = Threw (thrown err) /\
                    final env p w tr = w /\
                    emitted env p w tr =
                      [ EvCall ask (Fulfilled resp);
                        EvCall NewDateToISOString uploaded_at; EvCall write r ]
                | None =>
                    outcome env p w tr = Returned tt /\
                    final env p w tr = settledReady w (doc_id newDoc) pc /\
                    emitted env p w tr =
                      [ EvCall ask (Fulfilled resp);
                        EvCall NewDateToISOString uploaded_at; EvCall write r;
                        EvSet (settledReady w (doc_id newDoc) pc) ]
                end
            end
      end
  end.
Proof.
  intros ask p.
  unfold p, ask, outcome, final, normalizeAndStore, processFileContent,
    storeDocument, normalizerPrompt, flashConfig, storedRow, notInitialized,
    await, call, update.
  cbn [run emitted bind fst snd].
  match goal with
  | |- context [env tr ?c] => destruct (env tr c) as [resp|e] eqn:Hgen
  end; cbn [run emitted bind fst snd]; [|auto].
  destruct (supabase_client w) as [client|]; cbn [run emitted bind fst snd];
    [|auto].
  match goal with
  | |- context [EvCall NewDateToISOString ?iso] => exists iso
  end.
  match goal with
  | |- context [EvCall (SupabaseInsert ?c ?t ?rows) ?r] =>
      exists r; destruct r as [res|e] eqn:Hins
  end; cbn [run emitted bind fst snd].
  - destruct (insert_error res); cbn [run emitted bind fst snd]; auto.
  - auto.
Qed.

End StoreStep.

Section UploadFacts.

Variable env : Env.

(** The [try] block in terms of its two halves. *)
Lemma uploadTry_cases file newDoc w tr :
  match run env (readAndExtract file) w tr with
  | (Threw e, _, _) =>
      outcome env (uploadTry file newDoc) w tr = Threw e /\
      final env (uploadTry file newDoc) w tr = w /\
      emitted env (uploadTry file newDoc) w tr = emitted env (readAndExtract file) w tr
  | (Returned text, _, tr') =>
      if negb (truthy (trim text))
      then outcome env (uploadTry file newDoc) w tr = Threw emptyFile /\
           final env (uploadTry file newDoc) w tr = w /\
           emitted env (uploadTry file newDoc) w tr
           = emitted env (readAndExtract file) w tr
      else outcome env (uploadTry file newDoc) w tr
           = outcome env (normalizeAndStore file newDoc text) w tr' /\
           final env (uploadTry file newDoc) w tr
           = final env (normalizeAndStore file newDoc text) w tr' /\
           emitted env (uploadTry file newDoc) w tr
           = emitted env (readAndExtract file) w tr
             ++ emitted env (normalizeAndStore file newDoc text) w tr'
  end.
Proof.
  pose proof (uploadTry_split env file newDoc w tr) as Hsplit.
  pose proof (run_emitted env (uploadTry file newDoc) w tr) as Hem.
  pose proof (run_emitted env (readAndExtract file) w tr) as Hre.
  destruct (run_OnlyCalls env (OnlyCalls_readAndExtract file) w tr) as [Hw _].
  unfold final, outcome in *.
  destruct (run env (readAndExtract file) w tr) as [[[text|e] w1] tr1];
    cbn [fst snd] in Hw, Hre; subst w1 tr1.
  - destruct (negb (truthy (trim text))).
    + rewrite Hsplit in *. cbn [fst snd] in *.
      apply app_inv_head in Hem. auto.
    + rewrite Hsplit in *. repeat split.
      rewrite run_emitted, <- app_assoc in Hem. now apply app_inv_head in Hem.
  - rewrite Hsplit in *. cbn [fst snd] in *.
    apply app_inv_head in Hem. auto.
Qed.

Lemma banner_truthy err : truthy (banner err) = true.
Proof.
  unfold banner. cbv zeta.
  destruct (includes _ (lit "PGRST205") || includes _ (lit "documents"));
    [reflexivity|].
  unfold or_else. destruct (message err) as [m|]; [|reflexivity].
  destruct (truthy m) eqn:Hm; [exact Hm|reflexivity].
Qed.

(** The states a started upload goes through. *)
Lemma onFileUpload_states w tr e file :
  first_file e = Some file ->
  isConfigured (app w) = true ->
  let d := newDocOf env w tr file in
  let w3 := inserted env w tr file in
  (exists pc,
     fst (fst (tried env w tr file)) = Returned tt /\
     final env (fire onFileUpload e) w tr
       = setIsUploading false (settledReady w3 (doc_id d) pc) /\
     snapshots (emitted env (fire onFileUpload e) w tr)
       = [ setIsUploading true w; cleared w; w3;
           settledReady w3 (doc_id d) pc;
           setIsUploading false (settledReady w3 (doc_id d) pc) ])
  \/
  (exists err,
     fst (fst (tried env w tr file)) = Threw err /\
     final env (fire onFileUpload e) w tr
       = setIsUploading false (settledError w3 (doc_id d) err) /\
     snapshots (emitted env (fire onFileUpload e) w tr)
       = [ setIsUploading true w; cleared w; w3;
           bannered w3 err; settledError w3 (doc_id d) err;
           setIsUploading false (settledError w3 (doc_id d) err) ]).
Proof.
  intros Hfile Hconf d w3.
  destruct (onFileUpload_settles env w tr e Hfile Hconf)
    as (calls & Hs & [(pc & Htry & Hrun)|(err & Htry & Hrun)]).
  - left. exists pc. rewrite Htry. split; [reflexivity|].
    unfold final. rewrite Hrun. split; [reflexivity|].
    rewrite insertedTrace_eq, <- !app_assoc in Hrun.
    apply emitted_of_run in Hrun. rewrite Hrun.
    rewrite !snapshots_app, Hs. reflexivity.
  - right. exists err. rewrite Htry. split; [reflexivity|].
    unfold final. rewrite Hrun. split; [reflexivity|].
    rewrite insertedTrace_eq, <- !app_assoc in Hrun.
    apply emitted_of_run in Hrun. rewrite Hrun.
    rewrite !snapshots_app, Hs. reflexivity.
Qed.

End UploadFacts.

Section UploadStore.

Variable env : Env.

Lemma normalizeAndStore_rows file newDoc text w tr :
  match outcome env (normalizeAndStore file newDoc text) w tr with
  | Returned _ =>
      exists pc uploaded_at,
        final env (normalizeAndStore file newDoc text) w tr
          = settledReady w (doc_id newDoc) pc /\
        inserted_rows (emitted env (normalizeAndStore file newDoc text) w tr)
          = [[storedRow (doc_id newDoc) (file_name file) pc uploaded_at]]
  | Threw _ =>
      final env (normalizeAndStore file newDoc text) w tr = w /\
      List.length
        (inserted_rows (emitted env (normalizeAndStore file newDoc text) w tr)) <= 1
  end.
Proof.
  pose proof (normalizeAndStore_cases env file newDoc text w tr) as H.
  cbv zeta in H.
  destruct (env tr _) as [resp|e] in H.
  - destruct (supabase_client w) as [client|].
    + destruct H as (iso & r & H). destruct r as [res|e].
      * destruct (insert_error res); destruct H as (-> & -> & ->).
        -- split; [reflexivity|]. simpl. lia.
        -- do 2 eexists. split; reflexivity.
      * destruct H as (-> & -> & ->). split; [reflexivity|]. simpl. lia.
    + destruct H as (-> & -> & ->). split; [reflexivity|]. simpl. lia.
  - destruct H as (-> & -> & ->). split; [reflexivity|]. simpl. lia.
Qed.

Lemma uploadTry_rows file newDoc w tr :
  match outcome env (uploadTry file newDoc) w tr with
  | Returned _ =>
      exists pc uploaded_at,
        final env (uploadTry file newDoc) w tr = settledReady w (doc_id newDoc) pc /\
        inserted_rows (emitted env (uploadTry file newDoc) w tr)
          = [[storedRow (doc_id newDoc) (file_name file) pc uploaded_at]]
  | Threw _ =>
      final env (uploadTry file newDoc) w tr = w /\
      List.length (inserted_rows (emitted env (uploadTry file newDoc) w tr)) <= 1
  end.
Proof.
  pose proof (uploadTry_cases env file newDoc w tr) as H.
  assert (Hrows : inserted_rows (emitted env (readAndExtract file) w tr) = []).
  { apply forallb_local_no_insert.
    apply (run_OnlyCalls env (OnlyCalls_readAndExtract file) w tr). }
  destruct (run env (readAndExtract file) w tr) as [[[text|e] w1] tr1].
  - destruct (negb (truthy (trim text))).
    + destruct H as (-> & -> & ->). rewrite Hrows. split; [reflexivity|].
      simpl. lia.
    + destruct H as (-> & -> & ->).
      rewrite inserted_rows_app, Hrows. cbn [Datatypes.app].
      apply normalizeAndStore_rows.
  - destruct H as (-> & -> & ->). rewrite Hrows. split; [reflexivity|].
    simpl. lia.
Qed.

Lemma inserted_rows_beforeInsert w tr : inserted_rows (beforeInsert env w tr) = [].
Proof. reflexivity. Qed.

(** The rows a started upload writes are those of its [try] block. *)
Lemma onFileUpload_rows w tr e file :
  first_file e = Some file ->
  isConfigured (app w) = true ->
  inserted_rows (emitted env (fire onFileUpload e) w tr)
  = inserted_rows (emitted env (uploadTry file (newDocOf env w tr file))
                     (inserted env w tr file) (insertedTrace env w tr file)).
Proof.
  intros Hfile Hconf. rewrite (onFileUpload_emitted env w tr e Hfile Hconf).
  rewrite inserted_rows_app, inserted_rows_beforeInsert.
  cbn [Datatypes.app inserted_rows]. rewrite inserted_rows_app.
  destruct (tried env w tr file) as [[[[]|err] wT] trT]; cbn [inserted_rows];
    now rewrite app_nil_r.
Qed.

End UploadStore.

(* ===================================================================== *)
(** ** More properties of the upload *)
(* ===================================================================== *)

Section UploadExtras.

Import Fixtures Scenarios.

Lemma hd_settledReady (env : Env) w tr file pc :
  hd_error (documents (app (setIsUploading false
     (settledReady (inserted env w tr file) (doc_id (newDocOf env w tr file)) pc))))
  = Some {| doc_id := doc_id (newDocOf env w tr file);
            doc_name := file_name file;
            doc_content := pc;
            doc_status := ready;
            doc_timestamp := doc_timestamp (newDocOf env w tr file) |}.
Proof. simpl. unfold markReady. simpl. rewrite eqb_refl. reflexivity. Qed.

Lemma hd_settledError (env : Env) w tr file err :
  hd_error (documents (app (setIsUploading false
     (settledError (inserted env w tr file) (doc_id (newDocOf env w tr file)) err))))
  = Some {| doc_id := doc_id (newDocOf env w tr file);
            doc_name := file_name file;
            doc_content := [];
            doc_status := error;
            doc_timestamp := doc_timestamp (newDocOf env w tr file) |}.
Proof. simpl. unfold markError. simpl. rewrite eqb_refl. reflexivity. Qed.

(** X5.  The registry and the store agree.  A started upload writes at
    most one row to the store.  When its document ends [ready], it wrote
    exactly one, and that row carries the document's id, its name and
    the very content the registry now shows. *)
Theorem upload_store_agrees (env : Env) w tr e file :
  first_file e = Some file ->
  isConfigured (app w) = true ->
  List.length (inserted_rows (emitted env (fire onFileUpload e) w tr)) <= 1 /\
  exists d,
    hd_error (documents (app (final env (fire onFileUpload e) w tr))) = Some d /\
    doc_name d = file_name file /\
    (doc_status d = ready \/ doc_status d = error) /\
    (doc_status d = ready ->
     exists uploaded_at,
       inserted_rows (emitted env (fire onFileUpload e) w tr)
       = [[storedRow (doc_id d) (doc_name d) (doc_content d) uploaded_at]]).
Proof.
  intros Hfile Hconf.
  rewrite (onFileUpload_rows env w tr e Hfile Hconf).
  unfold final. rewrite (onFileUpload_by_tried env w tr e Hfile Hconf).
  pose proof (uploadTry_rows env file (newDocOf env w tr file)
                (inserted env w tr file) (insertedTrace env w tr file)) as H.
  unfold outcome, final, tried in *.
  destruct (run env (uploadTry file (newDocOf env w tr file))
              (inserted env w tr file) (insertedTrace env w tr file))
    as [[[[]|err] wT] trT]; cbn [fst snd] in *.
  - destruct H as (pc & iso & -> & Hrows). rewrite Hrows.
    split; [simpl; lia|].
    eexists. split; [apply hd_settledReady|].
    cbn [doc_id doc_name doc_content doc_status].
    repeat split; eauto.
  - destruct H as (-> & Hlen). split; [exact Hlen|].
    eexists. split; [apply hd_settledError|].
    cbn [doc_id doc_name doc_content doc_status].
    repeat split; auto. discriminate.
Qed.

Lemma upload_store_agrees_witness :
  first_file (pick pdfFile) = Some pdfFile /\
  isConfigured (app configured) = true /\
  List.length (inserted_rows
     (emitted (scripted (happy abc)) (fire onFileUpload (pick pdfFile)) configured []))
    <= 1 /\
  exists d,
    hd_error (documents (app (final (scripted (happy abc))
                                    (fire onFileUpload (pick pdfFile)) configured [])))
      = Some d /\
    doc_name d = file_name pdfFile /\
    (doc_status d = ready \/ doc_status d = error) /\
    (doc_status d = ready ->
     exists uploaded_at,
       inserted_rows
         (emitted (scripted (happy abc)) (fire onFileUpload (pick pdfFile)) configured [])
       = [[storedRow (doc_id d) (doc_name d) (doc_content d) uploaded_at]]).
Proof.
  split; [reflexivity|]. split; [reflexivity|].
  exact (@upload_store_agrees (scripted (happy abc)) configured []
           (pick pdfFile) pdfFile eq_refl eq_refl).
Defined.

(** X6.  The emptiness check looks at the extracted text only.  When
    extraction gives text that is not all white space, the model answers
    and the store accepts the row, the document ends [ready] with the
    model's text as its content, or with the empty string when the answer
    has no text, and no banner is set. *)
Theorem upload_content_is_model_text (env : Env) w tr e file client text resp :
  first_file e = Some file ->
  isConfigured (app w) = true ->
  supabase_client w = Some client ->
  outcome env (readAndExtract file) (inserted env w tr file)
          (insertedTrace env w tr file) = Returned text ->
  ~ blank text ->
  (forall tr', env _ tr' (GenerateContent (lit "gemini-3-flash-preview")
                            (normalizerPrompt (file_name file) text) flashConfig)
               = Fulfilled resp) ->
  (forall tr' rows, env _ tr' (SupabaseInsert client (lit "documents") rows)
                    = Fulfilled {| insert_error := None |}) ->
  hd_error (documents (app (final env (fire onFileUpload e) w tr)))
  = Some {| doc_id := doc_id (newDocOf env w tr file);
            doc_name := file_name file;
            doc_content := or_else (response_text resp) [];
            doc_status := ready;
            doc_timestamp := doc_timestamp (newDocOf env w tr file) |} /\
  errorStatus (app (final env (fire onFileUpload e) w tr)) = None.
Proof.
  intros Hfile Hconf Hclient Hext Hvis Hgen Hins.
  unfold final. rewrite (onFileUpload_by_tried env w tr e Hfile Hconf).
  pose proof (uploadTry_cases env file (newDocOf env w tr file)
                (inserted env w tr file) (insertedTrace env w tr file)) as H.
  unfold outcome in Hext.
  destruct (run env (readAndExtract file) (inserted env w tr file)
              (insertedTrace env w tr file)) as [[o w1] tr1].
  cbn [fst] in Hext. subst o.
  destruct (truthy (trim text)) eqn:Htext;
    [|exfalso; apply Hvis; now apply truthy_trim_false_iff].
  cbn [negb] in H. destruct H as (Hout & Hfin & _).
  pose proof (normalizeAndStore_cases env file (newDocOf env w tr file) text
                (inserted env w tr file) tr1) as Hnas.
  cbv zeta in Hnas. rewrite Hgen in Hnas.
  replace (supabase_client (inserted env w tr file)) with (Some client) in Hnas
    by (symmetry; exact Hclient).
  destruct Hnas as (iso & r & Hnas).
  assert (Hr : r = Fulfilled {| insert_error := None |}).
  { destruct r as [res|e0]; [destruct (insert_error res) eqn:He|];
      destruct Hnas as (_ & _ & Hem);
      pose proof (emitted_answered env
                    (normalizeAndStore file (newDocOf env w tr file) text)
                    (inserted env w tr file) tr1) as Hans;
      rewrite Hem in Hans; cbn [answered_by] in Hans;
      destruct Hans as (_ & _ & Hans & _); rewrite Hins in Hans; exact Hans. }
  subst r. cbn [insert_error] in Hnas. destruct Hnas as (Hout' & Hfin' & _).
  unfold tried, outcome, final in *.
  destruct (run env (uploadTry file (newDocOf env w tr file))
              (inserted env w tr file) (insertedTrace env w tr file))
    as [[o wT] trT]. cbn [fst snd] in *.
  rewrite Hout' in Hout. subst o. rewrite Hfin' in Hfin. subst wT.
  split; [apply hd_settledReady|reflexivity].
Qed.

Lemma upload_content_is_model_text_witness :
  first_file (pick pdfFile) = Some pdfFile /\
  isConfigured (app configured) = true /\
  supabase_client configured = Some (mkClient (lit "https://x.supabase.co") (lit "k")) /\
  outcome (scripted silentModel) (readAndExtract pdfFile)
          (inserted (scripted silentModel) configured [] pdfFile)
          (insertedTrace (scripted silentModel) configured [] pdfFile)
    = Returned (lit "A" ++ nl) /\
  ~ blank (lit "A" ++ nl) /\
  hd_error (documents (app (final (scripted silentModel)
                                  (fire onFileUpload (pick pdfFile)) configured [])))
  = Some {| doc_id := doc_id (newDocOf (scripted silentModel) configured [] pdfFile);
            doc_name := file_name pdfFile;
            doc_content := [];
            doc_status := ready;
            doc_timestamp :=
              doc_timestamp (newDocOf (scripted silentModel) configured [] pdfFile) |} /\
  errorStatus (app (final (scripted silentModel)
                          (fire onFileUpload (pick pdfFile)) configured [])) = None.
Proof.
  assert (Hvis : ~ blank (lit "A" ++ nl)).
  { intros H. specialize (H 65%N (or_introl eq_refl)). discriminate. }
  split; [reflexivity|]. split; [reflexivity|]. split; [reflexivity|].
  split; [reflexivity|]. split; [exact Hvis|].
  exact (@upload_content_is_model_text (scripted silentModel) configured []
           (pick pdfFile) pdfFile
           (mkClient (lit "https://x.supabase.co") (lit "k"))
           (lit "A" ++ nl) {| response_text := None |}
           eq_refl eq_refl eq_refl eq_refl Hvis (fun _ => eq_refl)
           (fun _ _ => eq_refl)).
Defined.

End UploadExtras.

Section UploadExtras2.

Import Fixtures Scenarios.

(** X7.  A started upload always ends with the banner decided by its
    [try] block alone: when the block returned there is no banner,
    whatever banner an earlier upload had left; when it threw, the banner
    text is not empty, so the banner is rendered. *)
Theorem upload_banner_follows_outcome (env : Env) w tr e file :
  first_file e = Some file ->
  isConfigured (app w) = true ->
  match fst (fst (tried env w tr file)) with
  | Returned _ =>
      errorStatus (app (final env (fire onFileUpload e) w tr)) = None /\
      bannerShown (app (final env (fire onFileUpload e) w tr)) = false
  | Threw err =>
      errorStatus (app (final env (fire onFileUpload e) w tr)) = Some (banner err) /\
      banner err <> [] /\
      bannerShown (app (final env (fire onFileUpload e) w tr)) = true
  end.
Proof.
  intros Hfile Hconf.
  destruct (onFileUpload_states env w tr e Hfile Hconf)
    as [(pc & -> & -> & _)|(err & -> & -> & _)].
  - split; reflexivity.
  - pose proof (banner_truthy err) as Ht.
    split; [reflexivity|]. split; [now apply truthy_iff|].
    unfold bannerShown. simpl. exact Ht.
Qed.

Lemma upload_banner_follows_outcome_witness :
  first_file (pick pdfFile) = Some pdfFile /\
  isConfigured (app withBanner) = true /\
  bannerShown (app withBanner) = true /\
  errorStatus (app (final (scripted (happy abc))
                          (fire onFileUpload (pick pdfFile)) withBanner [])) = None /\
  bannerShown (app (final (scripted (happy abc))
                          (fire onFileUpload (pick pdfFile)) withBanner [])) = false.
Proof.
  split; [reflexivity|]. split; [reflexivity|]. split; [reflexivity|].
  exact (@upload_banner_follows_outcome (scripted (happy abc)) withBanner []
           (pick pdfFile) pdfFile eq_refl eq_refl).
Defined.

(** X8.  From its first state update to its last but one, a started
    upload keeps [isUploading] on, so the file input stays disabled; its
    last update turns the flag off. *)
Theorem upload_flag_spans_the_upload (env : Env) w tr e file :
  first_file e = Some file ->
  isConfigured (app w) = true ->
  exists during,
    snapshots (emitted env (fire onFileUpload e) w tr)
      = during ++ [final env (fire onFileUpload e) w tr] /\
    3 <= List.length during /\
    Forall (fun w' => isUploading (app w') = true /\
                      fileInputDisabled (app w') = true) during /\
    isUploading (app (final env (fire onFileUpload e) w tr)) = false.
Proof.
  intros Hfile Hconf.
  destruct (onFileUpload_states env w tr e Hfile Hconf)
    as [(pc & _ & -> & ->)|(err & _ & -> & ->)].
  - eexists [_; _; _; _]. split; [reflexivity|]. split; [simpl; lia|].
    split; [|reflexivity].
    repeat constructor; unfold fileInputDisabled; simpl; apply orb_true_r.
  - eexists [_; _; _; _; _]. split; [reflexivity|]. split; [simpl; lia|].
    split; [|reflexivity].
    repeat constructor; unfold fileInputDisabled; simpl; apply orb_true_r.
Qed.

Lemma upload_flag_spans_the_upload_witness :
  first_file (pick txtFile) = Some txtFile /\
  isConfigured (app configured) = true /\
  exists during,
    snapshots (emitted (scripted (happy abc)) (fire onFileUpload (pick txtFile))
                       configured [])
      = during ++ [final (scripted (happy abc)) (fire onFileUpload (pick txtFile))
                         configured []] /\
    3 <= List.length during /\
    Forall (fun w' => isUploading (app w') = true /\
                      fileInputDisabled (app w') = true) during /\
    isUploading (app (final (scripted (happy abc)) (fire onFileUpload (pick txtFile))
                            configured [])) = false.
Proof.
  split; [reflexivity|]. split; [reflexivity|].
  exact (@upload_flag_spans_the_upload (scripted (happy abc)) configured []
           (pick txtFile) txtFile eq_refl eq_refl).
Defined.

(** X9.  Without a file (no file list, or an empty one), or with the
    configured flag off, the upload handler does nothing: no state
    update, no call, not even a read of the clock. *)
Theorem upload_without_file_or_config (env : Env) w tr e :
  target_files e = None \/ target_files e = Some [] \/ isConfigured (app w) = false ->
  run env (fire onFileUpload e) w tr = (Returned tt, w, tr) /\
  emitted env (fire onFileUpload e) w tr = [].
Proof.
  intros H.
  assert (Hrun : run env (fire onFileUpload e) w tr = (Returned tt, w, tr)).
  { apply onFileUpload_skip. unfold first_file.
    destruct H as [->|[->|H]]; auto. }
  split; [exact Hrun|].
  apply (emitted_of_run env (fire onFileUpload e) w tr (o := Returned tt) (w' := w)).
  now rewrite app_nil_r.
Qed.

Lemma upload_without_file_or_config_witness :
  (target_files (mkChangeEvent (Some [])) = None \/
   target_files (mkChangeEvent (Some [])) = Some [] \/
   isConfigured (app configured) = false) /\
  run (scripted (happy abc)) (fire onFileUpload (mkChangeEvent (Some []))) configured []
    = (Returned tt, configured, []) /\
  emitted (scripted (happy abc)) (fire onFileUpload (mkChangeEvent (Some [])))
          configured [] = [].
Proof.
  split; [right; left; reflexivity|].
  exact (@upload_without_file_or_config (scripted (happy abc)) configured []
           (mkChangeEvent (Some [])) (or_intror (or_introl eq_refl))).
Defined.

(** X10.  An upload, started or not and however it ends, never writes
    the conversation log, the question field, the answering flag, the
    configuration, the configured flag or the store client: they are the
    same in every state it goes through and at the end. *)
Theorem upload_leaves_chat_and_config (env : Env) w tr e :
  Forall (same_outside_upload w) (snapshots (emitted env (fire onFileUpload e) w tr)) /\
  same_outside_upload w (final env (fire onFileUpload e) w tr).
Proof.
  destruct (first_file e) as [file|] eqn:Hfile;
    [destruct (isConfigured (app w)) eqn:Hconf|].
  - destruct (onFileUpload_states env w tr e Hfile Hconf)
      as [(pc & _ & -> & ->)|(err & _ & -> & ->)];
      split; repeat constructor.
  - unfold final.
    pose proof (onFileUpload_skip env w tr e (or_intror Hconf)) as Hrun.
    rewrite Hrun. rewrite <- (app_nil_r tr) in Hrun at 2.
    apply emitted_of_run in Hrun. rewrite Hrun.
    split; repeat constructor.
  - unfold final.
    pose proof (onFileUpload_skip env w tr e (or_introl Hfile)) as Hrun.
    rewrite Hrun. rewrite <- (app_nil_r tr) in Hrun at 2.
    apply emitted_of_run in Hrun. rewrite Hrun.
    split; repeat constructor.
Qed.

End UploadExtras2.

Section BlankUploads.

Import Fixtures Scenarios.

(** X11.  A PDF without pages, or whose fragments are all white space
    (a scan without a text layer, say), extracts to white space only:
    nothing but the line break the extractor puts after every page and
    the spaces between fragments. *)
Theorem blank_pdf_extracts_blank (env : Env) data pdf pages w tr :
  serves env data pdf pages ->
  (forall tc item, In tc pages -> In item (items tc) -> blank (str item)) ->
  exists text,
    outcome env (extractTextFromPdf data) w tr = Returned text /\
    blank text /\
    trim text = [].
Proof.
  intros Hserves Hblank.
  destruct (extractTextFromPdf_serves w tr Hserves) as (calls & Hrun & _).
  unfold outcome. rewrite Hrun. eexists. split; [reflexivity|].
  assert (Hb : blank (flat_map (fun tc => join (lit " ") (map str (items tc)) ++ nl)
                               pages)).
  { clear Hrun Hserves. induction pages as [|p pages IH]; [intros c []|].
    cbn [flat_map]. rewrite !blank_app. repeat split.
    - apply blank_join_all; [apply blank_space|].
      intros x Hx. apply in_map_iff in Hx as (item & <- & Hitem).
      apply (Hblank p item); [now left|exact Hitem].
    - apply blank_nl.
    - apply IH. intros tc item Htc. apply Hblank. now right. }
  split; [exact Hb|]. now apply trim_nil_iff.
Qed.

Lemma blank_pdf_extracts_blank_witness :
  serves (scripted (happy [[lit " "]; []])) [] {| pdf_handle := 0; numPages := 2 |}
         [ mkTextContent [mkItem (lit " ")]; mkTextContent [] ] /\
  exists text,
    outcome (scripted (happy [[lit " "]; []])) (extractTextFromPdf []) configured []
      = Returned text /\
    blank text /\
    trim text = [].
Proof.
  assert (Hserves : serves (scripted (happy [[lit " "]; []])) []
                      {| pdf_handle := 0; numPages := 2 |}
                      [ mkTextContent [mkItem (lit " ")]; mkTextContent [] ]).
  { split; [reflexivity|]. split; [reflexivity|].
    intros i Hi. exists {| page_handle := 0; pageNumber := i |}.
    split; [reflexivity|]. intros tr0.
    destruct i as [|[|[|i]]]; simpl in Hi; try lia; reflexivity. }
  split; [exact Hserves|].
  refine (@blank_pdf_extracts_blank (scripted (happy [[lit " "]; []])) []
            {| pdf_handle := 0; numPages := 2 |} _ configured [] Hserves _).
  intros tc item [<-|[<-|[]]] Hitem; simpl in Hitem.
  - destruct Hitem as [<-|[]]. apply blank_space.
  - destruct Hitem.
Defined.

(** X12.  When the text extracted for a started upload is all white
    space, the upload ends with the banner "File is empty." and its
    document in status [error] with empty content, and neither the model
    nor the store has been called. *)
Theorem blank_text_ends_upload (env : Env) w tr e file text :
  first_file e = Some file ->
  isConfigured (app w) = true ->
  outcome env (readAndExtract file) (inserted env w tr file)
          (insertedTrace env w tr file) = Returned text ->
  blank text ->
  errorStatus (app (final env (fire onFileUpload e) w tr))
    = Some (lit "File is empty.") /\
  hd_error (documents (app (final env (fire onFileUpload e) w tr)))
    = Some {| doc_id := doc_id (newDocOf env w tr file);
              doc_name := file_name file;
              doc_content := [];
              doc_status := error;
              doc_timestamp := doc_timestamp (newDocOf env w tr file) |} /\
  filter collaborator_event (emitted env (fire onFileUpload e) w tr) = [].
Proof.
  intros Hfile Hconf Hext Hblank.
  rewrite (onFileUpload_emitted env w tr e Hfile Hconf).
  unfold final. rewrite (onFileUpload_by_tried env w tr e Hfile Hconf).
  pose proof (uploadTry_cases env file (newDocOf env w tr file)
                (inserted env w tr file) (insertedTrace env w tr file)) as H.
  assert (Hlocal : filter collaborator_event
                     (emitted env (readAndExtract file) (inserted env w tr file)
                              (insertedTrace env w tr file)) = []).
  { apply forallb_local_no_collaborator.
    apply (run_OnlyCalls env (OnlyCalls_readAndExtract file)). }
  unfold outcome in Hext.
  destruct (run env (readAndExtract file) (inserted env w tr file)
              (insertedTrace env w tr file)) as [[o w1] tr1].
  cbn [fst] in Hext. subst o.
  apply truthy_trim_false_iff in Hblank. rewrite Hblank in H. cbn [negb] in H.
  destruct H as (Hout & Hfin & Hem).
  unfold tried, outcome, final in *.
  destruct (run env (uploadTry file (newDocOf env w tr file))
              (inserted env w tr file) (insertedTrace env w tr file))
    as [[o wT] trT]. cbn [fst snd] in *. subst o wT.
  split; [reflexivity|]. split; [apply hd_settledError|].
  rewrite Hem, filter_app. cbn [filter collaborator_event beforeInsert].
  rewrite filter_app, Hlocal. reflexivity.
Qed.

Lemma blank_text_ends_upload_witness :
  first_file (pick txtFile) = Some txtFile /\
  isConfigured (app configured) = true /\
  outcome (scripted (happy abc)) (readAndExtract txtFile)
          (inserted (scripted (happy abc)) configured [] txtFile)
          (insertedTrace (scripted (happy abc)) configured [] txtFile) = Returned [] /\
  blank [] /\
  errorStatus (app (final (scripted (happy abc)) (fire onFileUpload (pick txtFile))
                          configured []))
    = Some (lit "File is empty.") /\
  hd_error (documents (app (final (scripted (happy abc))
                                  (fire onFileUpload (pick txtFile)) configured [])))
    = Some {| doc_id := doc_id (newDocOf (scripted (happy abc)) configured [] txtFile);
              doc_name := file_name txtFile;
              doc_content := [];
              doc_status := error;
              doc_timestamp :=
                doc_timestamp (newDocOf (scripted (happy abc)) configured [] txtFile) |} /\
  filter collaborator_event
    (emitted (scripted (happy abc)) (fire onFileUpload (pick txtFile)) configured [])
    = [].
Proof.
  assert (Hb : blank []) by (intros c []).
  split; [reflexivity|]. split; [reflexivity|]. split; [reflexivity|].
  split; [exact Hb|].
  exact (@blank_text_ends_upload (scripted (happy abc)) configured []
           (pick txtFile) txtFile [] eq_refl eq_refl eq_refl Hb).
Defined.

End BlankUploads.

(* ===================================================================== *)
(** ** More properties of the chat exchange *)
(* ===================================================================== *)

Section ChatFacts.

Variable env : Env.

(** The states a submitted question goes through, and the calls it
    makes. *)
Lemma handleSendMessage_states w tr :
  truthy (trim (inputMessage (app w))) = true ->
  isAnswering (app w) = false ->
  exists calls a,
    snapshots calls = [] /\
    emitted env (fire handleSendMessage tt) w tr =
      submittedEvents env w tr ++ calls ++
        [ EvSet (answered (submitted env w tr) a);
          EvSet (setIsAnswering false (answered (submitted env w tr) a)) ] /\
    final env (fire handleSendMessage tt) w tr
      = setIsAnswering false (answered (submitted env w tr) a) /\
    msg_role a = assistant /\
    ((exists contents config r now,
        fst (fst (chatTried env w tr)) = Returned tt /\
        In (EvCall DateNow now) calls /\
        a = {| msg_id := toString (now + 1); msg_role := assistant;
               msg_content := or_else (response_text r)
                                (lit "I'm sorry, I couldn't generate an answer.");
               msg_sources := Some [] |} /\
        In (EvCall (GenerateContent (lit "gemini-3-pro-preview") contents config)
                   (Fulfilled r)) calls)
     \/
     (exists err now,
        fst (fst (chatTried env w tr)) = Threw err /\
        In (EvCall DateNow now) calls /\
        a = {| msg_id := toString now; msg_role := assistant;
               msg_content := lit "Error: " ++ or_else (message err) noKnowledge;
               msg_sources := None |})).
Proof.
  intros Hq Hfree.
  destruct (handleSendMessage_settles env w tr Hq Hfree)
    as (calls & a & Hs & Hrun & Hrole & Hpath).
  exists calls, a. split; [exact Hs|].
  split; [now apply emitted_of_run in Hrun|].
  split; [unfold final; now rewrite Hrun|].
  split; [exact Hrole|].
  destruct Hpath as [(contents & config & r & now & H1 & H2 & H3 & H4)
                    |(err & now & H1 & H2 & H3)].
  - left. exists contents, config, r, now. auto.
  - right. exists err, now. auto.
Qed.

Lemma or_else_truthy x d : truthy d = true -> truthy (or_else x d) = true.
Proof.
  intros Hd. unfold or_else. destruct x as [s|]; [|exact Hd].
  destruct (truthy s) eqn:Hs; [exact Hs|exact Hd].
Qed.

End ChatFacts.

Section ChatModel.

Variable env : Env.

Lemma model_answers_app a b :
  model_answers (a ++ b) = model_answers a ++ model_answers b.
Proof.
  induction a as [|[R c r|w] a IH]; simpl; auto.
  destruct c; simpl; congruence.
Qed.

Lemma In_model_answers model contents config r tr :
  In (EvCall (GenerateContent model contents config) r) tr ->
  In r (model_answers tr).
Proof.
  intros Hin. apply in_split in Hin as (before & after & ->).
  rewrite model_answers_app. apply in_or_app. right. simpl. now left.
Qed.

(** A submission asks the model at most once. *)
Lemma chat_asks_model_once w tr :
  List.length (model_answers (emitted env (fire handleSendMessage tt) w tr)) <= 1.
Proof.
  unfold fire, handleSendMessage, chatTry, chatCatch, searchKnowledgeBase,
    generateAnswer, await, call, update.
  cbn [emitted].
  destruct (negb (truthy (trim (inputMessage (app w)))) || isAnswering (app w));
    [apply Nat.le_0_l|].
  cbn [emitted bind try_catch finally model_answers].
  destruct (supabase_client _) as [client|];
    cbn [emitted bind try_catch finally model_answers Datatypes.length];
    [|apply Nat.le_0_l].
  match goal with |- context [env ?t ?c] => destruct (env t c) as [res|e] end;
    cbn [emitted bind try_catch finally model_answers Datatypes.length];
    [|apply Nat.le_0_l].
  destruct (select_error res) as [err|];
    cbn [emitted bind try_catch finally model_answers Datatypes.length];
    [apply Nat.le_0_l|].
  match goal with
  | |- context [env ?t (GenerateContent ?m ?c ?cfg)] =>
      destruct (env t (GenerateContent m c cfg)) as [r|e]
  end;
    cbn [emitted bind try_catch finally model_answers Datatypes.length];
    apply Nat.le_refl.
Qed.

Lemma model_answers_one (r : Settled GenerateContentResponse) answers :
  In r answers -> List.length answers <= 1 -> answers = [r].
Proof.
  destruct answers as [|x [|y rest]]; simpl; intros Hin Hlen.
  - contradiction.
  - destruct Hin as [->|[]]. reflexivity.
  - lia.
Qed.

End ChatModel.

Section ChatExtras.

Import Fixtures Scenarios.

(** X13.  A question that is all white space (or empty), or one
    submitted while an answer is in flight, is dropped: no state update,
    no call, not even a read of the clock. *)
Theorem blank_or_busy_question_dropped (env : Env) w tr :
  blank (inputMessage (app w)) \/ isAnswering (app w) = true ->
  run env (fire handleSendMessage tt) w tr = (Returned tt, w, tr) /\
  emitted env (fire handleSendMessage tt) w tr = [].
Proof.
  intros H.
  assert (Hrun : run env (fire handleSendMessage tt) w tr = (Returned tt, w, tr)).
  { apply handleSendMessage_skip. destruct H as [H|H]; auto.
    left. now apply truthy_trim_false_iff. }
  split; [exact Hrun|].
  apply (emitted_of_run env (fire handleSendMessage tt) w tr
                        (o := Returned tt) (w' := w)).
  now rewrite app_nil_r.
Qed.

Lemma blank_or_busy_question_dropped_witness :
  (blank (inputMessage (app (asking (lit "  ") configured))) \/
   isAnswering (app (asking (lit "  ") configured)) = true) /\
  run (scripted (happy abc)) (fire handleSendMessage tt)
      (asking (lit "  ") configured) []
    = (Returned tt, asking (lit "  ") configured, []) /\
  emitted (scripted (happy abc)) (fire handleSendMessage tt)
          (asking (lit "  ") configured) [] = [].
Proof.
  assert (Hb : blank (inputMessage (app (asking (lit "  ") configured)))).
  { intros c [<-|[<-|[]]]; reflexivity. }
  split; [left; exact Hb|].
  exact (@blank_or_busy_question_dropped (scripted (happy abc))
           (asking (lit "  ") configured) [] (or_introl Hb)).
Defined.

(** X14.  After the two updates that append the question and clear the
    field, an accepted question keeps [isAnswering] on and the field
    empty in every state up to the last but one, so the field and the
    send button stay disabled; the last update turns the flag off and
    leaves the field empty. *)
Theorem answering_flag_spans_the_exchange (env : Env) w tr :
  trim (inputMessage (app w)) <> [] ->
  isAnswering (app w) = false ->
  exists appended field_cleared during,
    snapshots (emitted env (fire handleSendMessage tt) w tr)
      = appended :: field_cleared :: during
          ++ [final env (fire handleSendMessage tt) w tr] /\
    inputMessage (app field_cleared) = [] /\
    2 <= List.length during /\
    Forall (fun w' => isAnswering (app w') = true /\
                      inputMessage (app w') = [] /\
                      chatInputDisabled (app w') = true /\
                      sendDisabled (app w') = true) during /\
    isAnswering (app (final env (fire handleSendMessage tt) w tr)) = false /\
    inputMessage (app (final env (fire handleSendMessage tt) w tr)) = [].
Proof.
  intros Hq Hfree. apply truthy_iff in Hq.
  destruct (handleSendMessage_states env w tr Hq Hfree)
    as (calls & a & Hs & -> & -> & _).
  rewrite !snapshots_app, Hs.
  eexists _, _, [_; _]. split; [reflexivity|]. split; [reflexivity|].
  split; [simpl; lia|]. split; [|split; reflexivity].
  repeat constructor; unfold chatInputDisabled, sendDisabled; simpl;
    try apply orb_true_r; reflexivity.
Qed.

Lemma answering_flag_spans_the_exchange_witness :
  trim (inputMessage (app (asking (lit "hi") configured))) <> [] /\
  isAnswering (app (asking (lit "hi") configured)) = false /\
  exists appended field_cleared during,
    snapshots (emitted (scripted offline) (fire handleSendMessage tt)
                       (asking (lit "hi") configured) [])
      = appended :: field_cleared :: during
          ++ [final (scripted offline) (fire handleSendMessage tt)
                    (asking (lit "hi") configured) []] /\
    inputMessage (app field_cleared) = [] /\
    2 <= List.length during /\
    Forall (fun w' => isAnswering (app w') = true /\
                      inputMessage (app w') = [] /\
                      chatInputDisabled (app w') = true /\
                      sendDisabled (app w') = true) during /\
    isAnswering (app (final (scripted offline) (fire handleSendMessage tt)
                            (asking (lit "hi") configured) [])) = false /\
    inputMessage (app (final (scripted offline) (fire handleSendMessage tt)
                             (asking (lit "hi") configured) [])) = [].
Proof.
  assert (Hq : trim (inputMessage (app (asking (lit "hi") configured))) <> [])
    by discriminate.
  split; [exact Hq|]. split; [reflexivity|].
  exact (@answering_flag_spans_the_exchange (scripted offline)
           (asking (lit "hi") configured) [] Hq eq_refl).
Defined.

(** X15.  A chat submission, accepted or dropped and however it ends,
    never writes the registry, the uploading flag, the banner, the
    configuration, the configured flag or the store client: they are the
    same in every state it goes through and at the end. *)
Theorem chat_leaves_registry_and_config (env : Env) w tr :
  Forall (same_outside_chat w) (snapshots (emitted env (fire handleSendMessage tt) w tr)) /\
  same_outside_chat w (final env (fire handleSendMessage tt) w tr).
Proof.
  destruct (truthy (trim (inputMessage (app w)))) eqn:Hq;
    [destruct (isAnswering (app w)) eqn:Hfree|].
  - unfold final.
    pose proof (handleSendMessage_skip env w tr (or_intror Hfree)) as Hrun.
    rewrite Hrun. rewrite <- (app_nil_r tr) in Hrun at 2.
    apply emitted_of_run in Hrun. rewrite Hrun. split; repeat constructor.
  - destruct (handleSendMessage_states env w tr Hq Hfree)
      as (calls & a & Hs & -> & -> & _).
    rewrite !snapshots_app, Hs. split; repeat constructor.
  - unfold final.
    pose proof (handleSendMessage_skip env w tr (or_introl Hq)) as Hrun.
    rewrite Hrun. rewrite <- (app_nil_r tr) in Hrun at 2.
    apply emitted_of_run in Hrun. rewrite Hrun. split; repeat constructor.
Qed.

(** X16.  The assistant's message of an accepted question is never
    empty and never carries a citation.  When the answer arrives, its
    content is the text of the answer the model gave to this exchange's
    one request, or the stock apology when that answer has no text or an
    empty one, and its sources are an empty list.  When the exchange
    fails, its content is "Error: " followed by the thrown error's
    message, or by the stock hint when the error has no message or an
    empty one, and it has no sources. *)
Theorem assistant_message_never_empty (env : Env) w tr :
  trim (inputMessage (app w)) <> [] ->
  isAnswering (app w) = false ->
  exists u a,
    chatMessages (app (final env (fire handleSendMessage tt) w tr))
      = chatMessages (app w) ++ [u; a] /\
    msg_role a = assistant /\
    msg_content a <> [] /\
    match fst (fst (chatTried env w tr)) with
    | Returned _ =>
        msg_sources a = Some [] /\
        exists contents config r,
          In (EvCall (GenerateContent (lit "gemini-3-pro-preview") contents config)
                     (Fulfilled r))
             (emitted env (fire handleSendMessage tt) w tr) /\
          model_answers (emitted env (fire handleSendMessage tt) w tr)
            = [Fulfilled r] /\
          (forall text, response_text r = Some text -> text <> [] ->
                        msg_content a = text) /\
          (response_text r = None \/ response_text r = Some [] ->
           msg_content a = lit "I'm sorry, I couldn't generate an answer.")
    | Threw err =>
        msg_sources a = None /\
        (forall text, message err = Some text -> text <> [] ->
                      msg_content a = lit "Error: " ++ text) /\
        (message err = None \/ message err = Some [] ->
         msg_content a = lit "Error: " ++ noKnowledge)
    end.
Proof.
  intros Hq Hfree. apply truthy_iff in Hq.
  destruct (handleSendMessage_states env w tr Hq Hfree)
    as (calls & a & Hs & Hem & -> & Hrole & Hpath).
  exists (userMsgOf env w tr), a.
  split; [simpl; now rewrite <- app_assoc|]. split; [exact Hrole|].
  destruct Hpath as [(contents & config & r & now & Htry & _ & -> & Hgen)
                    |(err & now & Htry & _ & ->)];
    rewrite Htry; cbn [msg_content msg_sources].
  - split; [apply truthy_iff, or_else_truthy; reflexivity|].
    split; [reflexivity|].
    assert (Hin : In (EvCall (GenerateContent (lit "gemini-3-pro-preview")
                                contents config) (Fulfilled r))
                     (emitted env (fire handleSendMessage tt) w tr)).
    { rewrite Hem. apply in_or_app. right. apply in_or_app. now left. }
    exists contents, config, r. split; [exact Hin|]. split.
    + apply model_answers_one; [|apply chat_asks_model_once].
      eapply In_model_answers; exact Hin.
    + split.
      * intros text -> Hne. destruct text; [contradiction|reflexivity].
      * intros [->| ->]; reflexivity.
  - split; [discriminate|]. split; [reflexivity|]. split.
    + intros text -> Hne. destruct text; [contradiction|reflexivity].
    + intros [->| ->]; reflexivity.
Qed.

Lemma assistant_message_never_empty_witness :
  trim (inputMessage (app (asking (lit "hi") configured))) <> [] /\
  isAnswering (app (asking (lit "hi") configured)) = false /\
  exists u a,
    chatMessages (app (final (scripted silentModel) (fire handleSendMessage tt)
                             (asking (lit "hi") configured) []))
      = chatMessages (app (asking (lit "hi") configured)) ++ [u; a] /\
    msg_role a = assistant /\
    msg_content a <> [].
Proof.
  assert (Hq : trim (inputMessage (app (asking (lit "hi") configured))) <> [])
    by discriminate.
  split; [exact Hq|]. split; [reflexivity|].
  destruct (@assistant_message_never_empty (scripted silentModel)
              (asking (lit "hi") configured) [] Hq eq_refl)
    as (u & a & H1 & H2 & H3 & _).
  exists u, a. auto.
Defined.

End ChatExtras.

Section ChatExtras2.

Import Fixtures Scenarios.

(** X17.  When the answer arrives and the clock has not gone back since
    the question was submitted, the two messages of the exchange have
    different ids. *)
Theorem answered_ids_differ (env : Env) w tr :
  trim (inputMessage (app w)) <> [] ->
  isAnswering (app w) = false ->
  (forall later, (env _ tr DateNow <= env _ (tr ++ later) DateNow)%Z) ->
  fst (fst (chatTried env w tr)) = Returned tt ->
  exists u a,
    chatMessages (app (final env (fire handleSendMessage tt) w tr))
      = chatMessages (app w) ++ [u; a] /\
    msg_role u = user /\ msg_role a = assistant /\
    msg_id u <> msg_id a.
Proof.
  intros Hq Hfree Hclock Htried. apply truthy_iff in Hq.
  destruct (handleSendMessage_states env w tr Hq Hfree)
    as (calls & a & Hs & Hem & -> & Hrole & Hpath).
  exists (userMsgOf env w tr), a.
  split; [simpl; now rewrite <- app_assoc|]. split; [reflexivity|].
  split; [exact Hrole|].
  destruct Hpath as [(contents & config & r & now & _ & Hnow & -> & _)
                    |(err & now & Htry & _)];
    [|rewrite Htried in Htry; discriminate].
  cbn [msg_id userMsgOf].
  apply in_split in Hnow as (before & after & ->).
  pose proof (emitted_answered env (fire handleSendMessage tt) w tr) as Hans.
  rewrite Hem in Hans.
  apply answered_by_app in Hans as [_ Hans].
  apply answered_by_app in Hans as [Hans _].
  apply answered_by_app in Hans as [_ Hans].
  cbn [answered_by] in Hans. destruct Hans as [Heq _].
  intros Hid. apply toString_inj in Hid.
  specialize (Hclock (submittedEvents env w tr ++ before)).
  rewrite app_assoc, <- Heq in Hclock.
  unfold asked in Hid. lia.
Qed.

Lemma answered_ids_differ_witness :
  trim (inputMessage (app (asking (lit "hi") configured))) <> [] /\
  isAnswering (app (asking (lit "hi") configured)) = false /\
  (forall later, (scripted (happy abc) [] DateNow
                  <= scripted (happy abc) ([] ++ later) DateNow)%Z) /\
  fst (fst (chatTried (scripted (happy abc)) (asking (lit "hi") configured) []))
    = Returned tt /\
  exists u a,
    chatMessages (app (final (scripted (happy abc)) (fire handleSendMessage tt)
                             (asking (lit "hi") configured) []))
      = chatMessages (app (asking (lit "hi") configured)) ++ [u; a] /\
    msg_role u = user /\ msg_role a = assistant /\
    msg_id u <> msg_id a.
Proof.
  assert (Hq : trim (inputMessage (app (asking (lit "hi") configured))) <> [])
    by discriminate.
  assert (Hclock : forall later, (scripted (happy abc) [] DateNow
                                  <= scripted (happy abc) ([] ++ later) DateNow)%Z)
    by (intros later; simpl; lia).
  split; [exact Hq|]. split; [reflexivity|]. split; [exact Hclock|].
  split; [reflexivity|].
  exact (@answered_ids_differ (scripted (happy abc)) (asking (lit "hi") configured) []
           Hq eq_refl Hclock eq_refl).
Defined.

Lemma or_else_nil s : or_else (Some s) [] = s.
Proof. destruct s; reflexivity. Qed.

(** X18.  With a client whose fetch returns rows without an error, an
    accepted question makes exactly two calls to the collaborators, in
    this order: the fetch of up to ten contents, then one request to the
    answering model whose prompt holds the rows' contents joined by a
    blank line as context and the question exactly as typed, untrimmed;
    the field having been cleared in between does not change it. *)
Theorem chat_prompt_composition (env : Env) w tr client rows :
  trim (inputMessage (app w)) <> [] ->
  isAnswering (app w) = false ->
  supabase_client w = Some client ->
  (forall tr', env _ tr' (SupabaseSelect client (lit "documents") (lit "content") 10)
               = Fulfilled {| select_data := Some rows; select_error := None |}) ->
  exists r,
    filter collaborator_event (emitted env (fire handleSendMessage tt) w tr) =
    [ EvCall (SupabaseSelect client (lit "documents") (lit "content") 10)
             (Fulfilled {| select_data := Some rows; select_error := None |});
      EvCall (GenerateContent (lit "gemini-3-pro-preview")
                (answerPrompt (inputMessage (app w))
                              (join (nl ++ nl) (map content rows)))
                proConfig) r ].
Proof.
  intros Hq Hfree Hclient Hsel. apply truthy_iff in Hq.
  unfold fire, handleSendMessage, chatTry, chatCatch, searchKnowledgeBase,
    generateAnswer, answerPrompt, proConfig, await, call, update.
  cbn [emitted bind try_catch finally]. rewrite Hq, Hfree.
  cbn [negb orb emitted bind try_catch finally app setIsAnswering setInputMessage
       setChatMessages on_app supabase_client].
  rewrite Hclient. cbn [emitted bind try_catch finally]. rewrite !Hsel.
  cbn [emitted bind try_catch finally select_error select_data option_map].
  rewrite !or_else_nil.
  cbn [filter collaborator_event is_collaborator].
  match goal with
  | |- context [EvCall (GenerateContent ?m ?c ?cfg) ?r] =>
      exists r; destruct r
  end; cbn [emitted bind try_catch finally filter collaborator_event is_collaborator];
    reflexivity.
Qed.

Lemma chat_prompt_composition_witness :
  trim (inputMessage (app (asking (lit " hi ") configured))) <> [] /\
  isAnswering (app (asking (lit " hi ") configured)) = false /\
  supabase_client (asking (lit " hi ") configured)
    = Some (mkClient (lit "https://x.supabase.co") (lit "k")) /\
  exists r,
    filter collaborator_event
      (emitted (scripted (happy abc)) (fire handleSendMessage tt)
               (asking (lit " hi ") configured) []) =
    [ EvCall (SupabaseSelect (mkClient (lit "https://x.supabase.co") (lit "k"))
                             (lit "documents") (lit "content") 10)
             (Fulfilled {| select_data := Some [mkContentRow (lit "alpha");
                                                mkContentRow (lit "beta")];
                           select_error := None |});
      EvCall (GenerateContent (lit "gemini-3-pro-preview")
                (answerPrompt (lit " hi ")
                              (lit "alpha" ++ nl ++ nl ++ lit "beta"))
                proConfig) r ].
Proof.
  assert (Hq : trim (inputMessage (app (asking (lit " hi ") configured))) <> [])
    by discriminate.
  split; [exact Hq|]. split; [reflexivity|]. split; [reflexivity|].
  exact (@chat_prompt_composition (scripted (happy abc))
           (asking (lit " hi ") configured) []
           (mkClient (lit "https://x.supabase.co") (lit "k"))
           [mkContentRow (lit "alpha"); mkContentRow (lit "beta")]
           Hq eq_refl eq_refl (fun _ => eq_refl)).
Defined.

End ChatExtras2.

(* ===================================================================== *)
(** ** Connecting the store *)
(* ===================================================================== *)

Section ConfigFacts.

Variable env : Env.

Lemma configEffect_run w tr :
  let url := fst (supabaseConfig (app w)) in
  let key := snd (supabaseConfig (app w)) in
  run env (fire configEffect tt) w tr =
  if truthy url && truthy key then
    match env tr (CreateClient url key) with
    | Fulfilled c =>
        (Returned tt, connected c w,
         tr ++ [ EvCall (CreateClient url key) (Fulfilled c);
                 EvSet (setClient (Some c) w); EvSet (connected c w) ])
    | Rejected e =>
        (Returned tt, w, tr ++ [EvCall (CreateClient url key) (Rejected e)])
    end
  else (Returned tt, w, tr).
Proof.
  intros url key. unfold fire, configEffect. cbn [run]. fold url key.
  destruct (truthy url && truthy key); [|reflexivity].
  unfold init, call_throwing, update. cbn [run bind try_catch].
  destruct (env tr (CreateClient url key)) as [c|e];
    cbn [run bind try_catch]; rewrite <- ?app_assoc; reflexivity.
Qed.

Lemma handleConfigSave_run w tr :
  let url := fst (supabaseConfig (app w)) in
  let key := snd (supabaseConfig (app w)) in
  run env (fire handleConfigSave tt) w tr =
  match env tr (CreateClient url key) with
  | Fulfilled c =>
      (Returned tt, setErrorStatus None (connected c w),
       tr ++ [ EvCall (CreateClient url key) (Fulfilled c);
               EvSet (setClient (Some c) w); EvSet (connected c w);
               EvSet (setErrorStatus None (connected c w)) ])
  | Rejected e =>
      (Threw e, w, tr ++ [EvCall (CreateClient url key) (Rejected e)])
  end.
Proof.
  intros url key. unfold fire, handleConfigSave, init, call_throwing, update.
  cbn [run bind]. fold url key.
  destruct (env tr (CreateClient url key)) as [c|e];
    cbn [run bind]; rewrite <- ?app_assoc; reflexivity.
Qed.

Lemma typing_run (f : jsstring * jsstring -> jsstring * jsstring) w tr :
  run env (update (setSupabaseConfig f) ;; fire configEffect tt) w tr =
  run env (fire configEffect tt) (setSupabaseConfig f w)
      (tr ++ [EvSet (setSupabaseConfig f w)]).
Proof. reflexivity. Qed.

Lemma onUrlChange_run v w tr :
  run env (fire onUrlChange v) w tr =
  run env (fire configEffect tt)
      (setSupabaseConfig (fun prev => (v, snd prev)) w)
      (tr ++ [EvSet (setSupabaseConfig (fun prev => (v, snd prev)) w)]).
Proof. reflexivity. Qed.

Lemma onKeyChange_run v w tr :
  run env (fire onKeyChange v) w tr =
  run env (fire configEffect tt)
      (setSupabaseConfig (fun prev => (fst prev, v)) w)
      (tr ++ [EvSet (setSupabaseConfig (fun prev => (fst prev, v)) w)]).
Proof. reflexivity. Qed.

Lemma configEffect_link w tr :
  keeps_link w (final env (fire configEffect tt) w tr) /\
  chatMessages (app (final env (fire configEffect tt) w tr)) = chatMessages (app w).
Proof.
  unfold final. rewrite configEffect_run.
  destruct (truthy _ && truthy _); [|split; [left; split|]; reflexivity].
  destruct (env tr _) as [c|e]; cbn [fst snd].
  - split; [right; right; exists c|]; reflexivity.
  - split; [left; split|]; reflexivity.
Qed.

Lemma perform_step a w tr :
  let w' := final env (perform a) w tr in
  keeps_link w w' /\
  exists pairs,
    chatMessages (app w') = chatMessages (app w) ++ exchanges pairs /\
    Forall well_paired pairs /\
    List.length pairs <= sends [a].
Proof.
  intros w'. subst w'.
  assert (Hnone : forall w1 : World,
            chatMessages (app w1) = chatMessages (app w) ->
            exists pairs,
              chatMessages (app w1) = chatMessages (app w) ++ exchanges pairs /\
              Forall well_paired pairs /\
              List.length pairs <= sends [a]).
  { intros w1 H. exists []. split; [now rewrite app_nil_r|].
    split; [constructor|apply Nat.le_0_l]. }
  destruct a as [|v|v| | | |v| |e]; cbn [perform].
  - destruct (configEffect_link w tr) as [Hl Hc]. split; [exact Hl|auto].
  - unfold final, fire at 1, onUrlChange. cbn [run].
    change (run env (update ?f ;; ?q) w tr) with (run env (update f ;; q) w tr).
    rewrite typing_run.
    destruct (configEffect_link (setSupabaseConfig (fun prev => (v, snd prev)) w)
                (tr ++ [EvSet (setSupabaseConfig (fun prev => (v, snd prev)) w)]))
      as [Hl Hc].
    unfold final in Hl, Hc. split; [exact Hl|apply Hnone; exact Hc].
  - unfold final, fire at 1, onKeyChange. cbn [run].
    rewrite typing_run.
    destruct (configEffect_link (setSupabaseConfig (fun prev => (fst prev, v)) w)
                (tr ++ [EvSet (setSupabaseConfig (fun prev => (fst prev, v)) w)]))
      as [Hl Hc].
    unfold final in Hl, Hc. split; [exact Hl|apply Hnone; exact Hc].
  - unfold final. rewrite handleConfigSave_run.
    destruct (env tr _) as [c|err]; cbn [fst snd].
    + split; [right; right; exists c; reflexivity|apply Hnone; reflexivity].
    + split; [left; split; reflexivity|apply Hnone; reflexivity].
  - split; [right; left; split; reflexivity|apply Hnone; reflexivity].
  - split; [left; split; reflexivity|apply Hnone; reflexivity].
  - split; [left; split; reflexivity|apply Hnone; reflexivity].
  - destruct (truthy (trim (inputMessage (app w)))) eqn:Hq;
      [destruct (isAnswering (app w)) eqn:Hbusy|].
    + unfold final. rewrite (handleSendMessage_skip env w tr (or_intror Hbusy)).
      split; [left; split; reflexivity|apply Hnone; reflexivity].
    + destruct (handleSendMessage_states env w tr Hq Hbusy)
        as (calls & m & _ & _ & -> & Hrole & _).
      split; [left; split; reflexivity|].
      exists [(userMsgOf env w tr, m)]. split.
      * simpl. now rewrite <- app_assoc.
      * split; [|apply Nat.le_refl].
        constructor; [split; [reflexivity|exact Hrole]|constructor].
    + unfold final. rewrite (handleSendMessage_skip env w tr (or_introl Hq)).
      split; [left; split; reflexivity|apply Hnone; reflexivity].
  - destruct (first_file e) as [file|] eqn:Hfile;
      [destruct (isConfigured (app w)) eqn:Hconf|].
    + destruct (onFileUpload_states env w tr e Hfile Hconf)
        as [(pc & _ & -> & _)|(err & _ & -> & _)];
        (split; [left; split; reflexivity
                |apply Hnone; reflexivity]).
    + unfold final. rewrite (onFileUpload_skip env w tr e (or_intror Hconf)).
      split; [left; split; reflexivity
             |apply Hnone; reflexivity].
    + unfold final. rewrite (onFileUpload_skip env w tr e (or_introl Hfile)).
      split; [left; split; reflexivity|apply Hnone; reflexivity].
Qed.

Lemma keeps_link_linked w w' : keeps_link w w' -> linked w -> linked w'.
Proof.
  unfold linked.
  intros [[Hf Hc]|[[Hf Hc]|[c Hc]]] Hw Hon.
  - rewrite Hc. apply Hw. now rewrite <- Hf.
  - rewrite Hf in Hon. discriminate.
  - rewrite Hc. discriminate.
Qed.

End ConfigFacts.

Section ConfigExtras.

Import Fixtures Scenarios.

(** X19.  The effect on the configuration never throws.  With an empty
    URL or key it makes no call and changes nothing.  With both present
    it calls [createClient] once with the two fields: when that
    succeeds the client is installed and the configured flag set, the
    banner staying as it was; when it throws, the error is swallowed
    and the state is unchanged. *)
Theorem config_effect_cases (env : Env) w tr :
  outcome env (fire configEffect tt) w tr = Returned tt /\
  (if truthy (fst (supabaseConfig (app w))) && truthy (snd (supabaseConfig (app w)))
   then
     match env _ tr (CreateClient (fst (supabaseConfig (app w)))
                                  (snd (supabaseConfig (app w)))) with
     | Fulfilled c =>
         final env (fire configEffect tt) w tr = connected c w /\
         errorStatus (app (final env (fire configEffect tt) w tr))
           = errorStatus (app w) /\
         emitted env (fire configEffect tt) w tr =
           [ EvCall (CreateClient (fst (supabaseConfig (app w)))
                                  (snd (supabaseConfig (app w)))) (Fulfilled c);
             EvSet (setClient (Some c) w); EvSet (connected c w) ]
     | Rejected e =>
         final env (fire configEffect tt) w tr = w /\
         emitted env (fire configEffect tt) w tr =
           [ EvCall (CreateClient (fst (supabaseConfig (app w)))
                                  (snd (supabaseConfig (app w)))) (Rejected e) ]
     end
   else
     final env (fire configEffect tt) w tr = w /\
     emitted env (fire configEffect tt) w tr = []).
Proof.
  pose proof (configEffect_run env w tr) as Hrun. cbv zeta in Hrun.
  unfold outcome, final.
  destruct (truthy (fst (supabaseConfig (app w)))
            && truthy (snd (supabaseConfig (app w)))).
  - destruct (env _ tr (CreateClient _ _)) as [c|e]; rewrite Hrun;
      apply emitted_of_run in Hrun; rewrite Hrun; repeat split.
  - rewrite Hrun. rewrite <- (app_nil_r tr) in Hrun at 2.
    apply emitted_of_run in Hrun. rewrite Hrun. repeat split.
Qed.

(** X20.  Pressing Connect has neither the emptiness test nor the
    [try]: it calls [createClient] with the two fields whatever they
    hold.  When that succeeds the client is installed, the configured
    flag set and the banner cleared; when it throws, the error leaves
    the handler and the state, flag and banner included, is unchanged. *)
Theorem config_save_cases (env : Env) w tr :
  match env _ tr (CreateClient (fst (supabaseConfig (app w)))
                               (snd (supabaseConfig (app w)))) with
  | Fulfilled c =>
      outcome env (fire handleConfigSave tt) w tr = Returned tt /\
      final env (fire handleConfigSave tt) w tr
        = setErrorStatus None (connected c w) /\
      emitted env (fire handleConfigSave tt) w tr =
        [ EvCall (CreateClient (fst (supabaseConfig (app w)))
                               (snd (supabaseConfig (app w)))) (Fulfilled c);
          EvSet (setClient (Some c) w); EvSet (connected c w);
          EvSet (setErrorStatus None (connected c w)) ]
  | Rejected e =>
      outcome env (fire handleConfigSave tt) w tr = Threw e /\
      final env (fire handleConfigSave tt) w tr = w /\
      emitted env (fire handleConfigSave tt) w tr =
        [ EvCall (CreateClient (fst (supabaseConfig (app w)))
                               (snd (supabaseConfig (app w)))) (Rejected e) ]
  end.
Proof.
  pose proof (handleConfigSave_run env w tr) as Hrun. cbv zeta in Hrun.
  unfold outcome, final.
  destruct (env _ tr (CreateClient _ _)) as [c|e]; rewrite Hrun;
    apply emitted_of_run in Hrun; rewrite Hrun; repeat split.
Qed.

(** X21.  Typing connects without Connect being pressed: as soon as a
    keystroke in either field leaves both fields non-empty and
    [createClient] accepts them, the component is configured, with a
    client built from the text typed so far. *)
Theorem typing_connects_without_saving (env : Env) w tr a url key c :
  (a = TypeUrl url /\ key = snd (supabaseConfig (app w))) \/
  (a = TypeKey key /\ url = fst (supabaseConfig (app w))) ->
  url <> [] -> key <> [] ->
  (forall tr', env _ tr' (CreateClient url key) = Fulfilled c) ->
  outcome env (perform a) w tr = Returned tt /\
  supabaseConfig (app (final env (perform a) w tr)) = (url, key) /\
  isConfigured (app (final env (perform a) w tr)) = true /\
  supabase_client (final env (perform a) w tr) = Some c.
Proof.
  intros Ha Hurl Hkey Hcreate.
  apply truthy_iff in Hurl. apply truthy_iff in Hkey.
  unfold outcome, final.
  destruct Ha as [[-> ->]|[-> ->]]; cbn [perform];
    [rewrite !onUrlChange_run|rewrite !onKeyChange_run];
    rewrite !configEffect_run;
    cbn [setSupabaseConfig on_app app supabaseConfig fst snd];
    rewrite Hurl, Hkey, Hcreate; repeat split.
Qed.

Lemma typing_connects_without_saving_witness :
  outcome (scripted (happy abc)) (perform (TypeUrl (lit "h")))
          (setSupabaseConfig (fun _ => ([], lit "k")) initial_world) []
    = Returned tt /\
  supabaseConfig (app (final (scripted (happy abc)) (perform (TypeUrl (lit "h")))
                             (setSupabaseConfig (fun _ => ([], lit "k")) initial_world) []))
    = (lit "h", lit "k") /\
  isConfigured (app (final (scripted (happy abc)) (perform (TypeUrl (lit "h")))
                           (setSupabaseConfig (fun _ => ([], lit "k")) initial_world) []))
    = true /\
  supabase_client (final (scripted (happy abc)) (perform (TypeUrl (lit "h")))
                         (setSupabaseConfig (fun _ => ([], lit "k")) initial_world) [])
    = Some (mkClient (lit "h") (lit "k")).
Proof.
  apply (@typing_connects_without_saving (scripted (happy abc))
           (setSupabaseConfig (fun _ => ([], lit "k")) initial_world) []
           (TypeUrl (lit "h")) (lit "h") (lit "k")
           (mkClient (lit "h") (lit "k"))).
  - left. split; reflexivity.
  - discriminate.
  - discriminate.
  - intros tr'. reflexivity.
Defined.


End ConfigExtras.

(* ===================================================================== *)
(** ** Whole sessions *)
(* ===================================================================== *)

Section SessionFacts.

Variable env : Env.

Lemma session_cons a rest w tr :
  session env (a :: rest) w tr =
  session env rest (final env (perform a) w tr) (snd (run env (perform a) w tr)).
Proof. reflexivity. Qed.

Lemma session_linked actions w tr :
  linked w -> linked (fst (session env actions w tr)).
Proof.
  revert w tr. induction actions as [|a rest IH]; intros w tr Hw; [exact Hw|].
  rewrite session_cons. apply IH.
  exact (keeps_link_linked (proj1 (perform_step env a w tr)) Hw).
Qed.

Lemma entry_markReady id pc d : entry (markReady id pc d) = entry d.
Proof. unfold markReady. destruct (Js.eqb (doc_id d) id); reflexivity. Qed.

Lemma entry_markError id d : entry (markError id d) = entry d.
Proof. unfold markError. destruct (Js.eqb (doc_id d) id); reflexivity. Qed.

Lemma settled_markReady id pc d :
  doc_id d = id \/ settled d -> settled (markReady id pc d).
Proof.
  unfold markReady, settled. intros [<-|H].
  - rewrite eqb_refl. discriminate.
  - destruct (Js.eqb (doc_id d) id); [discriminate|exact H].
Qed.

Lemma settled_markError id d :
  doc_id d = id \/ settled d -> settled (markError id d).
Proof.
  unfold markError, settled. intros [<-|H].
  - rewrite eqb_refl. discriminate.
  - destruct (Js.eqb (doc_id d) id); [discriminate|exact H].
Qed.

Lemma perform_documents_same a w tr :
  is_pick a = false ->
  documents (app (final env (perform a) w tr)) = documents (app w).
Proof.
  destruct a as [|v|v| | | |v| |e]; cbn [perform is_pick]; intros Hp;
    try discriminate; try reflexivity; unfold final.
  - rewrite configEffect_run. destruct (truthy _ && truthy _); [|reflexivity].
    destruct (env tr _); reflexivity.
  - rewrite onUrlChange_run, configEffect_run.
    destruct (truthy _ && truthy _); [|reflexivity].
    destruct (env _ _); reflexivity.
  - rewrite onKeyChange_run, configEffect_run.
    destruct (truthy _ && truthy _); [|reflexivity].
    destruct (env _ _); reflexivity.
  - rewrite handleConfigSave_run. destruct (env tr _); reflexivity.
  - destruct (truthy (trim (inputMessage (app w)))) eqn:Hq;
      [destruct (isAnswering (app w)) eqn:Hbusy|].
    + now rewrite (handleSendMessage_skip env w tr (or_intror Hbusy)).
    + destruct (handleSendMessage_states env w tr Hq Hbusy)
        as (calls & m & _ & _ & Hfin & _).
      unfold final in Hfin. rewrite Hfin. reflexivity.
    + now rewrite (handleSendMessage_skip env w tr (or_introl Hq)).
Qed.

Lemma perform_documents a w tr :
  let w' := final env (perform a) w tr in
  (exists added,
     map entry (documents (app w')) = added ++ map entry (documents (app w)) /\
     List.length added <= picks [a]) /\
  (Forall settled (documents (app w)) -> Forall settled (documents (app w'))).
Proof.
  intros w'. subst w'.
  destruct (is_pick a) eqn:Hpick.
  2:{ rewrite (perform_documents_same a w tr Hpick).
      split; [exists []; split; [reflexivity|apply Nat.le_0_l]|auto]. }
  destruct a as [| | | | | | | |e]; try discriminate. cbn [perform].
  destruct (first_file e) as [file|] eqn:Hfile;
    [destruct (isConfigured (app w)) eqn:Hconf|].
  - destruct (onFileUpload_states env w tr e Hfile Hconf)
      as [(pc & _ & -> & _)|(err & _ & -> & _)];
      cbn [setIsUploading settledReady settledError bannered setErrorStatus
           setDocuments inserted cleared on_app app documents map].
    + split.
      * exists [entry (newDocOf env w tr file)]. split; [|apply Nat.le_refl].
        rewrite entry_markReady, map_map. simpl. f_equal.
        apply map_ext. intros d. apply entry_markReady.
      * intros Hall. constructor.
        -- apply settled_markReady. now left.
        -- rewrite Forall_map. revert Hall. apply Forall_impl.
           intros d Hd. apply settled_markReady. now right.
    + split.
      * exists [entry (newDocOf env w tr file)]. split; [|apply Nat.le_refl].
        rewrite entry_markError, map_map. simpl. f_equal.
        apply map_ext. intros d. apply entry_markError.
      * intros Hall. constructor.
        -- apply settled_markError. now left.
        -- rewrite Forall_map. revert Hall. apply Forall_impl.
           intros d Hd. apply settled_markError. now right.
  - unfold final. rewrite (onFileUpload_skip env w tr e (or_intror Hconf)).
    split; [exists []; split; [reflexivity|apply Nat.le_0_l]|auto].
  - unfold final. rewrite (onFileUpload_skip env w tr e (or_introl Hfile)).
    split; [exists []; split; [reflexivity|apply Nat.le_0_l]|auto].
Qed.

Lemma picks_cons a rest : picks (a :: rest) = picks [a] + picks rest.
Proof. unfold picks. simpl. destruct (is_pick a); reflexivity. Qed.

Lemma session_documents actions w tr :
  (exists added,
     map entry (documents (app (fst (session env actions w tr))))
       = added ++ map entry (documents (app w)) /\
     List.length added <= picks actions) /\
  (Forall settled (documents (app w)) ->
   Forall settled (documents (app (fst (session env actions w tr))))).
Proof.
  revert w tr. induction actions as [|a rest IH]; intros w tr.
  - split; [exists []; split; [reflexivity|apply Nat.le_0_l]|auto].
  - rewrite session_cons.
    destruct (perform_documents a w tr) as [(p & Hp & Hlenp) Hs].
    destruct (IH (final env (perform a) w tr) (snd (run env (perform a) w tr)))
      as [(q & Hq & Hlenq) Hs'].
    cbv zeta in Hp, Hs. split.
    + exists (q ++ p). rewrite Hq, Hp, <- app_assoc. split; [reflexivity|].
      rewrite length_app, picks_cons. lia.
    + intros Hall. apply Hs', Hs, Hall.
Qed.

Lemma exchanges_app p q : exchanges (p ++ q) = exchanges p ++ exchanges q.
Proof. unfold exchanges. apply flat_map_app. Qed.

Lemma sends_cons a rest : sends (a :: rest) = sends [a] + sends rest.
Proof. unfold sends. simpl. destruct (is_send a); reflexivity. Qed.

Lemma session_exchanges actions w tr :
  exists pairs,
    chatMessages (app (fst (session env actions w tr)))
      = chatMessages (app w) ++ exchanges pairs /\
    Forall well_paired pairs /\
    List.length pairs <= sends actions.
Proof.
  revert w tr. induction actions as [|a rest IH]; intros w tr.
  - exists []. simpl. rewrite app_nil_r. repeat split; auto.
  - rewrite session_cons.
    destruct (perform_step env a w tr) as [_ (p & Hp & Hpaired & Hlenp)].
    destruct (IH (final env (perform a) w tr) (snd (run env (perform a) w tr)))
      as (q & Hq & Hqpaired & Hlen).
    cbv zeta in Hp.
    exists (p ++ q). rewrite Hq, Hp, exchanges_app, <- app_assoc.
    split; [reflexivity|]. split; [apply Forall_app; now split|].
    rewrite length_app, sends_cons. lia.
Qed.

End SessionFacts.

Section SessionExtras.

Import Fixtures Scenarios.

(** X22.  In a component that starts with the flag off or with a client,
    whatever is done to it and however the collaborators answer, the
    file picker and the question field are never enabled without a store
    client: the flag is only ever set after a client was created, a
    failed connection leaves the earlier client in place, and Reset
    only turns the flag off. *)
Theorem enabled_inputs_have_a_client (env : Env) actions w tr :
  linked w ->
  fileInputDisabled (app (fst (session env actions w tr))) = false \/
  chatInputDisabled (app (fst (session env actions w tr))) = false ->
  supabase_client (fst (session env actions w tr)) <> None.
Proof.
  intros Hw Hon.
  apply (session_linked env actions tr Hw).
  unfold fileInputDisabled, chatInputDisabled in Hon.
  destruct (isConfigured (app (fst (session env actions w tr)))); [reflexivity|].
  destruct Hon as [H|H]; discriminate H.
Qed.

Lemma enabled_inputs_have_a_client_witness :
  supabase_client
    (fst (session (scripted (happy abc))
            [TypeKey (lit "k"); Reset; TypeQuestion (lit "hi"); SaveConfig]
            initial_world [])) <> None.
Proof.
  apply (@enabled_inputs_have_a_client (scripted (happy abc))
           [TypeKey (lit "k"); Reset; TypeQuestion (lit "hi"); SaveConfig]
           initial_world []).
  - intros H. discriminate H.
  - left. reflexivity.
Defined.

(** X23.  Over a whole session the conversation log only grows, and only
    by whole exchanges: it is the log the session started with followed
    by question and answer pairs, a user message then an assistant
    message, at most one pair for each press of Send.  No action
    removes, reorders or rewrites a message. *)
Theorem session_log_only_grows (env : Env) actions w tr :
  exists pairs,
    chatMessages (app (fst (session env actions w tr)))
      = chatMessages (app w) ++ exchanges pairs /\
    Forall well_paired pairs /\
    List.length pairs <= sends actions.
Proof. exact (session_exchanges env actions w tr). Qed.

(** X24.  Over a whole session the registry only grows, at the front:
    the ids, names and timestamps of the entries it started with stay,
    in their order, behind at most one new entry for each file picked.
    No action removes an entry. *)
Theorem session_registry_only_grows (env : Env) actions w tr :
  exists added,
    map entry (documents (app (fst (session env actions w tr))))
      = added ++ map entry (documents (app w)) /\
    List.length added <= picks actions.
Proof. exact (proj1 (session_documents env actions w tr)). Qed.

(** X25.  When every action runs to its end before the next one starts,
    no entry is left in the processing state: if none was at the start,
    none is after the session, however the uploads ended. *)
Theorem session_leaves_nothing_processing (env : Env) actions w tr :
  Forall settled (documents (app w)) ->
  Forall settled (documents (app (fst (session env actions w tr)))).
Proof. exact (proj2 (session_documents env actions w tr)). Qed.

Lemma session_leaves_nothing_processing_witness :
  Forall settled
    (documents (app (fst (session (scripted (failingStore (mkPgError (lit "denied") (lit "42501"))))
                            [SaveConfig; PickFile (pick txtFile); PickFile (pick pdfFile)]
                            initial_world [])))).
Proof.
  apply (@session_leaves_nothing_processing
           (scripted (failingStore (mkPgError (lit "denied") (lit "42501"))))
           [SaveConfig; PickFile (pick txtFile); PickFile (pick pdfFile)]
           initial_world []).
  constructor.
Defined.

End SessionExtras.
